(** * Deimos scripting engine: compiler, virtual machine and task watcher

    A shallow embedding of [src/deimoslang/ir.py], [src/deimoslang/vm.py] and
    [src/task_watcher.py], and the properties of the control-flow lowering,
    the call stack, selector resolution, polling waits and the task
    supervisor that the specification states about them. *)

From Stdlib Require Import ZArith Floats.
From stdpp Require Import base list strings gmap numbers.

Set Warnings "-register-all".

Local Open Scope string_scope.
Local Open Scope Z_scope.
Local Open Scope list_scope.

(** ** Python values and exceptions *)

Module Py.

(** The exceptions the modelled code can raise.  [VMError] and
    [CompilerError] are the classes of vm.py and ir.py; their message is kept
    without the interpolated object text.  The others are the builtin
    exceptions of list indexing, [list.pop], [list.remove], [assert],
    attribute access and arithmetic on a value of the wrong type, asyncio's
    [CancelledError] and [InvalidStateError], [ProviderError] for a failure
    raised inside a client
    operation, and the [ExceptionGroup] in which an [asyncio.TaskGroup]
    wraps the exceptions of its body and tasks. *)
Inductive Exn : Type :=
| VMError (msg : string)
| CompilerError (msg : string)
| AssertionError
| IndexError
| TypeError
| AttributeError
| ValueError
| NameError
| CancelledError
| InvalidStateError
| ProviderError (msg : string)
| ExceptionGroup (exceptions : list Exn).

(** The outcome of running a piece of Python: a value, an exception, or
    [Timeout] when the fuel given to a [while] loop ran out before the loop
    ended (the code itself has no such bound). *)
Inductive Res (A : Type) : Type :=
| Ok (a : A)
| Raise (e : Exn)
| Timeout.
Arguments Ok {A} a.
Arguments Raise {A} e.
Arguments Timeout {A}.

(** A computation over a mutable state [S].  An exception leaves the state as
    the code had mutated it when the exception was raised. *)
Definition M (S A : Type) : Type := S -> Res A * S.

Definition ret {S A} (a : A) : M S A := fun s => (Ok a, s).

Definition bind {S A B} (m : M S A) (k : A -> M S B) : M S B :=
  fun s =>
    match m s with
    | (Ok a, s') => k a s'
    | (Raise e, s') => (Raise e, s')
    | (Timeout, s') => (Timeout, s')
    end.

Definition raise {S A} (e : Exn) : M S A := fun s => (Raise e, s).
Definition timeout {S A} : M S A := fun s => (Timeout, s).
Definition get {S} : M S S := fun s => (Ok s, s).
Definition put {S} (s : S) : M S unit := fun _ => (Ok tt, s).
Definition modify {S} (f : S -> S) : M S unit := fun s => (Ok tt, f s).

(** [assert cond] *)
Definition assert {S} (b : bool) : M S unit :=
  if b then ret tt else raise AssertionError.

(** Unwraps a lookup that Python performs with an exception on failure. *)
Definition or_raise {S A} (e : Exn) (o : option A) : M S A :=
  match o with Some a => ret a | None => raise e end.

(** A result computed without touching the state. *)
Definition lift_res {S A} (r : Res A) : M S A := fun s => (r, s).

(** [l[i]] for a Python list: a negative index counts from the end, and an
    index outside [-len(l), len(l)) is an [IndexError] (here [None]). *)
Definition getitem {A} (l : list A) (i : Z) : option A :=
  if 0 <=? i then l !! Z.to_nat i
  else if 0 <=? Z.of_nat (length l) + i then l !! Z.to_nat (Z.of_nat (length l) + i)
  else None.

(** [l[i] = x] for a Python list, with the same index rule. *)
Definition setitem {A} (l : list A) (i : Z) (x : A) : option (list A) :=
  if 0 <=? i then
    if i <? Z.of_nat (length l) then Some (<[Z.to_nat i := x]> l) else None
  else if 0 <=? Z.of_nat (length l) + i then
    Some (<[Z.to_nat (Z.of_nat (length l) + i) := x]> l)
  else None.

(** [l.pop()]: the last element and the list without it; [None] stands for
    the [IndexError] of popping an empty list. *)
Definition pop {A} (l : list A) : option (A * list A) :=
  match reverse l with
  | [] => None
  | x :: r => Some (x, reverse r)
  end.

(** [l.remove(x)]: the list without the first element equal to [x]; [None]
    stands for the [ValueError] raised when there is none. *)
Fixpoint remove `{EqDecision A} (x : A) (l : list A) : option (list A) :=
  match l with
  | [] => None
  | y :: r => if decide (y = x) then Some r else cons y <$> remove x r
  end.

(** [enumerate(l)] *)
Definition enumerate {A} (l : list A) : list (Z * A) :=
  imap (fun i a => (Z.of_nat i, a)) l.

End Py.

Import Py.

Notation "x <- m ;; k" := (Py.bind m (fun x => k))
  (at level 100, m at next level, right associativity, only parsing) : stdpp_scope.
Notation "m ;;; k" := (Py.bind m (fun _ => k))
  (at level 100, right associativity, only parsing) : stdpp_scope.

(** ** The statement tree (parser.py, tokenizer.py)

    The parser and the tokenizer are not part of the modelled files; ir.py and
    vm.py only read their classes.  The types below carry the fields and enum
    members that ir.py and vm.py use, each enum with one more constructor
    [other] for the members they never name. *)

(** Modelled from the spec: the token kinds of tokenizer.py that vm.py names
    ([TokenKind.minus], [TokenKind.string], [TokenKind.identifier]). *)
Module TokenKind.
Inductive t : Type := minus | string | identifier | other (name : String.string).
End TokenKind.

(** Modelled from the spec: the command kinds of parser.py named by
    [Compiler.compile_command] and [VM._eval_command_expression]. *)
Module CommandKind.
Inductive t : Type :=
| kill | sleep | log | sendkey | click | teleport | goto | usepotion
| buypotions | relog | tozone | waitfor | load_playstyle | expr
| other (name : string).

(** [kind.name] *)
Definition name (k : t) : string :=
  match k with
  | kill => "kill" | sleep => "sleep" | log => "log" | sendkey => "sendkey"
  | click => "click" | teleport => "teleport" | goto => "goto"
  | usepotion => "usepotion" | buypotions => "buypotions" | relog => "relog"
  | tozone => "tozone" | waitfor => "waitfor"
  | load_playstyle => "load_playstyle" | expr => "expr" | other n => n
  end.
End CommandKind.

(** Modelled from the spec: [LogKind] of parser.py. *)
Module LogKind.
Inductive t : Type := window | literal | other (name : string).
End LogKind.

(** Modelled from the spec: [TeleportKind] of parser.py. *)
Module TeleportKind.
Inductive t : Type :=
| position | entity_literal | entity_vague | mob | quest | friend_icon
| friend_name | other (name : string).
End TeleportKind.

(** Modelled from the spec: [WaitforKind] of parser.py. *)
Module WaitforKind.
Inductive t : Type := dialog | battle | free | zonechange | window | other (name : string).
End WaitforKind.

(** Modelled from the spec: [ExprKind] of parser.py. *)
Module ExprKind.
Inductive t : Type := window_visible | in_zone | same_zone | other (name : string).
End ExprKind.

(** Modelled from the spec: [PlayerSelector], "{mass: bool, inverted: bool,
    player_nums: set of int}". *)
Record PlayerSelector : Type := {
  mass : bool;
  inverted : bool;
  player_nums : gset Z
}.

(** A Python value, as the untyped payload of a command or of an instruction
    holds it ([Any]): [None], booleans, integers, floats, strings, lists, the
    enum members and objects of the parser, the [XYZ] triple that evaluating
    a position yields, and [DObject], a handle on an object of the client
    library (a window).

    Modelled from the spec: [Token] (kind, literal, value), the [Expression]
    variants that [VM.eval] tells apart, and [Command] (kind, data,
    player_selector). *)
Inductive Data : Type :=
| DNone
| DBool (b : bool)
| DInt (n : Z)
| DFloat (x : float)
| DStr (s : string)
| DList (xs : list Data)
| DLogKind (k : LogKind.t)
| DTeleportKind (k : TeleportKind.t)
| DWaitforKind (k : WaitforKind.t)
| DExprKind (k : ExprKind.t)
| DKeycode (name : string)
| DToken (tok : Token)
| DSelector (sel : PlayerSelector)
| DExpr (e : Expression)
| DXYZ (x y z : Data)
| DObject (id : nat)
with Token : Type :=
| mkToken (kind : TokenKind.t) (literal : string) (value : Data)
with Expression : Type :=
| CommandExpression (command : Command)
| NumberExpression (number : float)
| XYZExpression (x y z : Expression)
| UnaryExpression (operator : Token) (expr : Expression)
| StringExpression (string : String.string)
| KeyExpression (key : String.string)
| OtherExpression (name : String.string)
with Command : Type :=
| mkCommand (kind : CommandKind.t) (data : list Data)
            (player_selector : option PlayerSelector).

Module Token.
Definition kind (t : Token) : TokenKind.t := let 'mkToken k _ _ := t in k.
Definition literal (t : Token) : string := let 'mkToken _ l _ := t in l.
Definition value (t : Token) : Data := let 'mkToken _ _ v := t in v.
End Token.

Module Command.
Definition kind (c : Command) : CommandKind.t := let 'mkCommand k _ _ := c in k.
Definition data (c : Command) : list Data := let 'mkCommand _ d _ := c in d.
Definition player_selector (c : Command) : option PlayerSelector :=
  let 'mkCommand _ _ s := c in s.
(** The selector as the Python attribute holds it: the object, or [None]. *)
Definition player_selector_obj (c : Command) : Data :=
  match player_selector c with Some s => DSelector s | None => DNone end.
(** [copy.copy(com)] followed by [.data = d]: a new command object that
    shares kind and selector with [c] and holds the list [d]. *)
Definition with_data (c : Command) (d : list Data) : Command :=
  mkCommand (kind c) d (player_selector c).
End Command.

(** Modelled from the spec: the statements [Compiler.compile_stmt] tells
    apart.  A body or branch is the [stmts] list of its [StmtList]. *)
Inductive Stmt : Type :=
| StmtList (stmts : list Stmt)
| CommandStmt (command : Command)
| BlockDefStmt (ident : string) (body : list Stmt)
| IfStmt (expr : Expression) (branch_true branch_false : list Stmt)
| WhileStmt (expr : Expression) (body : list Stmt)
| UntilStmt (expr : Expression) (body : list Stmt)
| LoopStmt (body : list Stmt)
| CallStmt (ident : string)
| SetVarStmt (id : string) (expr : Expression)
| DecVarStmt (id : string)
| OtherStmt (name : string).

(** ** Python's view of a value *)

Module Value.

(** The exact comparison [float == int] of Python. *)
Definition float_eq_Z (x : float) (n : Z) : bool :=
  match Prim2SF x with
  | S754_zero _ => n =? 0
  | S754_finite s m e =>
      let v := if s then - Z.pos m else Z.pos m in
      if 0 <=? e then n =? v * 2 ^ e
      else (Z.pos m mod 2 ^ (- e) =? 0) && (n =? v / 2 ^ (- e))
  | _ => false
  end.

(** The integer a [bool] or [int] stands for in a comparison. *)
Definition as_int (d : Data) : option Z :=
  match d with
  | DBool b => Some (if b then 1 else 0)
  | DInt n => Some n
  | _ => None
  end.

(** [bool(d)], the test of [if d:]: [None], [False], zero, the empty string
    and the empty list are false; every other value is true (enum members and
    the objects of the parser define neither [__bool__] nor [__len__]). *)
Definition truthy (d : Data) : bool :=
  match d with
  | DNone => false
  | DBool b => b
  | DInt n => negb (n =? 0)
  | DFloat x => negb (PrimFloat.eqb x 0%float)
  | DStr s => negb (String.eqb s "")
  | DList xs => match xs with [] => false | _ => true end
  | _ => true
  end.

(** [a == b] on the values that compare by content: [None], numbers (a
    [bool] counts as the integer 0 or 1), strings, lists and enum members.
    The objects of the parser and of the client library compare by identity,
    which the payload does not record: two of them are taken as different. *)
Fixpoint eq (a b : Data) : bool :=
  match a, b with
  | DNone, DNone => true
  | DStr s, DStr t => String.eqb s t
  | DFloat x, DFloat y => PrimFloat.eqb x y
  | DFloat x, (DInt _ | DBool _) => from_option (float_eq_Z x) false (as_int b)
  | (DInt _ | DBool _), DFloat y => from_option (float_eq_Z y) false (as_int a)
  | (DInt _ | DBool _), (DInt _ | DBool _) =>
      match as_int a, as_int b with
      | Some m, Some n => m =? n
      | _, _ => false
      end
  | DList xs, DList ys =>
      (fix go (xs ys : list Data) : bool :=
         match xs, ys with
         | [], [] => true
         | x :: xs', y :: ys' => eq x y && go xs' ys'
         | _, _ => false
         end) xs ys
  | DLogKind k, DLogKind k' =>
      match k, k' with
      | LogKind.window, LogKind.window | LogKind.literal, LogKind.literal => true
      | LogKind.other m, LogKind.other n => String.eqb m n
      | _, _ => false
      end
  | DKeycode m, DKeycode n => String.eqb m n
  | _, _ => false
  end.

End Value.

(** ** The instruction set and the compiler (ir.py) *)

Module InstructionKind.
Inductive t : Type :=
| kill | sleep | log_literal | log_window
| jump | jump_if | jump_ifn
| enter_until
| label | ret | call | deimos_call
| load_playstyle
| set_var | dec_var
| nop.

#[global] Instance eq_dec : EqDecision t.
Proof. solve_decision. Defined.

(** [kind.name] *)
Definition name (k : t) : string :=
  match k with
  | kill => "kill" | sleep => "sleep" | log_literal => "log_literal"
  | log_window => "log_window" | jump => "jump" | jump_if => "jump_if"
  | jump_ifn => "jump_ifn" | enter_until => "enter_until" | label => "label"
  | ret => "ret" | call => "call" | deimos_call => "deimos_call"
  | load_playstyle => "load_playstyle" | set_var => "set_var"
  | dec_var => "dec_var" | nop => "nop"
  end.
End InstructionKind.

(** [Instruction(kind, data=None)]: the payload [None] is [DNone]. *)
Record Instruction : Type := mkInstruction {
  kind : InstructionKind.t;
  data : Data
}.

Module Instruction.
Section Repr.
(** [str(data)], the text Python gives the payload inside the f-string: the
    classes of parser.py define it for their objects. *)
Variable str : Data -> string.

(** [Instruction.__repr__] *)
Definition __repr__ (self : Instruction) : string :=
  if Value.truthy (data self) then
    InstructionKind.name (kind self) +:+ " " +:+ str (data self)
  else
    InstructionKind.name (kind self).
End Repr.
End Instruction.

Module Compiler.

(** The compiler's mutable state is [self._program]; [self._stmts] is the
    argument of [compile]. *)
Abbreviation C := (M (list Instruction)).

(** [Compiler.emit] *)
Definition emit (kind : InstructionKind.t) (data : Data) : C unit :=
  modify (fun _program => _program ++ [mkInstruction kind data]).

(** [self._program.extend(instrs)] *)
Definition extend (instrs : list Instruction) : C unit :=
  modify (fun _program => _program ++ instrs).

(** [Compiler.emit_deimos_call] *)
Definition emit_deimos_call (com : Command) : C unit :=
  emit InstructionKind.deimos_call
       (DList [Command.player_selector_obj com;
               DStr (CommandKind.name (Command.kind com));
               DList (Command.data com)]).

(** [com.data[i]] *)
Definition data_at (com : Command) (i : Z) : C Data :=
  or_raise IndexError (getitem (Command.data com) i).

(** [Compiler.compile_command] *)
Definition compile_command (com : Command) : C unit :=
  match Command.kind com with
  | CommandKind.kill => emit InstructionKind.kill DNone
  | CommandKind.sleep =>
      d0 <- data_at com 0;;
      emit InstructionKind.sleep d0
  | CommandKind.log =>
      d0 <- data_at com 0;;
      if Value.eq d0 (DLogKind LogKind.window) then
        d1 <- data_at com 1;;
        emit InstructionKind.log_window (DList [Command.player_selector_obj com; d1])
      else if Value.eq d0 (DLogKind LogKind.literal) then
        (* com.data[1:len(com.data)] *)
        emit InstructionKind.log_literal (DList (drop 1 (Command.data com)))
      else raise (CompilerError "Unimplemented log kind")
  | CommandKind.sendkey | CommandKind.click | CommandKind.teleport
  | CommandKind.goto | CommandKind.usepotion | CommandKind.buypotions
  | CommandKind.relog | CommandKind.tozone =>
      emit_deimos_call com
  | CommandKind.waitfor =>
      (* copy the original data to split inverted waitfor in two *)
      let data1 := Command.data com in                    (* com.data[:] *)
      data1 <- or_raise IndexError (setitem data1 1 (DBool false));;
      let non_inverted_com := Command.with_data com data1 in
      emit_deimos_call non_inverted_com;;;
      d1 <- data_at com 1;;
      if Value.eq d1 (DBool true) then emit_deimos_call com else ret tt
  | CommandKind.load_playstyle =>
      d0 <- data_at com 0;;
      emit InstructionKind.load_playstyle d0
  | _ => raise (CompilerError "Unimplemented command")
  end.

(** [Compiler(stmts).compile()] run to its end inside another compiler: a
    fresh, empty [_program], whose final value is the result. *)
Definition sub_compile (body : C unit) : C (list Instruction) :=
  fun s =>
    match body [] with
    | (Ok _, p) => (Ok p, s)
    | (Raise e, _) => (Raise e, s)
    | (Timeout, _) => (Timeout, s)
    end.

Definition len (l : list Instruction) : Z := Z.of_nat (length l).

(** [Compiler.compile_stmt]; [compile_stmts] is the loop of
    [Compiler.compile] over a statement list. *)
Fixpoint compile_stmt (stmt : Stmt) : C unit :=
  let compile_stmts :=
    fix compile_stmts (stmts : list Stmt) : C unit :=
      match stmts with
      | [] => ret tt
      | inner :: rest => compile_stmt inner;;; compile_stmts rest
      end in
  match stmt with
  | StmtList stmts => compile_stmts stmts
  | CommandStmt command => compile_command command
  | BlockDefStmt ident body =>
      instrs_body <- sub_compile (compile_stmts body);;
      emit InstructionKind.jump (DInt (len instrs_body + 3));;;
      emit InstructionKind.label (DStr ident);;;
      extend instrs_body;;;
      emit InstructionKind.ret DNone;;;
      emit InstructionKind.nop DNone
  | IfStmt expr branch_true branch_false =>
      instrs_false <- sub_compile (compile_stmts branch_false);;
      instrs_true <- sub_compile (compile_stmts branch_true);;
      (* account for the jump in false branch *)
      emit InstructionKind.jump_if (DList [DExpr expr; DInt (len instrs_false + 2)]);;;
      extend instrs_false;;;
      emit InstructionKind.jump (DInt (len instrs_true + 1));;;
      extend instrs_true;;;
      emit InstructionKind.nop DNone
  | WhileStmt expr body =>
      instrs_body <- sub_compile (
        compile_stmts body;;;
        p <- get;;
        emit InstructionKind.jump_if (DList [DExpr expr; DInt (- len p)]));;
      emit InstructionKind.jump_ifn (DList [DExpr expr; DInt (len instrs_body + 1)]);;;
      extend instrs_body;;;
      emit InstructionKind.nop DNone
  | UntilStmt expr body =>
      instrs_body <- sub_compile (
        compile_stmts body;;;
        p <- get;;
        emit InstructionKind.jump (DInt (- len p)));;
      emit InstructionKind.enter_until (DList [DExpr expr; DInt (len instrs_body + 1)]);;;
      extend instrs_body;;;
      emit InstructionKind.nop DNone
  | LoopStmt body =>
      instrs_body <- sub_compile (
        compile_stmts body;;;
        p <- get;;
        emit InstructionKind.jump (DInt (- len p)));;
      extend instrs_body
  | CallStmt ident =>
      emit InstructionKind.call (DStr ident);;;
      emit InstructionKind.nop DNone
  | SetVarStmt id expr =>
      emit InstructionKind.set_var (DList [DStr id; DExpr expr])
  | DecVarStmt id =>
      emit InstructionKind.dec_var (DStr id)
  | OtherStmt _ => raise (CompilerError "Unknown statement")
  end.

(** [Compiler(stmts).compile()] on a new compiler: the program, or the
    exception that ended the compilation. *)
Definition compile (_stmts : list Stmt) : Res (list Instruction) :=
  fst (sub_compile (compile_stmt (StmtList _stmts)) []).

End Compiler.

(** ** The clients and the world outside the machine

    The client library (wizwalker), [src.utils], [asyncio.sleep] and the
    logger act on the game and on time, which the machine does not own.  A
    [Provider] gives that world its type and the operations the machine
    calls on it: a named operation on one client with its arguments
    ([is_visible_by_path], [zone_name], [teleport], [is_in_dialog], ...),
    sleeping and logging (the logger is given the line as a string, or the
    pieces of an f-string as a list).  An operation may fail with an
    exception. *)

Class Provider (Client World : Type) : Type := {
  invoke : Client -> string -> list Data -> M World Data;
  asyncio_sleep : float -> M World unit;
  logger_debug : Data -> M World unit
}.

(** ** The virtual machine (vm.py) *)

Module VM.

Section Machine.
Context {Client World : Type} `{!Provider Client World}.

(** The fields of a [VM] object. *)
Record t : Type := mk {
  _clients : list Client;
  program : list Instruction;
  running : bool;
  killed : bool;
  _ip : Z;                      (* instruction pointer *)
  _callstack : list Z
}.

(** [VM.__init__]; [upgrade_clients] returns the handles it is given, made
    usable. *)
Definition __init__ (clients : list Client) : t :=
  {| _clients := clients; program := []; running := false; killed := false;
     _ip := 0; _callstack := [] |}.

Definition set_program (p : list Instruction) (self : t) : t :=
  {| _clients := _clients self; program := p; running := running self;
     killed := killed self; _ip := _ip self; _callstack := _callstack self |}.
Definition set_running (b : bool) (self : t) : t :=
  {| _clients := _clients self; program := program self; running := b;
     killed := killed self; _ip := _ip self; _callstack := _callstack self |}.
Definition set_killed (b : bool) (self : t) : t :=
  {| _clients := _clients self; program := program self; running := running self;
     killed := b; _ip := _ip self; _callstack := _callstack self |}.
Definition set_ip (i : Z) (self : t) : t :=
  {| _clients := _clients self; program := program self; running := running self;
     killed := killed self; _ip := i; _callstack := _callstack self |}.
Definition set_callstack (cs : list Z) (self : t) : t :=
  {| _clients := _clients self; program := program self; running := running self;
     killed := killed self; _ip := _ip self; _callstack := cs |}.

(** [VM.reset] *)
Definition reset (self : t) : t :=
  set_callstack [] (set_ip 0 (set_program [] self)).

(** [VM.stop] *)
Definition stop (self : t) : t := set_running false self.

(** [VM.kill] *)
Definition kill (self : t) : t := set_killed true (stop self).

(** [VM.player_by_num] *)
Definition player_by_num (self : t) (num : Z) : Res Client :=
  let i := num - 1 in
  if Z.of_nat (length (_clients self)) <=? i then
    Raise (VMError "Attempted to get client")
  else
    match getitem (_clients self) i with
    | Some c => Ok c
    | None => Raise IndexError
    end.

(** [VM._select_players] *)
Definition _select_players (self : t) (selector : PlayerSelector) : list Client :=
  if mass selector then _clients self
  else
    if inverted selector then
      foldl (fun result '(i, c) =>
               if bool_decide (i ∈ player_nums selector) then result
               else result ++ [c])
            [] (enumerate (_clients self))
    else
      foldl (fun result '(i, c) =>
               if bool_decide (i ∈ player_nums selector) then result ++ [c]
               else result)
            [] (enumerate (_clients self)).

(** Computations on the world alone, and on the machine with the world. *)
Abbreviation W := (M World).
Abbreviation V := (M (t * World)).

Definition lift {A} (m : W A) : V A :=
  fun s => let '(r, w) := m (snd s) in (r, (fst s, w)).
Definition get_self : V t := fun s => (Ok (fst s), s).
Definition modify_self (f : t -> t) : V unit := fun s => (Ok tt, (f (fst s), snd s)).

(** [d[i]] on a payload: indexing a list, a [TypeError] on a value that has
    no items. *)
Definition item {S} (d : Data) (i : Z) : M S Data :=
  match d with
  | DList xs => or_raise IndexError (getitem xs i)
  | _ => raise TypeError
  end.

(** A payload read as a selector: reading [.mass] of anything else is an
    [AttributeError]. *)
Definition as_selector {S} (d : Data) : M S PlayerSelector :=
  match d with DSelector s => ret s | _ => raise AttributeError end.

(** A payload read as an integer (an index or an offset added to the
    pointer); a [bool] counts as 0 or 1.  Other values are a [TypeError]
    here, also a float, which Python lets through until it is used as an
    index. *)
Definition as_index {S} (d : Data) : M S Z :=
  or_raise TypeError (Value.as_int d).

(** ["/".join(d)] *)
Definition join_path {S} (d : Data) : M S string :=
  match d with
  | DList xs =>
      (fix go (xs : list Data) : M S string :=
         match xs with
         | [] => ret ""
         | [DStr s] => ret s
         | DStr s :: r => t <- go r;; ret (s +:+ "/" +:+ t)
         | _ => raise TypeError
         end) xs
  | _ => raise TypeError
  end.

(** [VM._eval_command_expression] *)
Definition _eval_command_expression (self : t) (command : Command) : W Data :=
  assert (match Command.kind command with CommandKind.expr => true | _ => false end);;;
  d0 <- or_raise IndexError (getitem (Command.data command) 0);;
  assert (match d0 with DExprKind _ => true | _ => false end);;;
  selector <- or_raise AssertionError (Command.player_selector command);;
  let clients := _select_players self selector in
  match d0 with
  | DExprKind ExprKind.window_visible =>
      (fix loop (cs : list Client) : W Data :=
         match cs with
         | [] => ret (DBool true)
         | client :: rest =>
             d1 <- or_raise IndexError (getitem (Command.data command) 1);;
             v <- invoke client "is_visible_by_path" [d1];;
             if negb (Value.truthy v) then ret (DBool false) else loop rest
         end) clients
  | DExprKind ExprKind.in_zone =>
      (fix loop (cs : list Client) : W Data :=
         match cs with
         | [] => ret (DBool true)
         | client :: rest =>
             zone <- invoke client "zone_name" [];;
             d1 <- or_raise IndexError (getitem (Command.data command) 1);;
             expected <- join_path d1;;
             if negb (Value.eq (DStr expected) zone) then ret (DBool false)
             else loop rest
         end) clients
  | DExprKind ExprKind.same_zone =>
      let player (i : Z) : W Client :=
        d <- or_raise IndexError (getitem (Command.data command) i);;
        match d with
        | DToken tok => num <- as_index (Token.value tok);;
                        lift_res (player_by_num self num)
        | _ => raise AttributeError
        end in
      a <- player 1;;
      b <- player 2;;
      za <- invoke a "zone_name" [];;
      zb <- invoke b "zone_name" [];;
      ret (DBool (Value.eq za zb))
  | _ => raise (VMError "Unimplemented expression")
  end.

(** [-v] *)
Definition neg {S} (v : Data) : M S Data :=
  match v with
  | DFloat x => ret (DFloat (- x)%float)
  | DInt n => ret (DInt (- n))
  | DBool b => ret (DInt (if b then -1 else 0))
  | _ => raise TypeError
  end.

(** [VM.eval] *)
Fixpoint eval (self : t) (expression : Expression) (client : option Client) : W Data :=
  match expression with
  | CommandExpression command => _eval_command_expression self command
  | NumberExpression number => ret (DFloat number)
  | XYZExpression x y z =>
      vx <- eval self x client;;
      vy <- eval self y client;;
      vz <- eval self z client;;
      ret (DXYZ vx vy vz)
  | UnaryExpression operator expr =>
      match Token.kind operator with
      | TokenKind.minus => v <- eval self expr client;; neg v
      | _ => raise (VMError "Unimplemented unary expression")
      end
  | StringExpression s => ret (DStr s)
  | KeyExpression k => ret (DKeycode k)
  | OtherExpression _ => raise (VMError "Unimplemented expression type")
  end.

(** [VM.eval] on a payload: a value that is no [Expression] matches no
    case. *)
Definition eval_data (self : t) (d : Data) (client : option Client) : W Data :=
  match d with
  | DExpr e => eval self e client
  | _ => raise (VMError "Unimplemented expression type")
  end.

(** *** Polling waits *)

(** [invert ^ v], read as the condition of a [while]. *)
Definition xor_truthy {S} (invert : bool) (v : Data) : M S bool :=
  n <- or_raise TypeError (Value.as_int v);;
  ret (negb (Z.lxor (if invert then 1 else 0) n =? 0)).

(** [waitfor_coro] of [VM.exec_deimos_call]: polls [coro] until it yields
    the opposite of [invert], sleeping [interval] after each poll that does
    not end the wait.  [fuel] bounds the number of polls. *)
Fixpoint waitfor_coro (fuel : nat) (coro : W Data) (invert : bool) (interval : float)
  : W unit :=
  match fuel with
  | O => timeout
  | S fuel' =>
      v <- coro;;
      c <- xor_truthy invert v;;
      if negb c then
        asyncio_sleep interval;;;
        waitfor_coro fuel' coro invert interval
      else ret tt
  end.

(** [waitfor_impl] of [VM.exec_deimos_call]; [completion] is the variable of
    the enclosing call that it reads. *)
Definition waitfor_impl (fuel : nat) (completion : bool) (coro : W Data) (interval : float)
  : W unit :=
  waitfor_coro fuel coro false interval;;;
  if completion then waitfor_coro fuel coro true interval else ret tt.

Definition interval_default : float := 0.25%float.

(** [method_map] of [VM.exec_deimos_call] *)
Definition method_map (k : Data) : option string :=
  match k with
  | DWaitforKind WaitforKind.dialog => Some "is_in_dialog"
  | DWaitforKind WaitforKind.battle => Some "in_battle"
  | DWaitforKind WaitforKind.free => Some "is_free"
  | _ => None
  end.

(** *** Tasks: [asyncio.TaskGroup]

    [tg.create_task] makes a coroutine a task of the event loop.  A task
    runs when the running coroutine is suspended, and runs until it is
    suspended itself; the tasks that are ready run in the order in which
    they became ready.  The operations of a [Provider] return without
    handing control to the event loop, so the coroutines of
    [exec_deimos_call] are suspended in [asyncio.sleep] and at the end of
    an [async with asyncio.TaskGroup()] block only: the tasks of a group
    start when its block has ended, and then run in rounds.  In a round
    each task that is left runs, in the order of creation, up to its next
    sleep or to its end; the sleeps of the machine all take the same time,
    so the tasks wake in the order in which they went to sleep.

    The coroutines given to [tg.create_task] are calls of client operations,
    which do not sleep, and calls of [waitfor_coro] and [waitfor_impl], which
    are one or two polling loops.  A task is described by that shape, so
    that it can be run a round at a time. *)

Section Tasks.
Context {S : Type}.

(** A call [waitfor_coro(coro, invert, interval)] that is under way:
    [polls_left] is what is left of the fuel of [waitfor_coro], and
    [loop_sleep] is its [await asyncio.sleep(interval)]. *)
Record Loop : Type := mkLoop {
  polls_left : nat;
  loop_coro : M S Data;
  loop_invert : bool;
  loop_sleep : M S unit
}.

Inductive Task : Type :=
| Atomic (body : M S unit)      (* a coroutine that does not sleep *)
| Polling (loops : list Loop).  (* polling loops, awaited one after the other *)

(** The condition of the [while] of [waitfor_coro], evaluated once. *)
Definition poll (l : Loop) : M S bool :=
  v <- loop_coro l;;
  c <- xor_truthy (loop_invert l) v;;
  ret (negb c).

Definition spend (l : Loop) (remaining : nat) : Loop :=
  mkLoop remaining (loop_coro l) (loop_invert l) (loop_sleep l).

(** Polling loops run up to their next sleep; the result is what is left
    of them, nothing when the last loop has ended. *)
Fixpoint resume_loops (loops : list Loop) : M S (list Loop) :=
  match loops with
  | [] => ret []
  | l :: rest =>
      match polls_left l with
      | O => timeout
      | Datatypes.S remaining =>
          again <- poll l;;
          if again then
            loop_sleep l;;;
            ret (spend l remaining :: rest)
          else resume_loops rest
      end
  end.

(** A task run up to its next suspension; [None] when it has ended. *)
Definition resume (task : Task) : M S (option Task) :=
  match task with
  | Atomic body => body;;; ret None
  | Polling loops =>
      rest <- resume_loops loops;;
      ret (match rest with [] => None | _ => Some (Polling rest) end)
  end.

(** One round of the tasks of a group: the tasks that are suspended after
    it and the exceptions of those that have failed in it.  A task that ends
    with [CancelledError] counts as cancelled, which is no failure of the
    group. *)
Fixpoint round (tasks : list Task) : M S (list Task * list Exn) :=
  match tasks with
  | [] => ret ([], [])
  | task :: rest =>
      fun s =>
        match resume task s with
        | (Ok next, s1) =>
            (r <- round rest;; ret (option_list next ++ fst r, snd r)) s1
        | (Raise CancelledError, s1) => round rest s1
        | (Raise e, s1) =>
            (r <- round rest;; ret (fst r, e :: snd r)) s1
        | (Timeout, s1) => (Timeout, s1)
        end
  end.

(** The rounds of a group.  The failures of a round end the group: the
    tasks that sleep are cancelled in their sleep, and the group raises the
    exceptions of the round as an [ExceptionGroup]. *)
Fixpoint join_rounds (rounds : nat) (tasks : list Task) : M S unit :=
  match tasks with
  | [] => ret tt
  | _ :: _ =>
      match rounds with
      | O => timeout
      | Datatypes.S rounds' =>
          r <- round tasks;;
          match snd r with
          | [] => join_rounds rounds' (fst r)
          | errors => raise (ExceptionGroup errors)
          end
      end
  end.

(** The polls the tasks have left bound their rounds. *)
Definition polls_of (task : Task) : nat :=
  match task with
  | Atomic _ => O
  | Polling loops => sum_list (map polls_left loops)
  end.

Definition join (tasks : list Task) : M S unit :=
  join_rounds (Datatypes.S (sum_list (map polls_of tasks))) tasks.

(** [async with asyncio.TaskGroup() as tg: body]; [body] returns the tasks it
    created with [tg.create_task].  An exception of the block cancels the
    tasks before they start and leaves the group in an [ExceptionGroup], a
    [CancelledError] as it is. *)
Definition task_group (body : M S (list Task)) : M S unit :=
  fun s =>
    match body s with
    | (Ok tasks, s') => join tasks s'
    | (Raise CancelledError, s') => (Raise CancelledError, s')
    | (Raise e, s') => (Raise (ExceptionGroup [e]), s')
    | (Timeout, s') => (Timeout, s')
    end.

(** [for client in clients: ...; tg.create_task(...)] *)
Fixpoint for_clients (clients : list Client) (f : Client -> M S Task)
  : M S (list Task) :=
  match clients with
  | [] => ret []
  | client :: rest =>
      task <- f client;;
      tasks <- for_clients rest f;;
      ret (task :: tasks)
  end.

End Tasks.

(** A coroutine that calls one client operation and drops its result. *)
Definition call_client (client : Client) (op : string) (args : list Data) : W unit :=
  invoke client op args;;; ret tt.

(** [async with client.mouse_handler: body] *)
Definition with_mouse_handler (client : Client) (body : W unit) : W unit :=
  call_client client "mouse_handler.__aenter__" [];;;
  fun w =>
    let '(r, w') := body w in
    match call_client client "mouse_handler.__aexit__" [] w' with
    | (Ok _, w'') => (r, w'')
    | (e, w'') => (e, w'')
    end.

(** The case ["teleport"] of [VM.exec_deimos_call]. *)
Definition exec_teleport (self : t) (instruction : Instruction) (clients : list Client)
  : W unit :=
  args <- item (data instruction) 2;;
  assert (match args with DList _ => true | _ => false end);;;
  a0 <- item args 0;;
  assert (match a0 with DTeleportKind _ => true | _ => false end);;;
  task_group
    match a0 with
    | DTeleportKind TeleportKind.position =>
        for_clients clients (fun client =>
          a1 <- item args 1;;
          pos <- eval_data self a1 (Some client);;
          ret (Atomic (call_client client "teleport" [pos])))
    | DTeleportKind TeleportKind.entity_literal =>
        name <- item args (-1);;
        for_clients clients (fun client =>
          ret (Atomic (call_client client "tp_to_closest_by_name" [name])))
    | DTeleportKind TeleportKind.entity_vague =>
        vague <- item args (-1);;
        for_clients clients (fun client =>
          ret (Atomic (call_client client "tp_to_closest_by_vague_name" [vague])))
    | DTeleportKind TeleportKind.mob =>
        for_clients clients (fun client =>
          ret (Atomic (call_client client "tp_to_closest_mob" [])))
    | DTeleportKind TeleportKind.quest =>
        for_clients clients (fun client =>
          pos <- invoke client "quest_position.position" [];;
          ret (Atomic (call_client client "teleport" [pos])))
    | DTeleportKind TeleportKind.friend_icon =>
        for_clients clients (fun client =>
          ret (Atomic (with_mouse_handler client
                 (call_client client "teleport_to_friend_from_list"
                              [DStr "icon_list"; DInt 2; DStr "icon_index"; DInt 0]))))
    | DTeleportKind TeleportKind.friend_name =>
        name <- item args (-1);;
        for_clients clients (fun client =>
          ret (Atomic (with_mouse_handler client
                 (call_client client "teleport_to_friend_from_list"
                              [DStr "name"; name]))))
    | _ => raise (VMError "Unimplemented teleport kind")
    end.

(** The case ["goto"] of [VM.exec_deimos_call]. *)
Definition exec_goto (self : t) (instruction : Instruction) (clients : list Client)
  : W unit :=
  args <- item (data instruction) 2;;
  assert (match args with DList _ => true | _ => false end);;;
  task_group
    (for_clients clients (fun client =>
       a0 <- item args 0;;
       pos <- eval_data self a0 (Some client);;
       match pos with
       | DXYZ x y _ => ret (Atomic (call_client client "goto" [x; y]))
       | _ => raise AttributeError
       end)).

(** The local variables of [exec_deimos_call] that the closures of its
    ["waitfor"] case read: a [proxy] defined in a [for client in clients]
    loop holds the variables, not their values, and finds in them what the
    loop has left there when the task that calls it runs. *)
Record Locals : Type := mkLocals {
  local_client : option Client;
  local_starting_zone : option Data
}.

Abbreviation L := (M (Locals * World)).

Definition lift_world {A} (m : W A) : L A :=
  fun s => let '(r, w) := m (snd s) in (r, (fst s, w)).
Definition store_client (client : Client) : L unit :=
  fun s => (Ok tt, (mkLocals (Some client) (local_starting_zone (fst s)), snd s)).
Definition store_starting_zone (zone : Data) : L unit :=
  fun s => (Ok tt, (mkLocals (local_client (fst s)) (Some zone), snd s)).
Definition load_client : L Client :=
  fun s => or_raise NameError (local_client (fst s)) s.
Definition load_starting_zone : L Data :=
  fun s => or_raise NameError (local_starting_zone (fst s)) s.

(** [for client in clients: body] *)
Definition for_client_in (clients : list Client) (body : L Task) : L (list Task) :=
  for_clients clients (fun client => store_client client;;; body).

(** The tasks [waitfor_coro(coro, invert, interval)] and
    [waitfor_impl(coro, interval)]. *)
Definition waitfor_coro_task (fuel : nat) (coro : L Data) (invert : bool) (interval : float)
  : Task :=
  Polling [mkLoop fuel coro invert (lift_world (asyncio_sleep interval))].

Definition waitfor_impl_task (fuel : nat) (completion : bool) (coro : L Data)
           (interval : float) : Task :=
  Polling (mkLoop fuel coro false (lift_world (asyncio_sleep interval))
           :: if completion
              then [mkLoop fuel coro true (lift_world (asyncio_sleep interval))]
              else []).

(** The case ["waitfor"] of [VM.exec_deimos_call], on its local variables. *)
Definition exec_waitfor_locals (fuel : nat) (instruction : Instruction)
           (clients : list Client) : L unit :=
  args <- item (data instruction) 2;;
  completion <- item args (-1);;
  assert (match completion with DBool _ => true | _ => false end);;;
  let completion := Value.truthy completion in
  a0 <- item args 0;;
  match method_map a0 with
  | Some method =>
      task_group
        (for_client_in clients
           (let proxy : L Data :=
              client <- load_client;;
              lift_world (invoke client method []) in
            ret (waitfor_impl_task fuel completion proxy interval_default)))
  | None =>
      match a0 with
      | DWaitforKind WaitforKind.zonechange =>
          task_group
            (for_client_in clients
               (client <- load_client;;
                starting_zone <- lift_world (invoke client "zone_name" []);;
                store_starting_zone starting_zone;;;
                let proxy : L Data :=
                  starting_zone <- load_starting_zone;;
                  client <- load_client;;
                  zone <- lift_world (invoke client "zone_name" []);;
                  ret (DBool (negb (Value.eq starting_zone zone))) in
                ret (waitfor_coro_task fuel proxy false interval_default)));;;
          if completion then
            task_group
              (for_client_in clients
                 (client <- load_client;;
                  ret (waitfor_coro_task fuel (lift_world (invoke client "is_loading" []))
                                         true interval_default)))
          else ret tt
      | DWaitforKind WaitforKind.window =>
          window_path <- item args 1;;
          task_group
            (for_client_in clients
               (let proxy : L Data :=
                  client <- load_client;;
                  lift_world (invoke client "is_visible_by_path" [window_path]) in
                ret (waitfor_impl_task fuel completion proxy interval_default)))
      | _ => raise (VMError "Unimplemented waitfor kind")
      end
  end.

(** The case ["waitfor"] of [VM.exec_deimos_call]: the variables [client]
    and [starting_zone] are not bound before it and are not read after
    it. *)
Definition exec_waitfor (fuel : nat) (instruction : Instruction) (clients : list Client)
  : W unit :=
  fun w =>
    let '(r, s) := exec_waitfor_locals fuel instruction clients (mkLocals None None, w) in
    (r, snd s).

(** [VM.exec_deimos_call] *)
Definition exec_deimos_call (fuel : nat) (self : t) (instruction : Instruction) : W unit :=
  assert (bool_decide (kind instruction = InstructionKind.deimos_call));;;
  assert (match data instruction with DList _ => true | _ => false end);;;
  d0 <- item (data instruction) 0;;
  selector <- as_selector d0;;
  let clients := _select_players self selector in
  d1 <- item (data instruction) 1;;
  if Value.eq d1 (DStr "teleport") then exec_teleport self instruction clients
  else if Value.eq d1 (DStr "goto") then exec_goto self instruction clients
  else if Value.eq d1 (DStr "waitfor") then exec_waitfor fuel instruction clients
  else raise (VMError "Unimplemented deimos call").

(** *** One instruction *)

(** The backward scan of the [call] case.  [n] is the pointer of the call:
    [j] takes the values [n - 1], ..., 0, and the scan fails when [j]
    becomes negative. *)
Fixpoint find_label (program : list Instruction) (label : Data) (n : nat) : Res Z :=
  match n with
  | O => Raise (VMError "Unable to find label")
  | S j =>
      match getitem program (Z.of_nat j) with
      | None => Raise IndexError
      | Some x =>
          if negb (bool_decide (kind x = InstructionKind.label))
             || negb (Value.eq (data x) label)
          then find_label program label j
          else Ok (Z.of_nat j)
      end
  end.

(** [self._ip += n] *)
Definition advance (n : Z) : V unit :=
  modify_self (fun self => set_ip (_ip self + n) self).

(** The strings of the [log_literal] case. *)
Fixpoint log_strs (xs : list Data) : Res (list Data) :=
  match xs with
  | [] => Ok []
  | DToken x :: rest =>
      match Token.kind x with
      | TokenKind.string =>
          match log_strs rest with Ok strs => Ok (Token.value x :: strs) | e => e end
      | TokenKind.identifier =>
          match log_strs rest with Ok strs => Ok (DStr (Token.literal x) :: strs) | e => e end
      | _ => Raise (VMError "Unable to log")
      end
  | _ => Raise AttributeError
  end.

(** [" ".join(strs)] *)
Fixpoint join_strs (strs : list Data) : Res string :=
  match strs with
  | [] => Ok ""
  | [DStr s] => Ok s
  | DStr s :: rest =>
      match join_strs rest with Ok t => Ok (s +:+ " " +:+ t) | e => e end
  | _ => Raise TypeError
  end.

(** The [match instruction.kind] of [VM.step]; [self] is the machine as the
    step found it.  [fuel] bounds the polls of a [waitfor]. *)
Definition execute (fuel : nat) (self : t) (instruction : Instruction) : V unit :=
    match kind instruction with
    | InstructionKind.kill =>
        modify_self kill;;;
        lift (logger_debug (DStr "Bot Killed"))
    | InstructionKind.sleep =>
        assert (match data instruction with DNone => false | _ => true end);;;
        time <- lift (eval_data self (data instruction) None);;
        match time with
        | DFloat t => lift (asyncio_sleep t);;; advance 1
        | _ => raise AssertionError
        end
    | InstructionKind.jump =>
        match data instruction with
        | DInt n => advance n
        | _ => raise AssertionError
        end
    | InstructionKind.jump_if =>
        assert (match data instruction with DList _ => true | _ => false end);;;
        d0 <- item (data instruction) 0;;
        c <- lift (eval_data self d0 None);;
        if Value.truthy c then
          d1 <- item (data instruction) 1;;
          n <- as_index d1;;
          advance n
        else advance 1
    | InstructionKind.jump_ifn =>
        assert (match data instruction with DList _ => true | _ => false end);;;
        d0 <- item (data instruction) 0;;
        c <- lift (eval_data self d0 None);;
        if Value.truthy c then advance 1
        else
          d1 <- item (data instruction) 1;;
          n <- as_index d1;;
          advance n
    | InstructionKind.call =>
        modify_self (fun self => set_callstack (_callstack self ++ [_ip self + 1]) self);;;
        let label := data instruction in
        (* TODO: Less hacky solution. This scans upwards looking for labels *)
        j <- lift_res (find_label (program self) label (Z.to_nat (_ip self)));;
        modify_self (set_ip j)
    | InstructionKind.ret =>
        self <- get_self;;
        popped <- or_raise IndexError (pop (_callstack self));;
        modify_self (fun self => set_ip (fst popped) (set_callstack (snd popped) self))
    | InstructionKind.log_literal =>
        match data instruction with
        | DList xs =>
            strs <- lift_res (log_strs xs);;
            s <- lift_res (join_strs strs);;
            lift (logger_debug (DStr s));;;
            advance 1
        | _ => raise AssertionError
        end
    | InstructionKind.log_window =>
        assert (match data instruction with DList _ => true | _ => false end);;;
        d0 <- item (data instruction) 0;;
        selector <- as_selector d0;;
        let clients := _select_players self selector in
        path <- item (data instruction) 1;;
        lift (task_group
          ((fix loop (cs : list Client) : W (list Task) :=
              match cs with
              | [] => ret []
              | client :: rest =>
                  window <- invoke client "get_window_from_path" [path];;
                  if negb (Value.truthy window) then
                    raise (VMError "Unable to find window at path")
                  else
                    window_str <- invoke client "maybe_text" [window];;
                    title <- invoke client "title" [];;
                    logger_debug (DList [title; DStr " - "; window_str]);;;
                    loop rest
              end) clients));;;
        advance 1
    | InstructionKind.label => advance 1
    | InstructionKind.deimos_call =>
        lift (exec_deimos_call fuel self instruction);;;
        advance 1
    | _ => raise (VMError "Unimplemented instruction")
    end.

(** [VM.step] *)
Definition step (fuel : nat) : V unit :=
  self <- get_self;;
  if negb (running self) then ret tt
  else
    instruction <- or_raise IndexError (getitem (program self) (_ip self));;
    execute fuel self instruction;;;
    self <- get_self;;
    if Z.of_nat (length (program self)) <=? _ip self then modify_self stop
    else ret tt.

(** The loop of [VM.run]: at most [fuel] steps. *)
Fixpoint run_loop (polls fuel : nat) : V unit :=
  match fuel with
  | O => timeout
  | S fuel' =>
      self <- get_self;;
      if running self then step polls;;; run_loop polls fuel'
      else ret tt
  end.

(** [VM.run] *)
Definition run (polls fuel : nat) : V unit :=
  modify_self (set_running true);;;
  run_loop polls fuel.

End Machine.

Arguments t : clear implicits.
Arguments Loop : clear implicits.
Arguments Task : clear implicits.
Arguments Locals : clear implicits.

End VM.

(** ** The task watcher (task_watcher.py) *)

Module TaskWatcher.

(** *** The part of asyncio the watcher uses

    A [Task] is a handle on an entry of the event loop: the coroutine it
    runs and its state.  A task is running (perhaps with a cancellation
    requested, which takes effect when the loop next runs it) or done; a done
    task has returned, was cancelled, or holds the exception object that
    ended it, which is an instance of [Exception] or only of
    [BaseException]. *)

Definition Task : Type := nat.

Inductive Coroutine : Type :=
| __loop                      (* the supervising loop of [start_loop] *)
| coroutine (name : string).  (* any other coroutine *)

Inductive ExceptionObject : Type :=
| exception (e : Exn)
| base_exception (name : string).

Inductive Outcome : Type :=
| returned
| cancelled
| failed (exc : ExceptionObject).

Inductive TaskState : Type :=
| pending (cancel_requested : bool)
| finished (o : Outcome).

Definition EventLoop : Type := list (Coroutine * TaskState).

Definition state_of (loop : EventLoop) (task : Task) : TaskState :=
  from_option snd (pending false) (loop !! task).

(** [task.done()] *)
Definition done (loop : EventLoop) (task : Task) : bool :=
  match state_of loop task with finished _ => true | pending _ => false end.

(** [task.exception()] of a task that is done: the exception object or
    [None]; a cancelled task raises [CancelledError]. *)
Definition task_exception (loop : EventLoop) (task : Task) : Res (option ExceptionObject) :=
  match state_of loop task with
  | finished (failed exc) => Ok (Some exc)
  | finished returned => Ok None
  | finished cancelled => Raise CancelledError
  | pending _ => Raise InvalidStateError
  end.

(** [task.cancel()] *)
Definition cancel (task : Task) (loop : EventLoop) : EventLoop :=
  match loop !! task with
  | Some (c, pending _) => <[task := (c, pending true)]> loop
  | _ => loop
  end.

(** [asyncio.create_task(coro)] *)
Definition create_task (coro : Coroutine) (loop : EventLoop) : Task * EventLoop :=
  (length loop, loop ++ [(coro, pending false)]).

(** *** The class *)

Record t : Type := mk {
  _tasks : list Task;
  _running : bool;
  _selftask : option Task
}.

Abbreviation T := (M (t * EventLoop)).

(** [TaskWatcher.__init__] *)
Definition __init__ : t :=
  {| _tasks := []; _running := false; _selftask := None |}.

Definition get_self : T t := fun s => (Ok (fst s), s).
Definition get_loop : T EventLoop := fun s => (Ok (snd s), s).
Definition modify_self (f : t -> t) : T unit := fun s => (Ok tt, (f (fst s), snd s)).
Definition modify_loop (f : EventLoop -> EventLoop) : T unit :=
  fun s => (Ok tt, (fst s, f (snd s))).
Definition set_tasks (l : list Task) (self : t) : t :=
  {| _tasks := l; _running := _running self; _selftask := _selftask self |}.
Definition set_selftask (o : option Task) (self : t) : t :=
  {| _tasks := _tasks self; _running := _running self; _selftask := o |}.

(** [TaskWatcher.register] *)
Definition register (task : Task) : T unit :=
  modify_self (fun self => set_tasks (_tasks self ++ [task]) self).

(** [TaskWatcher.unregister] *)
Definition unregister (task : Task) : T unit :=
  loop <- get_loop;;
  (if negb (done loop task) then modify_loop (cancel task) else ret tt);;;
  self <- get_self;;
  l <- or_raise ValueError (remove task (_tasks self));;
  modify_self (set_tasks l).

(** [TaskWatcher.new_task] *)
Definition new_task (coro : Coroutine) : T Task :=
  loop <- get_loop;;
  let '(task, loop') := create_task coro loop in
  modify_loop (fun _ => loop');;;
  register task;;;
  ret task.

(** The body of the [for] loop of [TaskWatcher._tick], over the tasks that
    are left to visit. *)
Fixpoint _tick_loop (tasks : list Task) : T unit :=
  match tasks with
  | [] => ret tt
  | task :: rest =>
      loop <- get_loop;;
      if negb (done loop task) then _tick_loop rest
      else
        exc <- Py.lift_res (task_exception loop task);;
        match exc with
        | Some (exception e) => raise e
        | _ => _tick_loop rest
        end
  end.

(** [TaskWatcher._tick] *)
Definition _tick : T unit :=
  self <- get_self;;
  _tick_loop (_tasks self).

(** [TaskWatcher.start_loop] *)
Definition start_loop : T Task :=
  self <- get_self;;
  if _running self then
    or_raise AssertionError (_selftask self)
  else
    loop <- get_loop;;
    let '(task, loop') := create_task __loop loop in
    modify_loop (fun _ => loop');;;
    modify_self (set_selftask (Some task));;;
    ret task.                                  (* return self._selftask *)

End TaskWatcher.

(** * Properties *)

(** ** Selector resolution and player lookup *)

Section Selection.
Context {Client World : Type} `{!Provider Client World}.

(** The clients a selector keeps, said with a filter: the index is in
    [player_nums], or is not when the selector is inverted. *)
Definition keeps (selector : PlayerSelector) (ic : Z * Client) : bool :=
  xorb (inverted selector) (bool_decide (ic.1 ∈ player_nums selector)).

Lemma foldl_select_inverted (selector : PlayerSelector) (l : list (Z * Client))
      (acc : list Client) :
  inverted selector = true ->
  foldl (fun result '(i, c) =>
           if bool_decide (i ∈ player_nums selector) then result else result ++ [c])
        acc l
  = acc ++ map snd (List.filter (keeps selector) l).
Proof.
  intros Hinv. revert acc. induction l as [|[i c] l IH]; intros acc; simpl.
  - by rewrite app_nil_r.
  - rewrite IH. unfold keeps at 2. simpl. rewrite Hinv.
    destruct (bool_decide _); simpl; [done | by rewrite <- app_assoc].
Qed.

Lemma foldl_select_plain (selector : PlayerSelector) (l : list (Z * Client))
      (acc : list Client) :
  inverted selector = false ->
  foldl (fun result '(i, c) =>
           if bool_decide (i ∈ player_nums selector) then result ++ [c] else result)
        acc l
  = acc ++ map snd (List.filter (keeps selector) l).
Proof.
  intros Hinv. revert acc. induction l as [|[i c] l IH]; intros acc; simpl.
  - by rewrite app_nil_r.
  - rewrite IH. unfold keeps at 2. simpl. rewrite Hinv.
    destruct (bool_decide _); simpl; [by rewrite <- app_assoc | done].
Qed.

Lemma select_players_filter (self : VM.t Client) (selector : PlayerSelector) :
  VM._select_players self selector =
    if mass selector then VM._clients self
    else map snd (List.filter (keeps selector) (enumerate (VM._clients self))).
Proof.
  unfold VM._select_players. destruct (mass selector); [done|].
  destruct (inverted selector) eqn:Hinv.
  - by rewrite foldl_select_inverted.
  - by rewrite foldl_select_plain.
Qed.

Definition vm_with_clients (clients : list Client) : VM.t Client := VM.__init__ clients.

(** C7.  Selector resolution is a total function of the client list and
    the selector (it has no failing case and may return the empty list).
    With [mass] it returns all clients in order; otherwise it returns, in
    list order, the clients whose 0-based index is in [player_nums] (not
    inverted) or is not in [player_nums] (inverted).  With three clients and
    [player_nums = {0}]: client 0 alone; inverted, clients 1 and 2; with
    [mass], all three. *)
Theorem select_players_resolution :
  (forall (self : VM.t Client) (selector : PlayerSelector),
      VM._select_players self selector =
        if mass selector then VM._clients self
        else map snd (List.filter
                        (fun ic => if inverted selector
                                   then negb (bool_decide (ic.1 ∈ player_nums selector))
                                   else bool_decide (ic.1 ∈ player_nums selector))
                        (enumerate (VM._clients self))))
  /\ (forall (selector : PlayerSelector), VM._select_players (vm_with_clients []) selector = [])
  /\ (forall (c0 c1 c2 : Client) (nums : gset Z) (inv : bool),
        VM._select_players (vm_with_clients [c0; c1; c2])
          {| mass := false; inverted := false; player_nums := {[0]} |} = [c0]
        /\ VM._select_players (vm_with_clients [c0; c1; c2])
             {| mass := false; inverted := true; player_nums := {[0]} |} = [c1; c2]
        /\ VM._select_players (vm_with_clients [c0; c1; c2])
             {| mass := true; inverted := inv; player_nums := nums |} = [c0; c1; c2]).
Proof.
  split; [|split].
  - intros self selector. rewrite select_players_filter.
    destruct (mass selector); [done|].
    unfold keeps. by destruct (inverted selector).
  - intros selector. rewrite select_players_filter. by destruct (mass selector).
  - intros c0 c1 c2 nums inv. rewrite !select_players_filter. simpl.
    unfold keeps. simpl.
    rewrite (bool_decide_eq_true_2 (0 ∈ ({[0]} : gset Z))) by set_solver.
    rewrite (bool_decide_eq_false_2 (1 ∈ ({[0]} : gset Z))) by set_solver.
    rewrite (bool_decide_eq_false_2 (2 ∈ ({[0]} : gset Z))) by set_solver.
    done.
Qed.

(** C8 (the code differs).  [player_by_num] guards the upper bound only.
    With [num = 0] the index is [-1], which Python reads from the end of the
    list: the last client is returned and no error is raised. *)
Theorem player_by_num_zero_is_last (clients : list Client) (c : Client) :
  VM.player_by_num (vm_with_clients (clients ++ [c])) 0 = Ok c.
Proof.
  unfold VM.player_by_num, vm_with_clients, getitem. simpl.
  rewrite length_app. simpl.
  replace (Z.of_nat (length clients + 1) <=? 0 - 1) with false
    by (symmetry; apply Z.leb_gt; lia).
  replace (0 <=? Z.of_nat (length clients + 1) + (0 - 1)) with true
    by (symmetry; apply Z.leb_le; lia).
  replace (Z.to_nat (Z.of_nat (length clients + 1) + (0 - 1))) with (length clients) by lia.
  by rewrite list_lookup_middle.
Qed.

(** Inside the range the lookup is the 1-based one, and above it the error
    is the machine's. *)
Lemma player_by_num_in_range (self : VM.t Client) (num : Z) :
  1 <= num <= Z.of_nat (length (VM._clients self)) ->
  exists c, VM._clients self !! Z.to_nat (num - 1) = Some c
            /\ VM.player_by_num self num = Ok c.
Proof.
  intros Hr. unfold VM.player_by_num, getitem.
  destruct (lookup_lt_is_Some_2 (VM._clients self) (Z.to_nat (num - 1))) as [c Hc]; [lia|].
  exists c. split; [done|].
  replace (Z.of_nat (length (VM._clients self)) <=? num - 1) with false
    by (symmetry; apply Z.leb_gt; lia).
  replace (0 <=? num - 1) with true by (symmetry; apply Z.leb_le; lia).
  by rewrite Hc.
Qed.

Lemma player_by_num_above (self : VM.t Client) (num : Z) :
  Z.of_nat (length (VM._clients self)) < num ->
  exists msg, VM.player_by_num self num = Raise (VMError msg).
Proof.
  intros Hr. unfold VM.player_by_num.
  replace (Z.of_nat (length (VM._clients self)) <=? num - 1) with true
    by (symmetry; apply Z.leb_le; lia).
  eauto.
Qed.

Lemma player_by_num_below (self : VM.t Client) (num : Z) :
  num <= 0 ->
  (forall msg, VM.player_by_num self num <> Raise (VMError msg)).
Proof.
  intros Hr msg. unfold VM.player_by_num.
  replace (Z.of_nat (length (VM._clients self)) <=? num - 1) with false
    by (symmetry; apply Z.leb_gt; lia).
  by destruct (getitem _ _).
Qed.

End Selection.

(** ** The compiler *)

Section Compilation.

(** Unfolds the operations of the state monad. *)
Ltac unfold_monad :=
  unfold Py.bind, Py.ret, Py.raise, Py.get, Py.put, Py.modify, Py.assert,
    Py.or_raise, Py.lift_res in *.

(** The [deimos_call] instruction that [emit_deimos_call] builds for a
    command. *)
Definition deimos_call_of (com : Command) : Instruction :=
  mkInstruction InstructionKind.deimos_call
    (DList [Command.player_selector_obj com;
            DStr (CommandKind.name (Command.kind com));
            DList (Command.data com)]).

Lemma emit_deimos_call_appends (com : Command) (p : list Instruction) :
  Compiler.emit_deimos_call com p = (Ok tt, p ++ [deimos_call_of com]).
Proof. reflexivity. Qed.

Lemma getitem_nat {A} (l : list A) (i : nat) : getitem l (Z.of_nat i) = l !! i.
Proof.
  unfold getitem. replace (0 <=? Z.of_nat i) with true by (symmetry; apply Z.leb_le; lia).
  by rewrite Nat2Z.id.
Qed.

Lemma setitem_nat {A} (l : list A) (i : nat) (x : A) :
  (i < length l)%nat -> setitem l (Z.of_nat i) x = Some (<[i := x]> l).
Proof.
  intros Hi. unfold setitem.
  replace (0 <=? Z.of_nat i) with true by (symmetry; apply Z.leb_le; lia).
  replace (Z.of_nat i <? Z.of_nat (length l)) with true by (symmetry; apply Z.ltb_lt; lia).
  by rewrite Nat2Z.id.
Qed.

(** C6.  Compiling a [waitfor] command whose flag ([data[1]]) is [True]
    appends exactly two [deimos_call] instructions: the first carries a copy
    of the command's data with the flag set to [False], the second the
    command's own data, flag [True].  Compiling one whose flag is [False]
    appends exactly one [deimos_call] instruction, with the flag [False]. *)
Theorem compile_waitfor_split (com : Command) (p : list Instruction) (flag : bool) :
  Command.kind com = CommandKind.waitfor ->
  getitem (Command.data com) 1 = Some (DBool flag) ->
  let non_inverted_com :=
    Command.with_data com (<[1%nat := DBool false]> (Command.data com)) in
  Compiler.compile_command com p =
    (Ok tt, p ++ if flag then [deimos_call_of non_inverted_com; deimos_call_of com]
                 else [deimos_call_of non_inverted_com])
  /\ getitem (Command.data non_inverted_com) 1 = Some (DBool false)
  /\ (flag = false -> non_inverted_com = com).
Proof.
  intros Hkind Hflag non_inverted_com.
  change 1 with (Z.of_nat 1) in Hflag. rewrite getitem_nat in Hflag.
  assert (Hlen : (1 < length (Command.data com))%nat) by (by eapply lookup_lt_Some).
  split; [|split].
  - unfold Compiler.compile_command, Compiler.data_at. rewrite Hkind.
    unfold_monad. change 1 with (Z.of_nat 1).
    rewrite (setitem_nat _ _ _ Hlen), getitem_nat, Hflag. unfold Py.ret.
    rewrite emit_deimos_call_appends.
    destruct flag; simpl.
    + rewrite emit_deimos_call_appends. by rewrite <- app_assoc.
    + done.
  - change 1 with (Z.of_nat 1). rewrite getitem_nat. simpl.
    by apply list_lookup_insert_eq.
  - intros ->. subst non_inverted_com. unfold Command.with_data.
    rewrite list_insert_id by done. by destruct com.
Qed.

Definition waitfor_dialog (flag : bool) : Command :=
  mkCommand CommandKind.waitfor [DWaitforKind WaitforKind.dialog; DBool flag]
            (Some {| mass := true; inverted := false; player_nums := ∅ |}).

Lemma compile_waitfor_split_witness :
  Compiler.compile_command (waitfor_dialog true) [] =
    (Ok tt, [deimos_call_of (waitfor_dialog false); deimos_call_of (waitfor_dialog true)]).
Proof.
  exact (proj1 (compile_waitfor_split (waitfor_dialog true) [] true eq_refl eq_refl)).
Defined.

(** The program of an [until] statement starts with its [enter_until]
    instruction. *)
Lemma compile_until_head (expr : Expression) (body : list Stmt) (prog : list Instruction) :
  Compiler.compile [UntilStmt expr body] = Ok prog ->
  exists (n : Z) (rest : list Instruction),
    prog = mkInstruction InstructionKind.enter_until (DList [DExpr expr; DInt n]) :: rest.
Proof.
  unfold Compiler.compile. cbn [Compiler.compile_stmt].
  unfold Compiler.sub_compile at 1. unfold Py.bind at 1. unfold Py.bind at 1.
  match goal with |- context [Compiler.sub_compile ?b []] =>
    destruct (Compiler.sub_compile b []) as [[instrs|e|] s0] eqn:Hsub end;
    simpl; try discriminate.
  unfold Compiler.sub_compile in Hsub.
  match type of Hsub with context [Py.bind ?b ?k []] =>
    destruct (Py.bind b k []) as [[?|?|] ?]; simplify_eq end.
  intros [= <-]. eauto.
Qed.

End Compilation.

(** ** The machine: one step *)

Section Stepping.
Context {Client World : Type} `{!Provider Client World}.

Implicit Types (self : VM.t Client) (w : World) (i x : Instruction).

Ltac unfold_vm :=
  unfold VM.advance, VM.modify_self, VM.get_self, VM.lift, Py.bind, Py.ret,
    Py.raise, Py.get, Py.put, Py.modify, Py.assert, Py.or_raise, Py.lift_res in *.

(** The check that ends every step: the machine stops when the pointer has
    reached the end of the program. *)
Definition stop_at_end self : VM.t Client :=
  if Z.of_nat (length (VM.program self)) <=? VM._ip self then VM.stop self else self.

(** A step of a running machine executes the instruction under the
    pointer and then makes the end-of-program check. *)
Lemma step_running (fuel : nat) self w i :
  VM.running self = true ->
  getitem (VM.program self) (VM._ip self) = Some i ->
  VM.step fuel (self, w) =
    match VM.execute fuel self i (self, w) with
    | (Ok _, (self', w')) => (Ok tt, (stop_at_end self', w'))
    | (Raise e, s) => (Raise e, s)
    | (Timeout, s) => (Timeout, s)
    end.
Proof.
  intros Hrun Hget. unfold VM.step, VM.get_self, Py.bind at 1. cbn [fst snd].
  rewrite Hrun. cbn [negb]. rewrite Hget.
  unfold Py.or_raise, Py.bind, Py.ret.
  destruct (VM.execute fuel self i (self, w)) as [[[]|e|] [self' w']]; try done.
  unfold stop_at_end. cbn [fst snd]. by destruct (_ <=? _).
Qed.

(** A machine that is not running does nothing. *)
Lemma step_not_running (fuel : nat) self w :
  VM.running self = false -> VM.step fuel (self, w) = (Ok tt, (self, w)).
Proof.
  intros Hrun. unfold VM.step, VM.get_self, Py.bind. cbn [fst snd]. by rewrite Hrun.
Qed.

(** [VM.step] has no case for [enter_until]: a running machine whose
    pointer is on such an instruction raises the error of an unimplemented
    instruction, and neither the machine nor the world changes; no
    condition is evaluated and no body is entered. *)
Lemma step_enter_until_unimplemented (fuel : nat) self w i :
  VM.running self = true ->
  getitem (VM.program self) (VM._ip self) = Some i ->
  kind i = InstructionKind.enter_until ->
  VM.step fuel (self, w) = (Raise (VMError "Unimplemented instruction"), (self, w)).
Proof.
  intros Hrun Hget Hkind. rewrite (step_running _ _ _ i) by done.
  unfold VM.execute. by rewrite Hkind.
Qed.

(** The other kinds the compiler emits and the machine does not run. *)
Lemma step_unimplemented (fuel : nat) self w i :
  VM.running self = true ->
  getitem (VM.program self) (VM._ip self) = Some i ->
  kind i ∈ [InstructionKind.enter_until; InstructionKind.load_playstyle;
            InstructionKind.set_var; InstructionKind.dec_var; InstructionKind.nop] ->
  VM.step fuel (self, w) = (Raise (VMError "Unimplemented instruction"), (self, w)).
Proof.
  intros Hrun Hget Hkind. rewrite (step_running _ _ _ i) by done.
  unfold VM.execute.
  repeat (apply elem_of_cons in Hkind as [-> | Hkind]; [done|]).
  by apply elem_of_nil in Hkind.
Qed.

(** *** Call and return *)

(** [x] is a [label] instruction for the identifier [label]. *)
Definition is_label_for (label : Data) x : bool :=
  bool_decide (kind x = InstructionKind.label) && Value.eq (data x) label.

Lemma find_label_found (program : list Instruction) (label : Data) (n j : nat) x :
  (j < n)%nat ->
  program !! j = Some x ->
  is_label_for label x = true ->
  (forall k y, (j < k < n)%nat -> program !! k = Some y -> is_label_for label y = false) ->
  (n <= length program)%nat ->
  VM.find_label program label n = Ok (Z.of_nat j).
Proof.
  intros Hj Hx Hlab Hnear Hn. induction n as [|n IH]; [lia|].
  simpl. rewrite getitem_nat.
  destruct (decide (j = n)) as [->|Hne].
  - rewrite Hx. unfold is_label_for in Hlab.
    apply andb_true_iff in Hlab as [-> ->]. done.
  - destruct (lookup_lt_is_Some_2 program n) as [y Hy]; [lia|].
    rewrite Hy. pose proof (Hnear n y ltac:(lia) Hy) as Hno.
    unfold is_label_for in Hno. apply andb_false_iff in Hno.
    replace (negb (bool_decide (kind y = InstructionKind.label))
             || negb (Value.eq (data y) label)) with true
      by (symmetry; apply orb_true_iff; destruct Hno as [-> | ->]; auto).
    apply IH; [lia| |lia]. intros k z Hk. apply Hnear. lia.
Qed.

(** *** What a step leaves alone *)

(** [frames f m]: running [m] does not change the part [f] of the machine,
    whatever the outcome. *)
Definition frames {X A} (f : VM.t Client -> X) (m : M (VM.t Client * World) A) : Prop :=
  forall s r s', m s = (r, s') -> f s'.1 = f s.1.

Section Frames.
Context {X : Type} (f : VM.t Client -> X).

Lemma frames_ret {A} (a : A) : frames f (Py.ret a).
Proof. by intros s r s' [= <- <-]. Qed.

Lemma frames_raise {A} (e : Exn) : frames f (@Py.raise _ A e).
Proof. by intros s r s' [= <- <-]. Qed.

Lemma frames_bind {A B} (m : M _ A) (k : A -> M _ B) :
  frames f m -> (forall a, frames f (k a)) -> frames f (Py.bind m k).
Proof.
  intros Hm Hk s r s'. unfold Py.bind.
  destruct (m s) as [[a|e|] s1] eqn:E; intros H.
  - rewrite (Hk _ _ _ _ H). eapply Hm, E.
  - injection H as <- <-. eapply Hm, E.
  - injection H as <- <-. eapply Hm, E.
Qed.

Lemma frames_lift {A} (m : M World A) : frames f (VM.lift m).
Proof.
  intros s r s'. unfold VM.lift. destruct (m s.2) as [r' w']. by intros [= <- <-].
Qed.

Lemma frames_lift_res {A} (r : Res A) : frames f (Py.lift_res r).
Proof. by intros s r' s' [= <- <-]. Qed.

Lemma frames_or_raise {A} (e : Exn) (o : option A) : frames f (Py.or_raise e o).
Proof. destruct o; [apply frames_ret | apply frames_raise]. Qed.

Lemma frames_assert (b : bool) : frames f (Py.assert b).
Proof. destruct b; [apply frames_ret | apply frames_raise]. Qed.

Lemma frames_item (d : Data) (i : Z) : frames f (VM.item d i).
Proof. destruct d; try apply frames_raise. apply frames_or_raise. Qed.

Lemma frames_as_index (d : Data) : frames f (VM.as_index d).
Proof. apply frames_or_raise. Qed.

Lemma frames_as_selector (d : Data) : frames f (VM.as_selector d).
Proof. destruct d; try apply frames_raise. apply frames_ret. Qed.

Lemma frames_get_self : frames f VM.get_self.
Proof. by intros s r s' [= <- <-]. Qed.

Lemma frames_modify_self (g : VM.t Client -> VM.t Client) :
  (forall self, f (g self) = f self) -> frames f (VM.modify_self g).
Proof. intros Hg s r s' [= <- <-]. apply Hg. Qed.

(** The parts that moving the pointer, stopping and killing leave alone:
    the program, the clients and the call stack are such parts. *)
Hypothesis f_ip : forall (n : Z) self, f (VM.set_ip n self) = f self.
Hypothesis f_running : forall b self, f (VM.set_running b self) = f self.
Hypothesis f_killed : forall b self, f (VM.set_killed b self) = f self.

Lemma frames_advance (n : Z) : frames f (VM.advance n).
Proof. apply frames_modify_self. intros self. apply f_ip. Qed.

Lemma f_stop_at_end self : f (stop_at_end self) = f self.
Proof. unfold stop_at_end. destruct (_ <=? _); [apply f_running | done]. Qed.

Ltac frame :=
  repeat first
    [ apply frames_bind; [|intros ?]
    | apply frames_ret | apply frames_raise | apply frames_lift
    | apply frames_lift_res | apply frames_or_raise | apply frames_assert
    | apply frames_item | apply frames_as_index | apply frames_as_selector
    | apply frames_get_self | apply frames_advance
    | match goal with |- frames _ (match ?x with _ => _ end) => destruct x end
    | match goal with |- frames _ (if ?x then _ else _) => destruct x end ].

(** Every instruction but [call] and [ret] leaves such a part alone. *)
Lemma frames_execute (fuel : nat) self i :
  kind i <> InstructionKind.call ->
  kind i <> InstructionKind.ret ->
  frames f (VM.execute fuel self i).
Proof.
  intros Hcall Hret. unfold VM.execute.
  destruct (kind i); try done; frame.
  apply frames_modify_self. intros self0. unfold VM.kill, VM.stop.
  by rewrite f_killed, f_running.
Qed.

(** So does a whole step on such an instruction. *)
Lemma frames_step (fuel : nat) self w i r s' :
  VM.running self = true ->
  getitem (VM.program self) (VM._ip self) = Some i ->
  kind i <> InstructionKind.call ->
  kind i <> InstructionKind.ret ->
  VM.step fuel (self, w) = (r, s') ->
  f s'.1 = f self.
Proof.
  intros Hrun Hget Hcall Hret. rewrite (step_running _ _ _ i) by done.
  destruct (VM.execute fuel self i (self, w)) as [[[]|e|] [self' w']] eqn:E;
    intros [= <- <-]; cbn [fst];
    rewrite ?f_stop_at_end; apply (frames_execute fuel self i Hcall Hret _ _ _ E).
Qed.

End Frames.

(** *** The call stack *)

Lemma find_label_missing (program : list Instruction) (label : Data) (n : nat) :
  (n <= length program)%nat ->
  (forall k y, (k < n)%nat -> program !! k = Some y -> is_label_for label y = false) ->
  VM.find_label program label n = Raise (VMError "Unable to find label").
Proof.
  intros Hn Hno. induction n as [|n IH]; [done|].
  simpl. rewrite getitem_nat.
  destruct (lookup_lt_is_Some_2 program n) as [y Hy]; [lia|].
  rewrite Hy. pose proof (Hno n y ltac:(lia) Hy) as Hy'.
  unfold is_label_for in Hy'. apply andb_false_iff in Hy'.
  replace (negb (bool_decide (kind y = InstructionKind.label))
           || negb (Value.eq (data y) label)) with true
    by (symmetry; apply orb_true_iff; destruct Hy' as [-> | ->]; auto).
  apply IH; [lia|]. intros k z Hk. apply Hno. lia.
Qed.

Lemma getitem_Some_lt {A} (l : list A) (n : Z) (a : A) :
  getitem l n = Some a -> n < Z.of_nat (length l).
Proof.
  unfold getitem. destruct (0 <=? n) eqn:E.
  - intros Hl%lookup_lt_Some. apply Z.leb_le in E. lia.
  - apply Z.leb_gt in E. lia.
Qed.

Lemma pop_snoc {A} (l : list A) (a : A) : pop (l ++ [a]) = Some (a, l).
Proof. unfold pop. rewrite reverse_snoc. by rewrite reverse_involutive. Qed.

Lemma pop_nil {A} : pop (@nil A) = None.
Proof. reflexivity. Qed.

Lemma pop_Some {A} (l r : list A) (a : A) : pop l = Some (a, r) -> l = r ++ [a].
Proof.
  unfold pop. destruct (reverse l) as [|x q] eqn:E; [done|]. intros [= -> <-].
  rewrite <- (reverse_involutive l), E. by rewrite reverse_cons.
Qed.

(** The [call] case: the return address is pushed first, then the scan
    decides. *)
Lemma execute_call (fuel : nat) self w i :
  kind i = InstructionKind.call ->
  VM.execute fuel self i (self, w) =
    let pushed := VM.set_callstack (VM._callstack self ++ [VM._ip self + 1]) self in
    match VM.find_label (VM.program self) (data i) (Z.to_nat (VM._ip self)) with
    | Ok j => (Ok tt, (VM.set_ip j pushed, w))
    | Raise e => (Raise e, (pushed, w))
    | Timeout => (Timeout, (pushed, w))
    end.
Proof.
  intros Hkind. unfold VM.execute. rewrite Hkind.
  unfold VM.modify_self, Py.lift_res, Py.bind. cbn [fst snd].
  by destruct (VM.find_label _ _ _).
Qed.

(** The [ret] case. *)
Lemma execute_ret (fuel : nat) self w i :
  kind i = InstructionKind.ret ->
  VM.execute fuel self i (self, w) =
    match pop (VM._callstack self) with
    | Some (top, rest) => (Ok tt, (VM.set_ip top (VM.set_callstack rest self), w))
    | None => (Raise IndexError, (self, w))
    end.
Proof.
  intros Hkind. unfold VM.execute. rewrite Hkind.
  unfold VM.modify_self, VM.get_self, Py.or_raise, Py.bind. cbn [fst snd].
  by destruct (pop _) as [[top rest]|].
Qed.

(** A part of the machine that moving the pointer, stopping, killing,
    pushing and popping all leave alone, as the program and the clients are,
    is not changed by any step. *)
Section FramesAll.
Context {X : Type} (f : VM.t Client -> X).
Hypothesis f_ip : forall (n : Z) self, f (VM.set_ip n self) = f self.
Hypothesis f_running : forall b self, f (VM.set_running b self) = f self.
Hypothesis f_killed : forall b self, f (VM.set_killed b self) = f self.

Hypothesis f_callstack : forall (cs : list Z) self, f (VM.set_callstack cs self) = f self.

Lemma frames_any_step (fuel : nat) s r s' :
  VM.step fuel s = (r, s') -> f s'.1 = f s.1.
Proof.
  destruct s as [self w]. cbn [fst].
  destruct (VM.running self) eqn:Hrun.
  2:{ rewrite step_not_running by done. by intros [= <- <-]. }
  destruct (getitem (VM.program self) (VM._ip self)) as [i|] eqn:Hget.
  2:{ unfold VM.step, VM.get_self, Py.bind, Py.or_raise. cbn [fst snd].
      rewrite Hrun, Hget. by intros [= <- <-]. }
  destruct (decide (kind i = InstructionKind.call)) as [Hcall|Hncall].
  { rewrite (step_running _ _ _ i Hrun Hget), (execute_call _ _ _ _ Hcall). cbn zeta.
    destruct (VM.find_label _ _ _); intros [= <- <-]; cbn [fst];
      rewrite ?(f_stop_at_end f) by done; rewrite ?f_ip, ?f_callstack; done. }
  destruct (decide (kind i = InstructionKind.ret)) as [Hret|Hnret].
  { rewrite (step_running _ _ _ i Hrun Hget), (execute_ret _ _ _ _ Hret).
    destruct (pop _) as [[top rest]|]; intros [= <- <-]; cbn [fst];
      rewrite ?(f_stop_at_end f) by done; rewrite ?f_ip, ?f_callstack; done. }
  intros Hstep. by apply (frames_step f f_ip f_running f_killed fuel self w i r s').
Qed.
End FramesAll.

Lemma step_program (fuel : nat) s r s' :
  VM.step fuel s = (r, s') -> VM.program s'.1 = VM.program s.1.
Proof. by apply (frames_any_step VM.program). Qed.

(** What a run does to the call stack, as a sequence of events: a call from
    a site, or a return to a target. *)
Inductive Event : Type :=
| Called (site : Z)
| Returned (target : Z).

Definition event_of self (self' : VM.t Client) : list Event :=
  match getitem (VM.program self) (VM._ip self) with
  | Some i =>
      match kind i with
      | InstructionKind.call => [Called (VM._ip self)]
      | InstructionKind.ret => [Returned (VM._ip self')]
      | _ => []
      end
  | None => []
  end.

(** The events of the first [n] steps of a machine, as long as it runs and
    no step fails. *)
Fixpoint events (polls n : nat) (s : VM.t Client * World) : list Event :=
  match n with
  | O => []
  | S n' =>
      if VM.running s.1 then
        match VM.step polls s with
        | (Ok _, s') => event_of s.1 s'.1 ++ events polls n' s'
        | _ => []
        end
      else []
  end.

(** Last in, first out: replaying the events on a stack of pending return
    addresses (the top first), every return goes to the instruction after
    the latest call that has not returned yet. *)
Fixpoint well_nested (pending : list Z) (evs : list Event) : bool :=
  match evs with
  | [] => true
  | Called site :: rest => well_nested ((site + 1) :: pending) rest
  | Returned target :: rest =>
      match pending with
      | top :: pending' => (target =? top) && well_nested pending' rest
      | [] => false
      end
  end.

Lemma well_nested_calls (ps : list Z) (pending : list Z) (evs : list Event) :
  well_nested pending (map Called ps ++ evs)
  = well_nested (reverse (map Z.succ ps) ++ pending) evs.
Proof.
  revert pending. induction ps as [|p ps IH]; intros pending; simpl; [done|].
  rewrite IH, reverse_cons, <- app_assoc. done.
Qed.

Lemma well_nested_returns (qs tops pending : list Z) :
  length qs = length tops ->
  well_nested (tops ++ pending) (map Returned qs) = true -> qs = tops.
Proof.
  revert tops. induction qs as [|q qs IH]; intros [|t tops] Hlen; simpl in *; try done.
  intros [Hq Hrest]%andb_true_iff. apply Z.eqb_eq in Hq as ->.
  f_equal. apply IH; [lia | done].
Qed.

Lemma events_well_nested (polls n : nat) self w :
  well_nested (reverse (VM._callstack self)) (events polls n (self, w)) = true.
Proof.
  revert self w. induction n as [|n IH]; intros self w; simpl; [done|].
  destruct (VM.running self) eqn:Hrun; [|done].
  destruct (VM.step polls (self, w)) as [[[]|e|] [self' w']] eqn:Hstep; try done.
  cbn [fst]. unfold event_of.
  destruct (getitem (VM.program self) (VM._ip self)) as [i|] eqn:Hget.
  2:{ unfold VM.step, VM.get_self, Py.bind, Py.or_raise in Hstep. cbn [fst snd] in Hstep.
      rewrite Hrun, Hget in Hstep. done. }
  rewrite (step_running _ _ _ i Hrun Hget) in Hstep.
  destruct (decide (kind i = InstructionKind.call)) as [Hcall|Hncall].
  - rewrite Hcall. rewrite (execute_call _ _ _ _ Hcall) in Hstep. cbn zeta in Hstep.
    destruct (VM.find_label _ _ _) as [j|e|]; try done.
    injection Hstep as <- <-. simpl.
    replace (VM._ip self + 1 :: reverse (VM._callstack self))
      with (reverse (VM._callstack (stop_at_end (VM.set_ip j
              (VM.set_callstack (VM._callstack self ++ [VM._ip self + 1]) self))))).
    + apply IH.
    + rewrite f_stop_at_end by done. simpl. by rewrite reverse_snoc.
  - destruct (decide (kind i = InstructionKind.ret)) as [Hret|Hnret].
    + rewrite Hret. rewrite (execute_ret _ _ _ _ Hret) in Hstep.
      destruct (pop (VM._callstack self)) as [[top rest]|] eqn:Hpop; [|done].
      injection Hstep as <- <-. apply pop_Some in Hpop. rewrite Hpop, reverse_snoc.
      simpl. replace (VM._ip (stop_at_end _)) with top
        by (unfold stop_at_end; by destruct (_ <=? _)).
      rewrite Z.eqb_refl. simpl.
      replace rest with (VM._callstack (stop_at_end (VM.set_ip top (VM.set_callstack rest self))))
        at 1 by (by rewrite f_stop_at_end).
      apply IH.
    + replace (match kind i with
               | InstructionKind.call => [Called (VM._ip self)]
               | InstructionKind.ret => [Returned (VM._ip self')]
               | _ => []
               end) with (@nil Event) by (by destruct (kind i)).
      simpl.
      assert (VM._callstack self' = VM._callstack self) as <-.
      { destruct (VM.execute polls self i (self, w)) as [[[]|e|] [self1 w1]] eqn:E;
          try done. injection Hstep as <- <-.
        rewrite (f_stop_at_end VM._callstack) by done.
        apply (frames_execute VM._callstack ltac:(done) ltac:(done) ltac:(done)
                 polls self i Hncall Hnret _ _ _ E). }
      apply IH.
Qed.

(** C3.  A [call] pushes [pointer + 1] on the call stack and scans
    strictly backward from the call site: the pointer becomes the index of
    the nearest [label] instruction above the call whose identifier
    matches, and the step fails with the machine's error when there is
    none.  A [ret] pops the top return address into the pointer and fails
    on an empty stack.  So in every run the returns are well nested with
    the calls, and when [N] calls from the sites [ps] are followed by [N]
    returns, the returns go, in order, to the instructions after the calls
    in reverse order. *)
Theorem call_ret_lifo :
  (forall (fuel : nat) self w i (j : nat) x,
      VM.running self = true ->
      getitem (VM.program self) (VM._ip self) = Some i ->
      kind i = InstructionKind.call ->
      Z.of_nat j < VM._ip self ->
      VM.program self !! j = Some x ->
      is_label_for (data i) x = true ->
      (forall (k : nat) y, (j < k)%nat -> Z.of_nat k < VM._ip self ->
                           VM.program self !! k = Some y -> is_label_for (data i) y = false) ->
      VM.step fuel (self, w) =
        (Ok tt, (VM.set_ip (Z.of_nat j)
                   (VM.set_callstack (VM._callstack self ++ [VM._ip self + 1]) self), w)))
  /\ (forall (fuel : nat) self w i,
        VM.running self = true ->
        getitem (VM.program self) (VM._ip self) = Some i ->
        kind i = InstructionKind.call ->
        (forall (k : nat) y, Z.of_nat k < VM._ip self ->
                             VM.program self !! k = Some y -> is_label_for (data i) y = false) ->
        VM.step fuel (self, w) =
          (Raise (VMError "Unable to find label"),
           (VM.set_callstack (VM._callstack self ++ [VM._ip self + 1]) self, w)))
  /\ (forall (fuel : nat) self w i (rest : list Z) (top : Z),
        VM.running self = true ->
        getitem (VM.program self) (VM._ip self) = Some i ->
        kind i = InstructionKind.ret ->
        VM._callstack self = rest ++ [top] ->
        VM.step fuel (self, w) =
          (Ok tt, (stop_at_end (VM.set_ip top (VM.set_callstack rest self)), w)))
  /\ (forall (fuel : nat) self w i,
        VM.running self = true ->
        getitem (VM.program self) (VM._ip self) = Some i ->
        kind i = InstructionKind.ret ->
        VM._callstack self = [] ->
        VM.step fuel (self, w) = (Raise IndexError, (self, w)))
  /\ (forall (polls n : nat) self w,
        well_nested (reverse (VM._callstack self)) (events polls n (self, w)) = true)
  /\ (forall (polls n : nat) self w (ps qs : list Z),
        events polls n (self, w) = map Called ps ++ map Returned qs ->
        length ps = length qs ->
        qs = reverse (map (fun site => site + 1) ps)).
Proof.
  repeat split.
  - intros fuel self w i j x Hrun Hget Hkind Hj Hx Hlab Hnear.
    rewrite (step_running _ _ _ i Hrun Hget), (execute_call _ _ _ _ Hkind). cbn zeta.
    pose proof (getitem_Some_lt _ _ _ Hget) as Hlt.
    rewrite (find_label_found _ _ _ j x); try done; try lia.
    + f_equal. f_equal. unfold stop_at_end. cbn [VM.program VM._ip VM.set_ip VM.set_callstack].
      apply lookup_lt_Some in Hx.
      by replace (Z.of_nat (length (VM.program self)) <=? Z.of_nat j) with false
        by (symmetry; apply Z.leb_gt; lia).
    + intros k y Hk. apply Hnear; lia.
  - intros fuel self w i Hrun Hget Hkind Hno.
    rewrite (step_running _ _ _ i Hrun Hget), (execute_call _ _ _ _ Hkind). cbn zeta.
    pose proof (getitem_Some_lt _ _ _ Hget) as Hlt.
    rewrite find_label_missing; [done | lia |].
    intros k y Hk. apply Hno. lia.
  - intros fuel self w i rest top Hrun Hget Hkind Hcs.
    rewrite (step_running _ _ _ i Hrun Hget), (execute_ret _ _ _ _ Hkind).
    by rewrite Hcs, pop_snoc.
  - intros fuel self w i Hrun Hget Hkind Hcs.
    rewrite (step_running _ _ _ i Hrun Hget), (execute_ret _ _ _ _ Hkind).
    by rewrite Hcs.
  - intros polls n self w. apply events_well_nested.
  - intros polls n self w ps qs Hev Hlen.
    pose proof (events_well_nested polls n self w) as Hwn.
    rewrite Hev, well_nested_calls in Hwn.
    replace (fun site : Z => site + 1) with Z.succ by done.
    apply (well_nested_returns _ _ (reverse (VM._callstack self)));
      [by rewrite length_reverse, length_map | done].
Qed.

(** *** Runs *)

(** The first [n] steps of a running machine: the state they reach and the
    pointers of the instructions they executed, in order; [None] when the
    machine stops or a step fails before that. *)
Fixpoint steps (polls n : nat) (s : VM.t Client * World)
  : option (VM.t Client * World * list Z) :=
  match n with
  | O => Some (s, [])
  | S n' =>
      if VM.running s.1 then
        match VM.step polls s with
        | (Ok _, s1) =>
            match steps polls n' s1 with
            | Some (s', ips) => Some (s', VM._ip s.1 :: ips)
            | None => None
            end
        | _ => None
        end
      else None
  end.

Lemma steps_snoc (polls n : nat) s s1 ips s' :
  steps polls n s = Some (s1, ips) ->
  VM.running s1.1 = true ->
  VM.step polls s1 = (Ok tt, s') ->
  steps polls (n + 1) s = Some (s', ips ++ [VM._ip s1.1]).
Proof.
  revert s ips. induction n as [|n IH]; intros s ips; simpl.
  - intros [= <- <-] Hrun Hstep. by rewrite Hrun, Hstep.
  - destruct (VM.running s.1); [|done].
    destruct (VM.step polls s) as [[[]|e|] s2]; try done.
    destruct (steps polls n s2) as [[s3 ips3]|] eqn:E; [|done].
    intros [= <- <-] Hrun Hstep. by rewrite (IH _ _ E Hrun Hstep).
Qed.

Lemma steps_program (polls n : nat) s s' ips :
  steps polls n s = Some (s', ips) -> VM.program s'.1 = VM.program s.1.
Proof.
  revert s ips. induction n as [|n IH]; intros s ips; simpl.
  - by intros [= <- <-].
  - destruct (VM.running s.1); [|done].
    destruct (VM.step polls s) as [[[]|e|] s2] eqn:Hstep; try done.
    destruct (steps polls n s2) as [[s3 ips3]|] eqn:E; [|done].
    intros [= <- <-]. rewrite (IH _ _ E). by apply step_program in Hstep.
Qed.

(** The steps of a run are those of [VM.run]'s loop. *)
Lemma steps_run_loop (polls n k : nat) s s' ips :
  steps polls n s = Some (s', ips) ->
  VM.run_loop polls (n + k) s = VM.run_loop polls k s'.
Proof.
  revert s ips. induction n as [|n IH]; intros s ips; simpl.
  - by intros [= <- <-].
  - unfold Py.bind at 1. unfold VM.get_self at 1. destruct s as [self w]. cbn [fst].
    destruct (VM.running self); [|done].
    unfold Py.bind at 1.
    destruct (VM.step polls (self, w)) as [[[]|e|] s2] eqn:Hstep; try done.
    destruct (steps polls n s2) as [[s3 ips3]|] eqn:E; [|done].
    intros [= <- <-]. by apply (IH _ _ E).
Qed.

(** *** Jumps *)

Lemma execute_jump (fuel : nat) self w i (n : Z) :
  kind i = InstructionKind.jump ->
  data i = DInt n ->
  VM.execute fuel self i (self, w) = (Ok tt, (VM.set_ip (VM._ip self + n) self, w)).
Proof. intros Hkind Hdata. unfold VM.execute. by rewrite Hkind, Hdata. Qed.

Lemma execute_jump_if (fuel : nat) self w i (e : Expression) (n : Z) (c : Data) w1 :
  kind i = InstructionKind.jump_if ->
  data i = DList [DExpr e; DInt n] ->
  VM.eval self e None w = (Ok c, w1) ->
  VM.execute fuel self i (self, w) =
    (Ok tt, (VM.set_ip (VM._ip self + if Value.truthy c then n else 1) self, w1)).
Proof.
  intros Hkind Hdata Heval. unfold VM.execute. rewrite Hkind, Hdata.
  unfold Py.bind, Py.assert, Py.ret, VM.item, Py.or_raise, VM.lift, VM.eval_data.
  simpl. rewrite Heval. by destruct (Value.truthy c).
Qed.

Lemma getitem_middle {A} (l1 l2 : list A) (a : A) (n : Z) :
  n = Z.of_nat (length l1) -> getitem (l1 ++ a :: l2) n = Some a.
Proof. intros ->. rewrite getitem_nat. apply list_lookup_middle. done. Qed.

(** *** The lowering of [if] *)

(** The instructions [compile_stmt] emits for an [if] whose branches
    compile to [instrs_true] and [instrs_false]. *)
Definition if_block (expr : Expression) (instrs_true instrs_false : list Instruction)
  : list Instruction :=
  [mkInstruction InstructionKind.jump_if
     (DList [DExpr expr; DInt (Compiler.len instrs_false + 2)])]
  ++ instrs_false
  ++ [mkInstruction InstructionKind.jump (DInt (Compiler.len instrs_true + 1))]
  ++ instrs_true
  ++ [mkInstruction InstructionKind.nop DNone].


Lemma compile_if_eq (expr : Expression) (branch_true branch_false : list Stmt) :
  Compiler.compile_stmt (IfStmt expr branch_true branch_false) =
    (instrs_false <- Compiler.sub_compile (Compiler.compile_stmt (StmtList branch_false));;
     instrs_true <- Compiler.sub_compile (Compiler.compile_stmt (StmtList branch_true));;
     Compiler.emit InstructionKind.jump_if
       (DList [DExpr expr; DInt (Compiler.len instrs_false + 2)]);;;
     Compiler.extend instrs_false;;;
     Compiler.emit InstructionKind.jump (DInt (Compiler.len instrs_true + 1));;;
     Compiler.extend instrs_true;;;
     Compiler.emit InstructionKind.nop DNone).
Proof. reflexivity. Qed.











(** *** The lowering of [until] *)

(** C1 (the code differs).  The compiler opens every [until] with an
    [enter_until] instruction, and [VM.step] has no case for that kind.  A
    machine loaded with the program of an [until] statement and run fails
    on its first step with the error of an unimplemented instruction: the
    pointer is still on the [enter_until], the world is untouched, and no
    instruction of the body has been executed. *)
Theorem until_fails_on_entry
    (polls fuel : nat) (expr : Expression) (body : list Stmt)
    (prog : list Instruction) (clients : list Client) w :
  Compiler.compile [UntilStmt expr body] = Ok prog ->
  let loaded := VM.set_program prog (VM.__init__ clients) in
  VM.run polls (S fuel) (loaded, w) =
    (Raise (VMError "Unimplemented instruction"), (VM.set_running true loaded, w))
  /\ steps polls 1 (VM.set_running true loaded, w) = None.
Proof.
  intros Hc loaded.
  destruct (compile_until_head _ _ _ Hc) as (n & rest & ->).
  assert (Hstep : VM.step polls (VM.set_running true loaded, w) =
                  (Raise (VMError "Unimplemented instruction"), (VM.set_running true loaded, w))).
  { by apply (step_enter_until_unimplemented _ _ _
                (mkInstruction InstructionKind.enter_until (DList [DExpr expr; DInt n]))). }
  split.
  - unfold VM.run, VM.modify_self, Py.bind at 1. cbn [fst snd VM.run_loop].
    unfold Py.bind at 1, VM.get_self. cbn [fst snd].
    change (VM.running (VM.set_running true loaded)) with true. cbn iota.
    unfold Py.bind. by rewrite Hstep.
  - cbn [steps fst]. change (VM.running (VM.set_running true loaded)) with true.
    by rewrite Hstep.
Qed.

(** *** Polling waits *)

(** [polls_until coro interval target n w w']: polled from the world [w],
    the predicate [coro] yields [target] at its [n]-th poll and not before,
    with a sleep of [interval] after each earlier poll; [w'] is the world
    after the [n]-th poll. *)
Inductive polls_until (coro : M World Data) (interval : float) (target : bool)
  : nat -> World -> World -> Prop :=
| polls_hit w w' :
    coro w = (Ok (DBool target), w') ->
    polls_until coro interval target 1 w w'
| polls_miss w w1 w2 n w' :
    coro w = (Ok (DBool (negb target)), w1) ->
    asyncio_sleep interval w1 = (Ok tt, w2) ->
    polls_until coro interval target n w2 w' ->
    polls_until coro interval target (S n) w w'.


Lemma polls_until_pos coro interval target n w w' :
  polls_until coro interval target n w w' -> (1 <= n)%nat.
Proof. destruct 1; lia. Qed.

(** A wait for the opposite of [invert] makes exactly those polls. *)
Lemma waitfor_coro_polls coro interval (invert : bool) n w w' (fuel : nat) :
  polls_until coro interval (negb invert) n w w' ->
  (n <= fuel)%nat ->
  VM.waitfor_coro fuel coro invert interval w = (Ok tt, w').
Proof.
  intros H. revert fuel. induction H as [w w' Hc | w w1 w2 n w' Hc Hs H IH];
    intros [|fuel] Hfuel; try lia; simpl; unfold Py.bind; rewrite Hc.
  - by destruct invert.
  - rewrite negb_involutive.
    replace (VM.xor_truthy invert (DBool invert) w1) with (@Ok bool false, w1)
      by (by destruct invert).
    cbn [negb]. rewrite Hs. apply IH. lia.
Qed.


End Stepping.

(** ** A scripted world

    A world for running the machine on concrete programs: the clients are
    numbers, a client operation returns the next scripted answer ([None]
    when the script is over), and the world records the operations called,
    the sleeps and the logged lines. *)

Record Scripted : Type := {
  answers : list Data;
  calls : list (nat * string);
  sleeps : list float;
  lines : list Data
}.

Definition script (answers : list Data) : Scripted :=
  {| answers := answers; calls := []; sleeps := []; lines := [] |}.

#[global] Instance scripted_provider : Provider nat Scripted := {|
  invoke client op args := fun w =>
    (Ok (default DNone (head (answers w))),
     {| answers := tail (answers w); calls := calls w ++ [(client, op)];
        sleeps := sleeps w; lines := lines w |});
  asyncio_sleep t := fun w =>
    (Ok tt, {| answers := answers w; calls := calls w;
               sleeps := sleeps w ++ [t]; lines := lines w |});
  logger_debug line := fun w =>
    (Ok tt, {| answers := answers w; calls := calls w;
               sleeps := sleeps w; lines := lines w ++ [line] |})
|}.

(** A machine with its program loaded and started, as [VM.run] starts it. *)
Definition started (clients : list nat) (program : list Instruction) : VM.t nat :=
  VM.set_running true (VM.set_program program (VM.__init__ clients)).

Definition everyone : PlayerSelector :=
  {| mass := true; inverted := false; player_nums := ∅ |}.

(** *** An [until] statement *)

Definition until_stmt : Stmt :=
  UntilStmt (NumberExpression 1)
            [CommandStmt (mkCommand CommandKind.kill [] None)].

Definition until_program : list Instruction :=
  [mkInstruction InstructionKind.enter_until (DList [DExpr (NumberExpression 1); DInt 3]);
   mkInstruction InstructionKind.kill DNone;
   mkInstruction InstructionKind.jump (DInt (-1));
   mkInstruction InstructionKind.nop DNone].

Lemma until_fails_on_entry_witness :
  Compiler.compile [until_stmt] = Ok until_program
  /\ VM.run 0 1 (VM.set_program until_program (VM.__init__ [0%nat]), script []) =
       (Raise (VMError "Unimplemented instruction"), (started [0%nat] until_program, script [])).
Proof.
  split; [reflexivity|].
  exact (proj1 (until_fails_on_entry 0 0 (NumberExpression 1)
                  [CommandStmt (mkCommand CommandKind.kill [] None)]
                  until_program [0%nat] (script []) eq_refl)).
Defined.

(** *** Two nested calls *)

Definition nested_calls : list Instruction :=
  [mkInstruction InstructionKind.jump (DInt 6);
   mkInstruction InstructionKind.label (DStr "a");
   mkInstruction InstructionKind.ret DNone;
   mkInstruction InstructionKind.label (DStr "b");
   mkInstruction InstructionKind.call (DStr "a");
   mkInstruction InstructionKind.ret DNone;
   mkInstruction InstructionKind.call (DStr "b");
   mkInstruction InstructionKind.kill DNone].

Lemma call_ret_lifo_witness :
  VM.step 0 (VM.set_ip 6 (started [0%nat] nested_calls), script [])
  = (Ok tt, (VM.set_ip 3 (VM.set_callstack [7] (VM.set_ip 6 (started [0%nat] nested_calls))),
             script []))
  /\ events 0 8 (started [0%nat] nested_calls, script [])
     = map Called [6; 4] ++ map Returned [5; 7]
  /\ [5; 7] = reverse (map (fun site => site + 1) [6; 4]).
Proof.
  destruct (@call_ret_lifo nat Scripted _) as (Hcall & _ & _ & _ & _ & Hlifo).
  split; [|split].
  - apply (Hcall 0%nat (VM.set_ip 6 (started [0%nat] nested_calls)) (script [])
             (mkInstruction InstructionKind.call (DStr "b")) 3%nat
             (mkInstruction InstructionKind.label (DStr "b")));
      try reflexivity.
    intros k y Hk1 Hk2. cbn in Hk2.
    assert (Hk : k = 4%nat \/ k = 5%nat) by lia.
    destruct Hk as [-> | ->]; intros [= <-]; reflexivity.
  - vm_compute. reflexivity.
  - apply (Hlifo 0%nat 8%nat (started [0%nat] nested_calls) (script []) [6; 4] [5; 7]).
    + vm_compute. reflexivity.
    + reflexivity.
Defined.

(** *** An [if] statement *)

Definition sleep_stmt (seconds : float) : Stmt :=
  CommandStmt (mkCommand CommandKind.sleep [DExpr (NumberExpression seconds)] None).

Definition window_visible : Expression :=
  CommandExpression
    (mkCommand CommandKind.expr
       [DExprKind ExprKind.window_visible; DList [DStr "WorldView"; DStr "NPCDialog"]]
       (Some everyone)).



(** The world after the condition was evaluated on client 0. *)
Definition asked : Scripted :=
  {| answers := []; calls := [(0%nat, "is_visible_by_path")]; sleeps := []; lines := [] |}.







(** *** A wait for a dialog *)

Definition in_dialog : M Scripted Data := invoke 0%nat "is_in_dialog" [].

Definition dialog_script : Scripted :=
  script [DBool false; DBool false; DBool true; DBool true; DBool false].

(** The world after the first [polls] polls of [dialog_script], with a sleep
    after each of them but the last of a phase. *)
Definition polled (answers : list Data) (polls naps : nat) : Scripted :=
  {| answers := answers;
     calls := replicate polls (0%nat, "is_in_dialog");
     sleeps := replicate naps VM.interval_default;
     lines := [] |}.


(** The same wait as an instruction of the machine, on one client. *)
Example step_waitfor_dialog_then :
  VM.step 3
    (started [0%nat]
       [deimos_call_of (waitfor_dialog true); mkInstruction InstructionKind.kill DNone],
     dialog_script)
  = (Ok tt,
     (VM.set_ip 1
        (started [0%nat]
           [deimos_call_of (waitfor_dialog true); mkInstruction InstructionKind.kill DNone]),
      polled [] 5 3)).
Proof. vm_compute. reflexivity. Qed.

(** ** The task watcher *)

Section Watching.
Import TaskWatcher.

Implicit Types (self : TaskWatcher.t) (loop : EventLoop) (task : Task).

(** C4 (the code differs).  [start_loop] returns the running loop only
    when [_running] is set, and nothing sets it: on a new watcher a second
    call creates a second supervising task, distinct from the first, and
    returns it.  The event loop then holds two supervising loops. *)
Theorem start_loop_twice_creates_two loop :
  let first := TaskWatcher.start_loop (TaskWatcher.__init__, loop) in
  let second := TaskWatcher.start_loop first.2 in
  first.1 = Ok (length loop)
  /\ second.1 = Ok (S (length loop))
  /\ second.2.2 = loop ++ [(__loop, pending false); (__loop, pending false)]
  /\ _selftask second.2.1 = Some (S (length loop))
  /\ _running second.2.1 = false.
Proof.
  cbv zeta. unfold TaskWatcher.start_loop, TaskWatcher.get_self, TaskWatcher.get_loop,
    TaskWatcher.modify_loop, TaskWatcher.modify_self, create_task, Py.bind, Py.ret.
  cbn. rewrite length_app, <- app_assoc. cbn.
  replace (length loop + 1)%nat with (S (length loop)) by lia. done.
Qed.

(** No method of the watcher sets [_running]. *)
Lemma start_loop_running self loop :
  _running (TaskWatcher.start_loop (self, loop)).2.1 = _running self.
Proof.
  unfold TaskWatcher.start_loop, TaskWatcher.get_self, Py.bind. cbn [fst snd].
  destruct (_running self) eqn:E.
  - by destruct (_selftask self).
  - done.
Qed.

(** *** The tick *)

Lemma _tick_loop_frame (tasks : list Task) (s : TaskWatcher.t * EventLoop) :
  (_tick_loop tasks s).2 = s.
Proof.
  induction tasks as [|task rest IH]; [done|].
  cbn [_tick_loop]. unfold Py.bind, TaskWatcher.get_loop, Py.lift_res. cbn [fst snd].
  destruct (negb (done s.2 task)); [apply IH|].
  destruct (task_exception s.2 task) as [[[e|name]|]|e|]; try done; apply IH.
Qed.

(** A registered task that the tick passes over: it is not done, or it has
    returned, or it ended with an exception object that is no [Exception]. *)
Definition quiet loop task : Prop :=
  match state_of loop task with
  | pending _ => True
  | finished returned => True
  | finished (failed (base_exception _)) => True
  | _ => False
  end.

Lemma _tick_loop_quiet (tasks : list Task) self loop (rest : list Task) :
  Forall (quiet loop) tasks ->
  _tick_loop (tasks ++ rest) (self, loop) = _tick_loop rest (self, loop).
Proof.
  induction 1 as [|task tasks Hq _ IH]; [done|].
  cbn [app _tick_loop]. unfold Py.bind, TaskWatcher.get_loop, Py.lift_res. cbn [fst snd].
  unfold quiet in Hq. unfold done, task_exception.
  destruct (state_of loop task) as [?|[| |[e|name]]]; try done; apply IH.
Qed.

Lemma _tick_loop_raises (tasks : list Task) self loop task (e : Exn) :
  task ∈ tasks ->
  state_of loop task = finished (failed (exception e)) ->
  exists e', _tick_loop tasks (self, loop) = (Raise e', (self, loop)).
Proof.
  intros Hin Hstate. induction tasks as [|x rest IH]; [by apply elem_of_nil in Hin|].
  cbn [_tick_loop]. unfold Py.bind, TaskWatcher.get_loop, Py.lift_res. cbn [fst snd].
  unfold done, task_exception.
  destruct (decide (x = task)) as [->|Hne].
  - rewrite Hstate. cbn. eauto.
  - apply elem_of_cons in Hin as [Heq|Hin]; [congruence|].
    destruct (state_of loop x) as [?|[| |[e0|name]]]; cbn; eauto.
Qed.

Lemma remove_middle (task : Task) (before after : list Task) :
  task ∉ before -> remove task (before ++ task :: after) = Some (before ++ after).
Proof.
  induction before as [|x before IH]; intros Hnot; simpl.
  - by rewrite decide_True.
  - apply not_elem_of_cons in Hnot as [Hne Hnot].
    rewrite decide_False by done. by rewrite IH.
Qed.

(** C10.  A tick leaves the watcher and the event loop as they were,
    whether it returns or raises: the list of registered tasks is the same
    before and after.  A registered task that finished with an exception,
    and before which no task of the list has failed or was cancelled, has
    its exception raised by the tick, and by every later tick, since the
    state they find is the same; whatever its place in the list, no tick
    returns normally while it is registered.  Unregistering the task takes
    it off the list (it is done, so it is not cancelled), and a tick over
    tasks that have not failed returns. *)
Theorem tick_keeps_watch_set :
  (forall self loop, (TaskWatcher._tick (self, loop)).2 = (self, loop))
  /\ (forall self loop (before after : list Task) task (e : Exn) (n : nat),
        _tasks self = before ++ task :: after ->
        Forall (quiet loop) before ->
        state_of loop task = finished (failed (exception e)) ->
        TaskWatcher._tick (Nat.iter n (fun s => (TaskWatcher._tick s).2) (self, loop))
        = (Raise e, (self, loop)))
  /\ (forall self loop task (e : Exn) (n : nat),
        task ∈ _tasks self ->
        state_of loop task = finished (failed (exception e)) ->
        exists e',
          TaskWatcher._tick (Nat.iter n (fun s => (TaskWatcher._tick s).2) (self, loop))
          = (Raise e', (self, loop)))
  /\ (forall self loop (before after : list Task) task,
        _tasks self = before ++ task :: after ->
        task ∉ before ->
        done loop task = true ->
        TaskWatcher.unregister task (self, loop)
        = (Ok tt, (set_tasks (before ++ after) self, loop)))
  /\ (forall self loop,
        Forall (quiet loop) (_tasks self) ->
        TaskWatcher._tick (self, loop) = (Ok tt, (self, loop))).
Proof.
  assert (Hframe : forall self loop, (TaskWatcher._tick (self, loop)).2 = (self, loop)).
  { intros self loop. unfold TaskWatcher._tick, TaskWatcher.get_self, Py.bind.
    cbn [fst snd]. apply _tick_loop_frame. }
  assert (Hiter : forall self loop (n : nat),
             Nat.iter n (fun s => (TaskWatcher._tick s).2) (self, loop) = (self, loop)).
  { intros self loop n. induction n as [|n IH]; [done|]. simpl. by rewrite IH, Hframe. }
  split; [done|]. split; [|split; [|split]].
  - intros self loop before after task e n Htasks Hquiet Hstate. rewrite Hiter.
    unfold TaskWatcher._tick, TaskWatcher.get_self, Py.bind. cbn [fst snd].
    rewrite Htasks, _tick_loop_quiet by done.
    cbn [_tick_loop]. unfold Py.bind, TaskWatcher.get_loop, Py.lift_res. cbn [fst snd].
    unfold done, task_exception. by rewrite Hstate.
  - intros self loop task e n Hin Hstate. rewrite Hiter.
    unfold TaskWatcher._tick, TaskWatcher.get_self, Py.bind. cbn [fst snd].
    by apply (_tick_loop_raises _ _ _ task e).
  - intros self loop before after task Htasks Hnot Hdone.
    unfold TaskWatcher.unregister, TaskWatcher.get_loop, TaskWatcher.get_self,
      TaskWatcher.modify_self, Py.bind, Py.or_raise, Py.ret.
    cbn [fst snd]. rewrite Hdone. cbn [negb fst snd].
    by rewrite Htasks, remove_middle.
  - intros self loop Hquiet.
    unfold TaskWatcher._tick, TaskWatcher.get_self, Py.bind. cbn [fst snd].
    rewrite <- (app_nil_r (_tasks self)). by rewrite _tick_loop_quiet.
Qed.

(** A watcher of three tasks, the second of which has failed. *)
Definition three_watcher : TaskWatcher.t :=
  {| _tasks := [0; 1; 2]%nat; _running := false; _selftask := None |}.

Definition three_loop : EventLoop :=
  [(coroutine "walk", pending false);
   (coroutine "teleport", finished (failed (exception (ProviderError "MemoryReadError"))));
   (coroutine "heal", finished returned)].

Lemma tick_keeps_watch_set_witness :
  TaskWatcher._tick (three_watcher, three_loop)
  = (Raise (ProviderError "MemoryReadError"), (three_watcher, three_loop))
  /\ TaskWatcher._tick (TaskWatcher._tick (three_watcher, three_loop)).2
     = (Raise (ProviderError "MemoryReadError"), (three_watcher, three_loop))
  /\ (TaskWatcher.unregister 1%nat;;; TaskWatcher._tick) (three_watcher, three_loop)
     = (Ok tt, (set_tasks [0; 2]%nat three_watcher, three_loop)).
Proof.
  destruct tick_keeps_watch_set as (_ & Hraise & _ & Hunreg & Hquiet).
  assert (Hq : Forall (quiet three_loop) [0%nat]) by (repeat constructor).
  split; [|split].
  - exact (Hraise three_watcher three_loop [0%nat] [2%nat] 1%nat _ 0%nat
             eq_refl Hq eq_refl).
  - exact (Hraise three_watcher three_loop [0%nat] [2%nat] 1%nat _ 1%nat
             eq_refl Hq eq_refl).
  - unfold Py.bind.
    rewrite (Hunreg three_watcher three_loop [0%nat] [2%nat] 1%nat eq_refl);
      [| by intros ?%list_elem_of_singleton | reflexivity].
    apply Hquiet. repeat constructor.
Defined.

End Watching.

(** ** The textual form of an instruction *)

Section Repr.
Variable str : Data -> string.

Lemma repr_truthy (i : Instruction) :
  Value.truthy (data i) = true ->
  Instruction.__repr__ str i = InstructionKind.name (kind i) +:+ " " +:+ str (data i).
Proof. intros H. unfold Instruction.__repr__. by rewrite H. Qed.

Lemma repr_falsy (i : Instruction) :
  Value.truthy (data i) = false ->
  Instruction.__repr__ str i = InstructionKind.name (kind i).
Proof. intros H. unfold Instruction.__repr__. by rewrite H. Qed.

(** C9 (the code differs).  [__repr__] tests the payload for truth, not
    for being [None].  The [jump] that closes a [loop] with an empty body
    carries the offset 0, a payload that is present: its text is the kind
    name alone, not the kind name followed by the payload. *)
Theorem repr_drops_zero_offset :
  Compiler.compile [LoopStmt []] = Ok [mkInstruction InstructionKind.jump (DInt 0)]
  /\ Instruction.__repr__ str (mkInstruction InstructionKind.jump (DInt 0)) = "jump"
  /\ Instruction.__repr__ str (mkInstruction InstructionKind.jump (DInt 0))
     <> "jump" +:+ " " +:+ str (DInt 0).
Proof. split; [reflexivity|]. split; [reflexivity|]. discriminate. Qed.

End Repr.

(** * Further properties of the compiler *)

(** Induction on statements, with the statements of a body or branch. *)
Section StmtInduction.
Variable P : Stmt -> Prop.
Hypothesis P_list : forall stmts, Forall P stmts -> P (StmtList stmts).
Hypothesis P_command : forall command, P (CommandStmt command).
Hypothesis P_block : forall ident body, Forall P body -> P (BlockDefStmt ident body).
Hypothesis P_if : forall expr branch_true branch_false,
    Forall P branch_true -> Forall P branch_false ->
    P (IfStmt expr branch_true branch_false).
Hypothesis P_while : forall expr body, Forall P body -> P (WhileStmt expr body).
Hypothesis P_until : forall expr body, Forall P body -> P (UntilStmt expr body).
Hypothesis P_loop : forall body, Forall P body -> P (LoopStmt body).
Hypothesis P_call : forall ident, P (CallStmt ident).
Hypothesis P_set : forall id expr, P (SetVarStmt id expr).
Hypothesis P_dec : forall id, P (DecVarStmt id).
Hypothesis P_other : forall name, P (OtherStmt name).

Fixpoint Stmt_nested_ind (stmt : Stmt) : P stmt :=
  let all := fix all (l : list Stmt) : Forall P l :=
      match l with
      | [] => Forall_nil P
      | s :: r => Forall_cons P s r (Stmt_nested_ind s) (all r)
      end in
  match stmt with
  | StmtList stmts => P_list stmts (all stmts)
  | CommandStmt command => P_command command
  | BlockDefStmt ident body => P_block ident body (all body)
  | IfStmt expr bt bf => P_if expr bt bf (all bt) (all bf)
  | WhileStmt expr body => P_while expr body (all body)
  | UntilStmt expr body => P_until expr body (all body)
  | LoopStmt body => P_loop body (all body)
  | CallStmt ident => P_call ident
  | SetVarStmt id expr => P_set id expr
  | DecVarStmt id => P_dec id
  | OtherStmt name => P_other name
  end.
End StmtInduction.

Section CompilerLayout.

(** [appends m]: what [m] does to the program compiled so far is to append
    to it, and neither its outcome nor what it appends depends on that
    program. *)
Definition appends {A} (m : M (list Instruction) A) : Prop :=
  forall p, m p = ((m []).1, p ++ (m []).2).

Lemma appends_ret {A} (a : A) : appends (Py.ret a).
Proof. intros p. unfold Py.ret. simpl. by rewrite app_nil_r. Qed.

Lemma appends_raise {A} (e : Exn) : appends (@Py.raise _ A e).
Proof. intros p. unfold Py.raise. simpl. by rewrite app_nil_r. Qed.

Lemma appends_or_raise {A} (e : Exn) (o : option A) : appends (Py.or_raise e o).
Proof. destruct o; [apply appends_ret | apply appends_raise]. Qed.

Lemma appends_emit (k : InstructionKind.t) (d : Data) : appends (Compiler.emit k d).
Proof. by intros p. Qed.

Lemma appends_extend (instrs : list Instruction) : appends (Compiler.extend instrs).
Proof. by intros p. Qed.

Lemma appends_sub_compile (body : M (list Instruction) unit) :
  appends (Compiler.sub_compile body).
Proof.
  intros p. unfold Compiler.sub_compile.
  destruct (body []) as [[[]|e|] q]; simpl; by rewrite app_nil_r.
Qed.

Lemma appends_bind {A B} (m : M (list Instruction) A) (k : A -> M (list Instruction) B) :
  appends m -> (forall a, appends (k a)) -> appends (Py.bind m k).
Proof.
  intros Hm Hk p. unfold Py.bind. rewrite (Hm p).
  destruct (m []) as [[a|e|] q]; simpl; try done.
  rewrite (Hk a (p ++ q)), (Hk a q). simpl. by rewrite <- app_assoc.
Qed.

Ltac appender :=
  repeat first
    [ apply appends_bind; [|intros ?]
    | apply appends_ret | apply appends_raise | apply appends_or_raise
    | apply appends_emit | apply appends_extend | apply appends_sub_compile
    | match goal with |- appends (if ?x then _ else _) => destruct x end ].

Lemma appends_emit_deimos_call (com : Command) : appends (Compiler.emit_deimos_call com).
Proof. apply appends_emit. Qed.

Lemma appends_compile_command (com : Command) : appends (Compiler.compile_command com).
Proof.
  unfold Compiler.compile_command, Compiler.data_at.
  destruct (Command.kind com); appender; apply appends_emit_deimos_call.
Qed.

(** The loop of [Compiler.compile] over a statement list. *)
Definition compile_stmts (stmts : list Stmt) : M (list Instruction) unit :=
  Compiler.compile_stmt (StmtList stmts).

Lemma compile_stmts_nil : compile_stmts [] = Py.ret tt.
Proof. reflexivity. Qed.

Lemma compile_stmts_cons (stmt : Stmt) (rest : list Stmt) :
  compile_stmts (stmt :: rest) = (Compiler.compile_stmt stmt;;; compile_stmts rest).
Proof. reflexivity. Qed.

Lemma appends_compile_stmts (stmts : list Stmt) :
  Forall (fun stmt => appends (Compiler.compile_stmt stmt)) stmts ->
  appends (compile_stmts stmts).
Proof.
  induction 1 as [|stmt rest Hs _ IH].
  - rewrite compile_stmts_nil. apply appends_ret.
  - rewrite compile_stmts_cons. by apply appends_bind.
Qed.

Lemma appends_compile_stmt (stmt : Stmt) : appends (Compiler.compile_stmt stmt).
Proof.
  induction stmt using Stmt_nested_ind;
    try (by apply appends_compile_stmts);
    try apply appends_compile_command;
    cbn [Compiler.compile_stmt]; appender.
Qed.

Lemma compile_stmts_app (a b : list Stmt) (p : list Instruction) :
  compile_stmts (a ++ b) p = (compile_stmts a;;; compile_stmts b) p.
Proof.
  revert p. induction a as [|stmt a IH]; intros p; simpl.
  - by rewrite compile_stmts_nil.
  - rewrite !compile_stmts_cons. unfold Py.bind.
    destruct (Compiler.compile_stmt stmt p) as [[[]|e|] q]; done.
Qed.

End CompilerLayout.

Section CompilerComposition.

Lemma compile_eq (stmts : list Stmt) :
  Compiler.compile stmts =
    match compile_stmts stmts [] with
    | (Ok _, p) => Ok p
    | (Raise e, _) => Raise e
    | (Timeout, _) => Timeout
    end.
Proof.
  unfold Compiler.compile, Compiler.sub_compile, compile_stmts.
  by destruct (Compiler.compile_stmt (StmtList stmts) []) as [[[]|e|] p].
Qed.

Lemma compile_Ok (stmts : list Stmt) (prog : list Instruction) :
  Compiler.compile stmts = Ok prog <-> compile_stmts stmts [] = (Ok tt, prog).
Proof.
  rewrite compile_eq.
  destruct (compile_stmts stmts []) as [[[]|e|] p]; split; congruence.
Qed.

Lemma compile_concat (a b : list Stmt) :
  Compiler.compile (a ++ b) =
    match Compiler.compile a with
    | Ok pa =>
        match Compiler.compile b with
        | Ok pb => Ok (pa ++ pb)
        | failure => failure
        end
    | failure => failure
    end.
Proof.
  rewrite !compile_eq, compile_stmts_app. unfold Py.bind.
  destruct (compile_stmts a []) as [[[]|e|] pa]; try done.
  pose proof (appends_compile_stmt (StmtList b) pa) as Hb.
  fold (compile_stmts b) in Hb. rewrite Hb.
  by destruct (compile_stmts b []) as [[[]|e|] pb].
Qed.

(** X1.  Compiling two statement lists one after the other gives the
    program of the first followed by the program of the second: the
    instructions of a statement do not depend on what stands before it
    (every jump is relative).  The compilation of the whole fails exactly
    when that of a part fails, with the first failure. *)
Theorem compile_app (a b : list Stmt) :
  Compiler.compile (a ++ b) =
    match Compiler.compile a with
    | Ok pa =>
        match Compiler.compile b with
        | Ok pb => Ok (pa ++ pb)
        | failure => failure
        end
    | failure => failure
    end.
Proof.
  rewrite !compile_eq, compile_stmts_app. unfold Py.bind.
  destruct (compile_stmts a []) as [[[]|e|] pa]; try done.
  pose proof (appends_compile_stmt (StmtList b) pa) as Hb.
  fold (compile_stmts b) in Hb. rewrite Hb.
  by destruct (compile_stmts b []) as [[[]|e|] pb].
Qed.

(** *** Jump targets *)

(** The relative offset an instruction carries, when it carries one. *)
Definition jump_offset (instr : Instruction) : option Z :=
  match kind instr, data instr with
  | InstructionKind.jump, DInt n => Some n
  | (InstructionKind.jump_if | InstructionKind.jump_ifn | InstructionKind.enter_until),
    DList [_; DInt n] => Some n
  | _, _ => None
  end.

(** Every offset of [l], a part of a program of [total] instructions that
    starts at index [base], leads inside the program or just behind it. *)
Definition targets_within (total base : Z) (l : list Instruction) : Prop :=
  forall (i : nat) instr n,
    l !! i = Some instr -> jump_offset instr = Some n ->
    0 <= base + Z.of_nat i + n <= total.

Definition jumps_in_range (prog : list Instruction) : Prop :=
  targets_within (Z.of_nat (length prog)) 0 prog.

Lemma targets_within_nil (total base : Z) : targets_within total base [].
Proof. by intros i instr n. Qed.

Lemma targets_within_one (total base : Z) (instr : Instruction) :
  (forall n, jump_offset instr = Some n -> 0 <= base + n <= total) ->
  targets_within total base [instr].
Proof.
  intros H [|i] x n; simpl; [|done]. intros [= <-] Hn. specialize (H n Hn). lia.
Qed.

Lemma targets_within_app (total base : Z) (a b : list Instruction) :
  targets_within total base a ->
  targets_within total (base + Z.of_nat (length a)) b ->
  targets_within total base (a ++ b).
Proof.
  intros Ha Hb i instr n Hi Hn.
  destruct (decide (i < length a)%nat) as [Hlt|Hge].
  - rewrite lookup_app_l in Hi by done. by apply (Ha i instr n).
  - rewrite lookup_app_r in Hi by lia.
    pose proof (Hb _ _ _ Hi Hn). lia.
Qed.

Lemma targets_within_placed (total base : Z) (l : list Instruction) :
  jumps_in_range l -> 0 <= base -> base + Z.of_nat (length l) <= total ->
  targets_within total base l.
Proof. intros Hl Hb Ht i instr n Hi Hn. pose proof (Hl i instr n Hi Hn). lia. Qed.

Lemma jumps_in_range_app (a b : list Instruction) :
  jumps_in_range a -> jumps_in_range b -> jumps_in_range (a ++ b).
Proof.
  intros Ha Hb. unfold jumps_in_range. rewrite length_app.
  apply targets_within_app; apply targets_within_placed; try done; lia.
Qed.

(** [emits Q m]: [m] appends to the program compiled so far, and only
    instructions that satisfy [Q]. *)
Definition emits (Q : Instruction -> Prop) {A} (m : M (list Instruction) A) : Prop :=
  forall p, exists new, (m p).2 = p ++ new /\ Forall Q new.

Lemma emits_ret (Q : Instruction -> Prop) {A} (a : A) : emits Q (Py.ret a).
Proof. intros p. exists []. by rewrite app_nil_r. Qed.

Lemma emits_raise (Q : Instruction -> Prop) {A} (e : Exn) : emits Q (@Py.raise _ A e).
Proof. intros p. exists []. by rewrite app_nil_r. Qed.

Lemma emits_or_raise (Q : Instruction -> Prop) {A} (e : Exn) (o : option A) :
  emits Q (Py.or_raise e o).
Proof. destruct o; [apply emits_ret | apply emits_raise]. Qed.

Lemma emits_emit (Q : Instruction -> Prop) (k : InstructionKind.t) (d : Data) :
  Q (mkInstruction k d) -> emits Q (Compiler.emit k d).
Proof. intros HQ p. exists [mkInstruction k d]. split; [done | by constructor]. Qed.

Lemma emits_bind (Q : Instruction -> Prop) {A B}
      (m : M (list Instruction) A) (k : A -> M (list Instruction) B) :
  emits Q m -> (forall a, emits Q (k a)) -> emits Q (Py.bind m k).
Proof.
  intros Hm Hk p. unfold Py.bind. destruct (Hm p) as (new & Hp & Hnew).
  destruct (m p) as [[a|e|] q]; simpl in *; subst q; try by exists new.
  destruct (Hk a (p ++ new)) as (new' & Hp' & Hnew').
  exists (new ++ new'). rewrite Hp', app_assoc. split; [done | by apply Forall_app].
Qed.

Definition no_offset (instr : Instruction) : Prop := jump_offset instr = None.

Lemma emits_compile_command (com : Command) :
  emits no_offset (Compiler.compile_command com).
Proof.
  unfold Compiler.compile_command, Compiler.data_at, Compiler.emit_deimos_call.
  destruct (Command.kind com);
    repeat first
      [ apply emits_bind; [|intros ?]
      | apply emits_ret | apply emits_raise | apply emits_or_raise
      | apply emits_emit; reflexivity
      | match goal with |- emits _ (if ?x then _ else _) => destruct x end ].
Qed.

Lemma targets_within_no_offset (total base : Z) (l : list Instruction) :
  Forall no_offset l -> targets_within total base l.
Proof.
  intros Hl i instr n Hi Hn.
  rewrite Forall_lookup in Hl. specialize (Hl i instr Hi). unfold no_offset in Hl. congruence.
Qed.

Lemma compile_command_no_jump (com : Command) (q : list Instruction) :
  Compiler.compile_command com [] = (Ok tt, q) -> jumps_in_range q.
Proof.
  intros H. destruct (emits_compile_command com []) as (new & Hq & Hnew).
  rewrite H in Hq. simpl in Hq. subst q. by apply targets_within_no_offset.
Qed.

End CompilerComposition.

Section CompilerBlocks.

Abbreviation instr := mkInstruction.

(** The instructions of a [while], an [until], a [loop] and a block
    definition whose body compiles to [body]. *)
Definition while_block (expr : Expression) (body : list Instruction) : list Instruction :=
  [instr InstructionKind.jump_ifn (DList [DExpr expr; DInt (Compiler.len body + 2)])]
  ++ body
  ++ [instr InstructionKind.jump_if (DList [DExpr expr; DInt (- Compiler.len body)])]
  ++ [instr InstructionKind.nop DNone].

Definition until_block (expr : Expression) (body : list Instruction) : list Instruction :=
  [instr InstructionKind.enter_until (DList [DExpr expr; DInt (Compiler.len body + 2)])]
  ++ body
  ++ [instr InstructionKind.jump (DInt (- Compiler.len body))]
  ++ [instr InstructionKind.nop DNone].

Definition loop_block (body : list Instruction) : list Instruction :=
  body ++ [instr InstructionKind.jump (DInt (- Compiler.len body))].

Definition def_block (ident : string) (body : list Instruction) : list Instruction :=
  [instr InstructionKind.jump (DInt (Compiler.len body + 3));
   instr InstructionKind.label (DStr ident)]
  ++ body
  ++ [instr InstructionKind.ret DNone; instr InstructionKind.nop DNone].

(** A statement made of sub-programs compiles when they do, to [block]. *)
Definition laid_out (stmt : Stmt) (parts : Res (list Instruction)) : Prop :=
  forall p,
    Compiler.compile_stmt stmt p =
      match parts with
      | Ok block => (Ok tt, p ++ block)
      | Raise e => (Raise e, p)
      | Timeout => (Timeout, p)
      end.

Lemma sub_compile_stmts (stmts : list Stmt) (p : list Instruction) :
  Compiler.sub_compile (compile_stmts stmts) p =
    match Compiler.compile stmts with
    | Ok instrs => (Ok instrs, p)
    | Raise e => (Raise e, p)
    | Timeout => (Timeout, p)
    end.
Proof.
  rewrite compile_eq. unfold Compiler.sub_compile.
  by destruct (compile_stmts stmts []) as [[[]|e|] q].
Qed.

Lemma sub_compile_closed (stmts : list Stmt) (last : list Instruction -> Instruction)
      (p : list Instruction) :
  Compiler.sub_compile
    (compile_stmts stmts;;; q <- Py.get;; Py.modify (fun q' => q' ++ [last q])) p =
    match Compiler.compile stmts with
    | Ok instrs => (Ok (instrs ++ [last instrs]), p)
    | Raise e => (Raise e, p)
    | Timeout => (Timeout, p)
    end.
Proof.
  rewrite compile_eq. unfold Compiler.sub_compile, Py.bind, Py.get, Py.modify.
  by destruct (compile_stmts stmts []) as [[[]|e|] q].
Qed.

Lemma len_snoc (l : list Instruction) (x : Instruction) :
  Compiler.len (l ++ [x]) = Compiler.len l + 1.
Proof. unfold Compiler.len. rewrite length_app. simpl. lia. Qed.

Lemma compile_while_layout (expr : Expression) (body : list Stmt) :
  laid_out (WhileStmt expr body)
    (match Compiler.compile body with
     | Ok instrs => Ok (while_block expr instrs)
     | failure => failure
     end).
Proof.
  intros p.
  change (Compiler.compile_stmt (WhileStmt expr body)) with
    (instrs_body <- Compiler.sub_compile
       (compile_stmts body;;; q <- Py.get;;
        Py.modify (fun q' => q' ++ [instr InstructionKind.jump_if
                                      (DList [DExpr expr; DInt (- Compiler.len q)])]));;
     Compiler.emit InstructionKind.jump_ifn
       (DList [DExpr expr; DInt (Compiler.len instrs_body + 1)]);;;
     Compiler.extend instrs_body;;;
     Compiler.emit InstructionKind.nop DNone).
  unfold Py.bind at 1.
  rewrite (sub_compile_closed body
             (fun q => instr InstructionKind.jump_if (DList [DExpr expr; DInt (- Compiler.len q)]))).
  destruct (Compiler.compile body) as [instrs|e|]; try done.
  unfold Py.bind, Compiler.emit, Compiler.extend, Py.modify, while_block.
  rewrite len_snoc. replace (Compiler.len instrs + 1 + 1) with (Compiler.len instrs + 2) by lia.
  by rewrite <- !app_assoc.
Qed.

Lemma compile_until_layout (expr : Expression) (body : list Stmt) :
  laid_out (UntilStmt expr body)
    (match Compiler.compile body with
     | Ok instrs => Ok (until_block expr instrs)
     | failure => failure
     end).
Proof.
  intros p.
  change (Compiler.compile_stmt (UntilStmt expr body)) with
    (instrs_body <- Compiler.sub_compile
       (compile_stmts body;;; q <- Py.get;;
        Py.modify (fun q' => q' ++ [instr InstructionKind.jump (DInt (- Compiler.len q))]));;
     Compiler.emit InstructionKind.enter_until
       (DList [DExpr expr; DInt (Compiler.len instrs_body + 1)]);;;
     Compiler.extend instrs_body;;;
     Compiler.emit InstructionKind.nop DNone).
  unfold Py.bind at 1.
  rewrite (sub_compile_closed body
             (fun q => instr InstructionKind.jump (DInt (- Compiler.len q)))).
  destruct (Compiler.compile body) as [instrs|e|]; try done.
  unfold Py.bind, Compiler.emit, Compiler.extend, Py.modify, until_block.
  rewrite len_snoc. replace (Compiler.len instrs + 1 + 1) with (Compiler.len instrs + 2) by lia.
  by rewrite <- !app_assoc.
Qed.

Lemma compile_loop_layout (body : list Stmt) :
  laid_out (LoopStmt body)
    (match Compiler.compile body with
     | Ok instrs => Ok (loop_block instrs)
     | failure => failure
     end).
Proof.
  intros p.
  change (Compiler.compile_stmt (LoopStmt body)) with
    (instrs_body <- Compiler.sub_compile
       (compile_stmts body;;; q <- Py.get;;
        Py.modify (fun q' => q' ++ [instr InstructionKind.jump (DInt (- Compiler.len q))]));;
     Compiler.extend instrs_body).
  unfold Py.bind at 1.
  rewrite (sub_compile_closed body
             (fun q => instr InstructionKind.jump (DInt (- Compiler.len q)))).
  by destruct (Compiler.compile body) as [instrs|e|].
Qed.

Lemma compile_def_layout (ident : string) (body : list Stmt) :
  laid_out (BlockDefStmt ident body)
    (match Compiler.compile body with
     | Ok instrs => Ok (def_block ident instrs)
     | failure => failure
     end).
Proof.
  intros p.
  change (Compiler.compile_stmt (BlockDefStmt ident body)) with
    (instrs_body <- Compiler.sub_compile (compile_stmts body);;
     Compiler.emit InstructionKind.jump (DInt (Compiler.len instrs_body + 3));;;
     Compiler.emit InstructionKind.label (DStr ident);;;
     Compiler.extend instrs_body;;;
     Compiler.emit InstructionKind.ret DNone;;;
     Compiler.emit InstructionKind.nop DNone).
  unfold Py.bind at 1. rewrite sub_compile_stmts.
  destruct (Compiler.compile body) as [instrs|e|]; try done.
  unfold Py.bind, Compiler.emit, Compiler.extend, Py.modify, def_block.
  by rewrite <- !app_assoc.
Qed.

Lemma compile_if_layout (expr : Expression) (branch_true branch_false : list Stmt) :
  laid_out (IfStmt expr branch_true branch_false)
    (match Compiler.compile branch_false with
     | Ok instrs_false =>
         match Compiler.compile branch_true with
         | Ok instrs_true => Ok (if_block expr instrs_true instrs_false)
         | failure => failure
         end
     | failure => failure
     end).
Proof.
  intros p. rewrite compile_if_eq. unfold Py.bind at 1.
  fold (compile_stmts branch_false). rewrite sub_compile_stmts.
  destruct (Compiler.compile branch_false) as [instrs_false|e|]; try done.
  unfold Py.bind at 1. fold (compile_stmts branch_true). rewrite sub_compile_stmts.
  destruct (Compiler.compile branch_true) as [instrs_true|e|]; try done.
  unfold Py.bind, Compiler.emit, Compiler.extend, Py.modify, if_block.
  by rewrite <- !app_assoc.
Qed.

End CompilerBlocks.

Section JumpTargets.

Ltac within_block :=
  repeat first
    [ apply targets_within_app
    | apply targets_within_nil
    | apply targets_within_one;
        let n := fresh "n" in let Hn := fresh "Hn" in
        intros n Hn; cbn in Hn; try discriminate Hn; injection Hn as <-
    | apply targets_within_placed; [assumption | |] ];
  cbn [length]; rewrite ?length_app; cbn [length]; unfold Compiler.len; try lia.

Lemma while_block_in_range (expr : Expression) (body : list Instruction) :
  jumps_in_range body -> jumps_in_range (while_block expr body).
Proof.
  intros Hbody. unfold jumps_in_range, while_block.
  rewrite !length_app. cbn [length]. within_block.
Qed.

Lemma until_block_in_range (expr : Expression) (body : list Instruction) :
  jumps_in_range body -> jumps_in_range (until_block expr body).
Proof.
  intros Hbody. unfold jumps_in_range, until_block.
  rewrite !length_app. cbn [length]. within_block.
Qed.

Lemma loop_block_in_range (body : list Instruction) :
  jumps_in_range body -> jumps_in_range (loop_block body).
Proof.
  intros Hbody. unfold jumps_in_range, loop_block.
  rewrite !length_app. cbn [length]. within_block.
Qed.

Lemma def_block_in_range (ident : string) (body : list Instruction) :
  jumps_in_range body -> jumps_in_range (def_block ident body).
Proof.
  intros Hbody. unfold jumps_in_range, def_block.
  change [mkInstruction InstructionKind.jump (DInt (Compiler.len body + 3));
          mkInstruction InstructionKind.label (DStr ident)]
    with ([mkInstruction InstructionKind.jump (DInt (Compiler.len body + 3))]
          ++ [mkInstruction InstructionKind.label (DStr ident)]).
  change [mkInstruction InstructionKind.ret DNone; mkInstruction InstructionKind.nop DNone]
    with ([mkInstruction InstructionKind.ret DNone] ++ [mkInstruction InstructionKind.nop DNone]).
  rewrite !length_app. cbn [length]. within_block.
Qed.

Lemma if_block_in_range (expr : Expression) (instrs_true instrs_false : list Instruction) :
  jumps_in_range instrs_true -> jumps_in_range instrs_false ->
  jumps_in_range (if_block expr instrs_true instrs_false).
Proof.
  intros Ht Hf. unfold jumps_in_range, if_block.
  rewrite !length_app. cbn [length]. within_block.
Qed.

(** The property for one statement, compiled on its own. *)
Definition stmt_in_range (stmt : Stmt) : Prop :=
  forall q, Compiler.compile_stmt stmt [] = (Ok tt, q) -> jumps_in_range q.

Lemma stmts_in_range (stmts : list Stmt) :
  Forall stmt_in_range stmts ->
  forall prog, Compiler.compile stmts = Ok prog -> jumps_in_range prog.
Proof.
  induction 1 as [|stmt rest Hs _ IH]; intros prog Hc.
  - apply compile_Ok in Hc. injection Hc as <-. apply targets_within_nil.
  - change (stmt :: rest) with ([stmt] ++ rest) in Hc. rewrite compile_concat in Hc.
    destruct (Compiler.compile [stmt]) as [pa| |] eqn:Ea; try done.
    destruct (Compiler.compile rest) as [pb| |] eqn:Eb; try done.
    injection Hc as <-. apply jumps_in_range_app; [|by apply IH].
    apply Hs. apply compile_Ok in Ea.
    rewrite compile_stmts_cons, compile_stmts_nil in Ea. unfold Py.bind, Py.ret in Ea.
    by destruct (Compiler.compile_stmt stmt []) as [[[]|e|] q]; simplify_eq.
Qed.

Lemma stmt_in_range_all (stmt : Stmt) : stmt_in_range stmt.
Proof.
  induction stmt using Stmt_nested_ind; intros q Hq.
  - apply (stmts_in_range stmts); [done|]. by apply compile_Ok.
  - by apply (compile_command_no_jump command).
  - rewrite (compile_def_layout ident body []) in Hq.
    destruct (Compiler.compile body) as [instrs| |] eqn:E; try done.
    injection Hq as <-. apply def_block_in_range. by apply (stmts_in_range body).
  - rewrite (compile_if_layout expr branch_true branch_false []) in Hq.
    destruct (Compiler.compile branch_false) as [instrs_false| |] eqn:Ef; try done.
    destruct (Compiler.compile branch_true) as [instrs_true| |] eqn:Et; try done.
    injection Hq as <-.
    apply if_block_in_range;
      [by apply (stmts_in_range branch_true) | by apply (stmts_in_range branch_false)].
  - rewrite (compile_while_layout expr body []) in Hq.
    destruct (Compiler.compile body) as [instrs| |] eqn:E; try done.
    injection Hq as <-. apply while_block_in_range. by apply (stmts_in_range body).
  - rewrite (compile_until_layout expr body []) in Hq.
    destruct (Compiler.compile body) as [instrs| |] eqn:E; try done.
    injection Hq as <-. apply until_block_in_range. by apply (stmts_in_range body).
  - rewrite (compile_loop_layout body []) in Hq.
    destruct (Compiler.compile body) as [instrs| |] eqn:E; try done.
    injection Hq as <-. apply loop_block_in_range. by apply (stmts_in_range body).
  - injection Hq as <-. unfold jumps_in_range.
    apply targets_within_no_offset. by repeat constructor.
  - injection Hq as <-. unfold jumps_in_range.
    apply targets_within_no_offset. by repeat constructor.
  - injection Hq as <-. unfold jumps_in_range.
    apply targets_within_no_offset. by repeat constructor.
  - discriminate.
Qed.

(** X2.  In every compiled program, the offset of each [jump], [jump_if],
    [jump_ifn] and [enter_until], added to the index of its instruction,
    is an index of the program or the index just behind its last
    instruction. *)
Theorem compiled_jumps_in_range (stmts : list Stmt) (prog : list Instruction) :
  Compiler.compile stmts = Ok prog ->
  forall (i : nat) (instr : Instruction) (n : Z),
    prog !! i = Some instr ->
    jump_offset instr = Some n ->
    0 <= Z.of_nat i + n <= Z.of_nat (length prog).
Proof.
  intros Hc i instr n Hi Hn.
  assert (Hr : jumps_in_range prog).
  { apply (stmts_in_range stmts); [|done].
    apply Forall_forall. intros stmt _. apply stmt_in_range_all. }
  pose proof (Hr i instr n Hi Hn). lia.
Qed.

End JumpTargets.

Section CompilerFailures.

(** The commands [Compiler.compile_command] has a rule for, with the data
    the rule reads. *)
Definition command_has_rule (com : Command) : bool :=
  match Command.kind com, Command.data com with
  | CommandKind.kill, _ => true
  | CommandKind.sleep, _ :: _ => true
  | CommandKind.log, DLogKind LogKind.window :: _ :: _ => true
  | CommandKind.log, DLogKind LogKind.literal :: _ => true
  | (CommandKind.sendkey | CommandKind.click | CommandKind.teleport
     | CommandKind.goto | CommandKind.usepotion | CommandKind.buypotions
     | CommandKind.relog | CommandKind.tozone), _ => true
  | CommandKind.waitfor, _ :: _ :: _ => true
  | CommandKind.load_playstyle, _ :: _ => true
  | _, _ => false
  end.

(** The statements [Compiler.compile_stmt] has a rule for, down to their
    commands. *)
Fixpoint has_rule (stmt : Stmt) : bool :=
  match stmt with
  | StmtList stmts => forallb has_rule stmts
  | CommandStmt command => command_has_rule command
  | BlockDefStmt _ body => forallb has_rule body
  | IfStmt _ branch_true branch_false =>
      forallb has_rule branch_false && forallb has_rule branch_true
  | WhileStmt _ body => forallb has_rule body
  | UntilStmt _ body => forallb has_rule body
  | LoopStmt body => forallb has_rule body
  | CallStmt _ | SetVarStmt _ _ | DecVarStmt _ => true
  | OtherStmt _ => false
  end.

(** The exceptions of a compilation. *)
Definition compile_error (e : Exn) : Prop :=
  e = IndexError \/ exists msg, e = CompilerError msg.

(** The outcome of a compilation agrees with [ok]. *)
Definition outcome_agrees {A} (r : Res A) (ok : bool) : Prop :=
  match r with
  | Ok _ => ok = true
  | Raise e => ok = false /\ compile_error e
  | Timeout => False
  end.

Lemma compile_command_outcome (com : Command) :
  outcome_agrees (Compiler.compile_command com []).1 (command_has_rule com).
Proof.
  destruct com as [k data sel].
  unfold Compiler.compile_command, Compiler.data_at, command_has_rule.
  cbn [Command.kind Command.data].
  destruct k.
  1-2,4-11,13-15:
    by (destruct data as [|d0 [|d1 data]]; cbn;
        first [reflexivity | split; [reflexivity | unfold compile_error; by eauto]]).
  - destruct data as [|d0 [|d1 data]];
      [cbn; split; [reflexivity | unfold compile_error; by eauto] | |];
      destruct d0 as [| | | | | |[| |]| | | | | | | | |];
      cbn; first [reflexivity | split; [reflexivity | unfold compile_error; by eauto]].
  - destruct data as [|d0 [|d1 data]];
      [cbn; split; [reflexivity | unfold compile_error; by eauto]
      |cbn; split; [reflexivity | unfold compile_error; by eauto] |].
    change 1 with (Z.of_nat 1).
    rewrite setitem_nat by (simpl; lia). rewrite getitem_nat. cbn.
    by destruct (Value.eq d1 (DBool true)).
Qed.

Lemma compile_single (stmt : Stmt) :
  Compiler.compile [stmt] =
    match Compiler.compile_stmt stmt [] with
    | (Ok _, q) => Ok q
    | (Raise e, _) => Raise e
    | (Timeout, _) => Timeout
    end.
Proof.
  rewrite compile_eq, compile_stmts_cons, compile_stmts_nil. unfold Py.bind, Py.ret.
  by destruct (Compiler.compile_stmt stmt []) as [[[]|e|] q].
Qed.

Lemma compile_stmts_outcome (stmts : list Stmt) :
  Forall (fun stmt => outcome_agrees (Compiler.compile_stmt stmt []).1 (has_rule stmt)) stmts ->
  outcome_agrees (Compiler.compile stmts) (forallb has_rule stmts).
Proof.
  induction 1 as [|stmt rest Hs _ IH].
  - by rewrite compile_eq, compile_stmts_nil.
  - change (stmt :: rest) with ([stmt] ++ rest). rewrite compile_concat, compile_single.
    cbn [app forallb].
    destruct (Compiler.compile_stmt stmt []) as [[[]|e|] q]; cbn [fst] in Hs.
    + rewrite Hs. cbn [andb].
      by destruct (Compiler.compile rest) as [pb|e|].
    + destruct Hs as [-> He]. done.
    + done.
Qed.

Lemma compile_stmt_outcome (stmt : Stmt) :
  outcome_agrees (Compiler.compile_stmt stmt []).1 (has_rule stmt).
Proof.
  induction stmt using Stmt_nested_ind; cbn [has_rule].
  - pose proof (compile_stmts_outcome stmts ltac:(done)) as Hl.
    rewrite compile_eq in Hl. fold (compile_stmts stmts).
    by destruct (compile_stmts stmts []) as [[[]|e|] q].
  - apply compile_command_outcome.
  - rewrite (compile_def_layout ident body []).
    pose proof (compile_stmts_outcome body ltac:(done)) as Hl.
    by destruct (Compiler.compile body) as [instrs|e|].
  - rewrite (compile_if_layout expr branch_true branch_false []).
    pose proof (compile_stmts_outcome branch_false ltac:(done)) as Hf.
    pose proof (compile_stmts_outcome branch_true ltac:(done)) as Ht.
    destruct (Compiler.compile branch_false) as [instrs_false|e|]; cbn in *.
    + rewrite Hf. cbn [andb]. by destruct (Compiler.compile branch_true) as [instrs_true|e|].
    + by destruct Hf as [-> He].
    + done.
  - rewrite (compile_while_layout expr body []).
    pose proof (compile_stmts_outcome body ltac:(done)) as Hl.
    by destruct (Compiler.compile body) as [instrs|e|].
  - rewrite (compile_until_layout expr body []).
    pose proof (compile_stmts_outcome body ltac:(done)) as Hl.
    by destruct (Compiler.compile body) as [instrs|e|].
  - rewrite (compile_loop_layout body []).
    pose proof (compile_stmts_outcome body ltac:(done)) as Hl.
    by destruct (Compiler.compile body) as [instrs|e|].
  - done.
  - done.
  - done.
  - split; [done|]. right. by eexists.
Qed.

(** X3.  A compilation succeeds exactly when every statement of the
    tree is one the compiler has a rule for and every command has a rule
    and the data its rule reads.  Otherwise it fails with the compiler's
    error, or with the [IndexError] of reading missing command data, and
    returns no program. *)
Theorem compile_succeeds_iff_rules (stmts : list Stmt) :
  ((exists prog, Compiler.compile stmts = Ok prog) <-> forallb has_rule stmts = true)
  /\ (forall e, Compiler.compile stmts = Raise e ->
                e = IndexError \/ exists msg, e = CompilerError msg)
  /\ Compiler.compile stmts <> Timeout.
Proof.
  pose proof (compile_stmts_outcome stmts) as H.
  assert (Hall : Forall (fun stmt => outcome_agrees (Compiler.compile_stmt stmt []).1
                                                     (has_rule stmt)) stmts)
    by (apply Forall_forall; intros stmt _; apply compile_stmt_outcome).
  specialize (H Hall).
  destruct (Compiler.compile stmts) as [prog|e|]; cbn in H.
  - repeat split; try done. by eexists.
  - destruct H as [Hr He]. repeat split; try done.
    + by intros [prog ?].
    + rewrite Hr. done.
    + by intros e' [= <-].
  - done.
Qed.

End CompilerFailures.

(** * Further properties of the machine *)

Section Loops.
Context {Client World : Type} `{!Provider Client World}.

Implicit Types (self : VM.t Client) (w : World).

Lemma execute_jump_ifn (fuel : nat) self w (i : Instruction) (e : Expression) (n : Z)
      (c : Data) w1 :
  kind i = InstructionKind.jump_ifn ->
  data i = DList [DExpr e; DInt n] ->
  VM.eval self e None w = (Ok c, w1) ->
  VM.execute fuel self i (self, w) =
    (Ok tt, (VM.set_ip (VM._ip self + if Value.truthy c then 1 else n) self, w1)).
Proof.
  intros Hkind Hdata Heval. unfold VM.execute. rewrite Hkind, Hdata.
  unfold Py.bind, Py.assert, Py.ret, VM.item, Py.or_raise, VM.lift, VM.eval_data.
  simpl. rewrite Heval. by destruct (Value.truthy c).
Qed.

(** A step that moves the pointer inside the program does not stop the
    machine. *)
Lemma stop_at_end_inside self (target : Z) :
  target < Z.of_nat (length (VM.program self)) ->
  stop_at_end (VM.set_ip target self) = VM.set_ip target self.
Proof.
  intros Hlt. unfold stop_at_end. cbn [VM.program VM._ip VM.set_ip].
  by replace (Z.of_nat (length (VM.program self)) <=? target) with false
    by (symmetry; apply Z.leb_gt; lia).
Qed.

(** X4.  A [while] whose body compiles to [B] instructions compiles to
    [jump_ifn cond (B+2)], the body, [jump_if cond (-B)] and a [nop].  On
    the first instruction and on the one after the body the machine
    evaluates the condition once: when it holds the pointer goes to the first
    instruction of the body, and when it does not, to the [nop] behind the
    loop. *)
Theorem while_tests_before_each_round
    (polls : nat) (expr : Expression) (body : list Stmt)
    (instrs p post : list Instruction) self w (c : Data) w1 :
  let base := Compiler.len p in
  let B := Compiler.len instrs in
  Compiler.compile body = Ok instrs ->
  VM.program self = p ++ while_block expr instrs ++ post ->
  VM.running self = true ->
  VM._ip self = base \/ VM._ip self = base + B + 1 ->
  VM.eval self expr None w = (Ok c, w1) ->
  Compiler.compile_stmt (WhileStmt expr body) p = (Ok tt, p ++ while_block expr instrs)
  /\ getitem (VM.program self) (base + B + 2) = Some (mkInstruction InstructionKind.nop DNone)
  /\ VM.step polls (self, w) =
       (Ok tt, (VM.set_ip (if Value.truthy c then base + 1 else base + B + 2) self, w1)).
Proof.
  intros base B Hc Hprog Hrun Hip Heval.
  assert (Hlen : Z.of_nat (length (VM.program self)) > base + B + 2).
  { rewrite Hprog. unfold while_block. rewrite !length_app. simpl.
    unfold base, B, Compiler.len. lia. }
  split; [|split].
  - rewrite (compile_while_layout expr body p). by rewrite Hc.
  - rewrite Hprog. unfold while_block.
    set (entry := mkInstruction InstructionKind.jump_ifn _).
    set (back := mkInstruction InstructionKind.jump_if _).
    set (join_nop := mkInstruction InstructionKind.nop _).
    replace (p ++ ([entry] ++ instrs ++ [back] ++ [join_nop]) ++ post)
      with ((p ++ [entry] ++ instrs ++ [back]) ++ join_nop :: post)
      by (by rewrite <- !app_assoc).
    apply (getitem_middle (p ++ [entry] ++ instrs ++ [back])).
    rewrite !length_app. simpl. unfold base, B, Compiler.len. lia.
  - destruct Hip as [Hip|Hip].
    + rewrite (step_running _ _ _
                 (mkInstruction InstructionKind.jump_ifn (DList [DExpr expr; DInt (B + 2)]))).
      * rewrite (execute_jump_ifn _ _ _ _ expr (B + 2) c w1) by done.
        rewrite Hip.
        replace (base + (if Value.truthy c then 1 else B + 2))
          with (if Value.truthy c then base + 1 else base + B + 2)
          by (destruct (Value.truthy c); lia).
        rewrite stop_at_end_inside; [done|].
        unfold base, B, Compiler.len in *. destruct (Value.truthy c); lia.
      * done.
      * rewrite Hprog, Hip. unfold while_block. simpl. by apply getitem_middle.
    + rewrite (step_running _ _ _
                 (mkInstruction InstructionKind.jump_if (DList [DExpr expr; DInt (- B)]))).
      * rewrite (execute_jump_if _ _ _ _ expr (- B) c w1) by done.
        rewrite Hip.
        replace (base + B + 1 + (if Value.truthy c then - B else 1))
          with (if Value.truthy c then base + 1 else base + B + 2)
          by (destruct (Value.truthy c); lia).
        rewrite stop_at_end_inside; [done|].
        unfold base, B, Compiler.len in *. destruct (Value.truthy c); lia.
      * done.
      * rewrite Hprog, Hip. unfold while_block.
        set (entry := mkInstruction InstructionKind.jump_ifn _).
        set (back := mkInstruction InstructionKind.jump_if _) at 1.
        set (join_nop := mkInstruction InstructionKind.nop _).
        replace (p ++ ([entry] ++ instrs ++ [back] ++ [join_nop]) ++ post)
          with ((p ++ [entry] ++ instrs) ++ back :: ([join_nop] ++ post))
          by (by rewrite <- !app_assoc).
        apply (getitem_middle (p ++ [entry] ++ instrs)).
        rewrite !length_app. simpl. unfold base, B, Compiler.len. lia.
Qed.

(** X5.  A [loop] whose body compiles to [B] instructions compiles to
    the body followed by [jump (-B)].  When the body runs through, the next
    step takes the pointer back to the first instruction of the body: the
    loop has no exit of its own. *)
Theorem loop_returns_to_start
    (polls : nat) (body : list Stmt) (instrs p post : list Instruction)
    self w (n : nat) (s' : VM.t Client * World) (ips : list Z) :
  let base := Compiler.len p in
  let B := Compiler.len instrs in
  Compiler.compile body = Ok instrs ->
  VM.program self = p ++ loop_block instrs ++ post ->
  VM._ip self = base ->
  steps polls n (self, w) = Some (s', ips) ->
  VM._ip s'.1 = base + B ->
  VM.running s'.1 = true ->
  Compiler.compile_stmt (LoopStmt body) p = (Ok tt, p ++ loop_block instrs)
  /\ steps polls (n + 1) (self, w) = Some ((VM.set_ip base s'.1, s'.2), ips ++ [base + B]).
Proof.
  intros base B Hc Hprog Hip Hsteps Hlast Hrun'.
  split.
  - rewrite (compile_loop_layout body p). by rewrite Hc.
  - assert (Hprog' : VM.program s'.1 = VM.program self)
      by (by apply steps_program in Hsteps).
    rewrite <- Hlast. apply (steps_snoc _ _ _ _ _ _ Hsteps Hrun').
    destruct s' as [self' w']. cbn [fst snd] in *.
    rewrite (step_running _ _ _ (mkInstruction InstructionKind.jump (DInt (- B)))).
    + rewrite (execute_jump _ _ _ _ (- B)) by done.
      rewrite Hlast. replace (base + B + - B) with base by lia.
      pose proof (stop_at_end_inside self' base) as Hs. rewrite Hs; [done|].
      rewrite Hprog', Hprog. unfold loop_block. rewrite !length_app. simpl.
      unfold base, Compiler.len. lia.
    + done.
    + rewrite Hprog', Hlast, Hprog. unfold loop_block.
      replace (p ++ (instrs ++ [mkInstruction InstructionKind.jump (DInt (- Compiler.len instrs))])
                 ++ post)
        with ((p ++ instrs) ++ mkInstruction InstructionKind.jump (DInt (- B)) :: post)
        by (by rewrite <- !app_assoc).
      apply getitem_middle. rewrite length_app. unfold base, B, Compiler.len. lia.
Qed.

(** X6.  A block definition whose body compiles to [B] instructions
    compiles to [jump (B+3)], [label], the body, [ret] and [nop].  Reached
    from above, the machine jumps over label, body and [ret] onto the [nop],
    and its next step fails: [VM.step] has no case for [nop]. *)
Theorem block_definition_ends_the_run
    (polls : nat) (ident : string) (body : list Stmt)
    (instrs p post : list Instruction) self w :
  let base := Compiler.len p in
  let B := Compiler.len instrs in
  Compiler.compile body = Ok instrs ->
  VM.program self = p ++ def_block ident instrs ++ post ->
  VM._ip self = base ->
  VM.running self = true ->
  Compiler.compile_stmt (BlockDefStmt ident body) p = (Ok tt, p ++ def_block ident instrs)
  /\ VM.step polls (self, w) = (Ok tt, (VM.set_ip (base + B + 3) self, w))
  /\ VM.step polls (VM.set_ip (base + B + 3) self, w) =
       (Raise (VMError "Unimplemented instruction"), (VM.set_ip (base + B + 3) self, w)).
Proof.
  intros base B Hc Hprog Hip Hrun.
  assert (Hlen : Z.of_nat (length (VM.program self)) > base + B + 3).
  { rewrite Hprog. unfold def_block. rewrite !length_app. simpl.
    unfold base, B, Compiler.len. lia. }
  split; [|split].
  - rewrite (compile_def_layout ident body p). by rewrite Hc.
  - rewrite (step_running _ _ _ (mkInstruction InstructionKind.jump (DInt (B + 3)))).
    + rewrite (execute_jump _ _ _ _ (B + 3)) by done.
      rewrite Hip. replace (base + (B + 3)) with (base + B + 3) by lia.
      rewrite stop_at_end_inside; [done | lia].
    + done.
    + rewrite Hprog, Hip. unfold def_block. simpl. by apply getitem_middle.
  - rewrite (step_running _ _ _ (mkInstruction InstructionKind.nop DNone)); [done..|].
    cbn [VM.program VM._ip VM.set_ip]. rewrite Hprog. unfold def_block.
    set (skip := mkInstruction InstructionKind.jump _).
    set (lbl := mkInstruction InstructionKind.label _).
    set (back := mkInstruction InstructionKind.ret _).
    set (join_nop := mkInstruction InstructionKind.nop _).
    replace (p ++ ([skip; lbl] ++ instrs ++ [back; join_nop]) ++ post)
      with ((p ++ [skip; lbl] ++ instrs ++ [back]) ++ join_nop :: post)
      by (repeat (rewrite <- app_assoc; simpl); done).
    apply (getitem_middle (p ++ [skip; lbl] ++ instrs ++ [back])).
    rewrite !length_app. simpl. unfold base, B, Compiler.len. lia.
Qed.

End Loops.

(** * Tasks run alone *)

Section TaskRuns.
Context {Client World : Type} `{!Provider Client World}.

(** What a group of one task makes of the outcome of its task. *)
Definition settle {S} (outcome : Res unit * S) : Res unit * S :=
  match outcome with
  | (Ok _, s) => (Ok tt, s)
  | (Raise CancelledError, s) => (Ok tt, s)
  | (Raise e, s) => (Raise (ExceptionGroup [e]), s)
  | (Timeout, s) => (Timeout, s)
  end.

Section Alone.
Context {S : Type}.

Implicit Types (l : VM.Loop S) (loops : list (VM.Loop S)) (s : S).

(** A polling loop and a sequence of them, run without other tasks. *)
Fixpoint run_loop (fuel : nat) l : M S unit :=
  match fuel with
  | O => Py.timeout
  | Datatypes.S fuel' =>
      again <- VM.poll l;;
      if again then VM.loop_sleep l;;; run_loop fuel' l else Py.ret tt
  end.

Fixpoint run_loops loops : M S unit :=
  match loops with
  | [] => Py.ret tt
  | l :: rest => run_loop (VM.polls_left l) l;;; run_loops rest
  end.

Lemma run_loop_spend (fuel remaining : nat) l s :
  run_loop fuel (VM.spend l remaining) s = run_loop fuel l s.
Proof.
  revert s. induction fuel as [|fuel IH]; intros s; [done|].
  cbn [run_loop]. unfold Py.bind.
  change (VM.poll (VM.spend l remaining) s) with (VM.poll l s).
  destruct (VM.poll l s) as [[[]|e|] s1]; try done.
  change (VM.loop_sleep (VM.spend l remaining) s1) with (VM.loop_sleep l s1).
  destruct (VM.loop_sleep l s1) as [[[]|e|] s2]; [apply IH | done | done].
Qed.

(** The loops run alone go on from where a round has left them. *)
Lemma run_loops_resume loops s :
  run_loops loops s =
    match VM.resume_loops loops s with
    | (Ok rest, s1) => run_loops rest s1
    | (Raise e, s1) => (Raise e, s1)
    | (Timeout, s1) => (Timeout, s1)
    end.
Proof.
  revert s. induction loops as [|l rest IH]; intros s; [done|].
  cbn [run_loops VM.resume_loops].
  destruct (VM.polls_left l) as [|remaining] eqn:Hleft; [done|].
  cbn [run_loop]. unfold Py.bind.
  destruct (VM.poll l s) as [[[]|e|] s1]; try done.
  - destruct (VM.loop_sleep l s1) as [[[]|e|] s2]; try done.
    unfold Py.ret. cbn [run_loops VM.polls_left VM.spend]. unfold Py.bind.
    by rewrite run_loop_spend.
  - unfold Py.ret. apply IH.
Qed.

(** A round uses up a poll of what it leaves suspended. *)
Lemma resume_loops_spends loops s (l : VM.Loop S) (rest : list (VM.Loop S)) s1 :
  VM.resume_loops loops s = (Ok (l :: rest), s1) ->
  (sum_list (map VM.polls_left (l :: rest)) < sum_list (map VM.polls_left loops))%nat.
Proof.
  revert s. induction loops as [|l0 loops IH]; intros s; [done|].
  cbn [VM.resume_loops].
  destruct (VM.polls_left l0) as [|remaining] eqn:Hleft; [done|].
  unfold Py.bind.
  destruct (VM.poll l0 s) as [[[]|e|] s2]; try done.
  - destruct (VM.loop_sleep l0 s2) as [[[]|e|] s3]; try done.
    unfold Py.ret. intros [= <- <- <-]. cbn. rewrite Hleft. lia.
  - intros Hrest. apply IH in Hrest. cbn [map sum_list] in *. lia.
Qed.

(** A group of one polling task is the task run alone. *)
Lemma join_rounds_single (rounds : nat) loops s :
  (sum_list (map VM.polls_left loops) < rounds)%nat ->
  VM.join_rounds rounds [VM.Polling loops] s = settle (run_loops loops s).
Proof.
  revert loops s. induction rounds as [|rounds IH]; intros loops s Hlt; [lia|].
  rewrite run_loops_resume.
  cbn [VM.join_rounds VM.round VM.resume]. unfold Py.bind at 1 2.
  destruct (VM.resume_loops loops s) as [[[|l rest]|e|] s1] eqn:E.
  - by destruct rounds.
  - unfold Py.ret, Py.bind. cbn [option_list app fst snd].
    apply IH. apply resume_loops_spends in E. lia.
  - by destruct e, rounds.
  - done.
Qed.

Lemma join_single loops s :
  VM.join [VM.Polling loops] s = settle (run_loops loops s).
Proof. apply join_rounds_single. cbn. lia. Qed.

End Alone.

(** The loops of [waitfor_coro] and [waitfor_impl], run on the local
    variables, are those calls on the world when their [coro] does not write
    the variables. *)
Lemma run_loop_waitfor_coro (fuel remaining : nat) (coro : M (VM.Locals Client * World) Data)
      (coro_w : M World Data) (invert : bool) (interval : float) locals w :
  (forall w0, coro (locals, w0) = VM.lift_world coro_w (locals, w0)) ->
  run_loop fuel (VM.mkLoop remaining coro invert (VM.lift_world (asyncio_sleep interval)))
           (locals, w)
  = VM.lift_world (VM.waitfor_coro fuel coro_w invert interval) (locals, w).
Proof.
  intros Hcoro. revert w. induction fuel as [|fuel IH]; intros w; [done|].
  cbn [run_loop VM.waitfor_coro]. unfold VM.poll, Py.bind.
  cbn [VM.loop_coro VM.loop_invert VM.loop_sleep]. rewrite Hcoro.
  unfold VM.lift_world, VM.xor_truthy, Py.bind, Py.or_raise, Py.ret. cbn [fst snd].
  destruct (coro_w w) as [[v|e|] w1]; try done.
  destruct (Value.as_int v) as [n|]; [|done].
  destruct (negb (negb (Z.lxor (if invert then 1 else 0) n =? 0))); [|done].
  cbn [fst snd].
  destruct (asyncio_sleep interval w1) as [[[]|e|] w2]; [apply IH | done | done].
Qed.

Lemma join_waitfor_impl (fuel : nat) (completion : bool) (coro : M (VM.Locals Client * World) Data)
      (coro_w : M World Data) locals w :
  (forall w0, coro (locals, w0) = VM.lift_world coro_w (locals, w0)) ->
  VM.join [VM.waitfor_impl_task fuel completion coro VM.interval_default] (locals, w)
  = settle (VM.lift_world (VM.waitfor_impl fuel completion coro_w VM.interval_default)
                          (locals, w)).
Proof.
  intros Hcoro. unfold VM.waitfor_impl_task. rewrite join_single. f_equal.
  cbn [run_loops VM.polls_left]. unfold Py.bind.
  rewrite (run_loop_waitfor_coro _ _ _ coro_w) by done.
  unfold VM.waitfor_impl, Py.bind, VM.lift_world at 1 3. cbn [fst snd].
  destruct (VM.waitfor_coro fuel coro_w false VM.interval_default w) as [[[]|e|] w1];
    try done.
  destruct completion.
  - cbn [run_loops VM.polls_left]. unfold Py.bind.
    rewrite (run_loop_waitfor_coro _ _ _ coro_w) by done.
    unfold VM.lift_world. cbn [fst snd].
    by destruct (VM.waitfor_coro fuel coro_w true VM.interval_default w1) as [[[]|e|] w2].
  - done.
Qed.

End TaskRuns.

Section Dispatch.
Context {Client World : Type} `{!Provider Client World}.

Implicit Types (self : VM.t Client) (w : World).

(** X7.  The commands [sendkey], [click], [usepotion], [buypotions],
    [relog] and [tozone] compile, each to one [deimos_call] instruction, and
    the machine cannot run any of them: [VM.exec_deimos_call] knows the
    actions [teleport], [goto] and [waitfor] only, so the step fails with
    the machine's error before any client is touched. *)
Theorem compiled_action_without_dispatch
    (polls : nat) (com : Command) (sel : PlayerSelector) self w :
  Command.kind com ∈ [CommandKind.sendkey; CommandKind.click; CommandKind.usepotion;
                      CommandKind.buypotions; CommandKind.relog; CommandKind.tozone] ->
  Command.player_selector com = Some sel ->
  VM.running self = true ->
  getitem (VM.program self) (VM._ip self) = Some (deimos_call_of com) ->
  (forall p, Compiler.compile_command com p = (Ok tt, p ++ [deimos_call_of com]))
  /\ VM.step polls (self, w) = (Raise (VMError "Unimplemented deimos call"), (self, w)).
Proof.
  intros Hkind Hsel Hrun Hget.
  rewrite (step_running _ _ _ (deimos_call_of com) Hrun Hget).
  destruct com as [k args osel]. cbn in Hsel, Hkind. subst osel.
  unfold VM.execute, deimos_call_of, Compiler.compile_command.
  cbn [kind data Command.kind Command.data Command.player_selector
       Command.player_selector_obj].
  repeat (apply elem_of_cons in Hkind as [-> | Hkind]; [by split|]).
  by apply elem_of_nil in Hkind.
Qed.

#[local] Arguments VM._select_players : simpl never.
#[local] Arguments VM.waitfor_impl : simpl never.
#[local] Arguments VM.method_map : simpl never.

(** A [waitfor] instruction for one client and a predicate of the method
    map is the wait of that client. *)
Lemma exec_waitfor_single (fuel : nat) self w (k : WaitforKind.t) (method : string)
      (flag : bool) (sel : PlayerSelector) (client : Client) :
  VM.method_map (DWaitforKind k) = Some method ->
  VM._select_players self sel = [client] ->
  VM.exec_deimos_call fuel self
    (deimos_call_of (mkCommand CommandKind.waitfor [DWaitforKind k; DBool flag] (Some sel))) w
  = settle (VM.waitfor_impl fuel flag (invoke client method []) VM.interval_default w).
Proof.
  intros Hm Hsel.
  unfold VM.exec_deimos_call, deimos_call_of, VM.item, VM.as_selector,
    Py.bind, Py.assert, Py.or_raise, Py.ret.
  simpl. rewrite Hsel.
  unfold VM.exec_waitfor, VM.exec_waitfor_locals, VM.item, Py.bind, Py.assert,
    Py.or_raise, Py.ret.
  simpl. rewrite Hm.
  unfold VM.task_group, VM.for_client_in, VM.store_client, Py.bind, Py.ret.
  cbn [VM.for_clients fst snd]. unfold Py.bind, Py.ret. cbn [fst snd].
  rewrite (join_waitfor_impl fuel flag _ (invoke client method [])).
  - unfold VM.lift_world. cbn [fst snd].
    by destruct (VM.waitfor_impl fuel flag (invoke client method []) VM.interval_default w)
      as [[[]|[]|] w'].
  - intros w0. unfold VM.load_client, Py.bind, Py.or_raise, Py.ret. done.
Qed.

(** The [deimos_call] case of a step. *)
Lemma execute_deimos_call (fuel : nat) self w (i : Instruction) :
  kind i = InstructionKind.deimos_call ->
  VM.execute fuel self i (self, w) =
    match VM.exec_deimos_call fuel self i w with
    | (Ok _, w') => (Ok tt, (VM.set_ip (VM._ip self + 1) self, w'))
    | (Raise e, w') => (Raise e, (self, w'))
    | (Timeout, w') => (Timeout, (self, w'))
    end.
Proof.
  intros Hkind. unfold VM.execute. rewrite Hkind.
  unfold Py.bind, VM.lift, VM.advance, VM.modify_self. cbn [fst snd].
  by destruct (VM.exec_deimos_call fuel self i w) as [[[]|e|] w'].
Qed.

(** X8.  A [waitfor] command with the completion flag compiles to two
    instructions, the wait without the flag and the wait with it, and the
    second starts with the first phase again.  Run on one client, the pair
    polls until the predicate is true, then polls until it is true once
    more, and only then until it is false: a predicate that has turned
    false between the two instructions is waited for a second time. *)
Theorem compiled_waitfor_polls_true_twice
    (fuel : nat) (k : WaitforKind.t) (method : string) (sel : PlayerSelector)
    (client : Client) (p post : list Instruction) self w
    (n1 n2 m : nat) w1 w2 w3 :
  let com := mkCommand CommandKind.waitfor [DWaitforKind k; DBool true] (Some sel) in
  let first :=
    deimos_call_of (mkCommand CommandKind.waitfor [DWaitforKind k; DBool false] (Some sel)) in
  let second := deimos_call_of com in
  let base := Compiler.len p in
  let coro := invoke client method [] in
  VM.method_map (DWaitforKind k) = Some method ->
  VM._select_players self sel = [client] ->
  VM.program self = p ++ [first; second] ++ post ->
  VM._ip self = base ->
  VM.running self = true ->
  polls_until coro VM.interval_default true n1 w w1 ->
  polls_until coro VM.interval_default true n2 w1 w2 ->
  polls_until coro VM.interval_default false m w2 w3 ->
  (n1 <= fuel)%nat -> (n2 <= fuel)%nat -> (m <= fuel)%nat ->
  Compiler.compile_command com p = (Ok tt, p ++ [first; second])
  /\ steps fuel 2 (self, w) =
       Some ((stop_at_end (VM.set_ip (base + 2) self), w3), [base; base + 1]).
Proof.
  intros com first second base coro Hm Hsel Hprog Hip Hrun H1 H2 H3 Hn1 Hn2 Hfuel.
  split.
  { unfold com, first, second, Compiler.compile_command, Compiler.data_at,
      Compiler.emit_deimos_call, Compiler.emit, Py.modify, Py.bind, Py.or_raise, Py.ret,
      deimos_call_of.
    simpl. by rewrite <- app_assoc. }
  assert (Hlen : Z.of_nat (length (VM.program self)) >= base + 2).
  { rewrite Hprog. rewrite !length_app. simpl. unfold base, Compiler.len. lia. }
  assert (Hstep1 : VM.step fuel (self, w) = (Ok tt, (VM.set_ip (base + 1) self, w1))).
  { rewrite (step_running _ _ _ first).
    - rewrite (execute_deimos_call _ _ _ first) by done.
      unfold first. rewrite (exec_waitfor_single _ _ _ k method false sel client) by done.
      unfold VM.waitfor_impl, Py.bind.
      rewrite (waitfor_coro_polls coro VM.interval_default false n1 w w1) by done.
      unfold Py.ret, settle. rewrite Hip. rewrite stop_at_end_inside; [done | lia].
    - done.
    - rewrite Hprog, Hip. simpl. by apply getitem_middle. }
  assert (Hstep2 : VM.step fuel (VM.set_ip (base + 1) self, w1)
                   = (Ok tt, (stop_at_end (VM.set_ip (base + 2) self), w3))).
  { rewrite (step_running _ _ _ second).
    - rewrite (execute_deimos_call _ _ _ second) by done.
      unfold second, com.
      rewrite (exec_waitfor_single _ _ _ k method true sel client) by done.
      unfold VM.waitfor_impl, Py.bind.
      rewrite (waitfor_coro_polls coro VM.interval_default false n2 w1 w2) by done.
      rewrite (waitfor_coro_polls coro VM.interval_default true m w2 w3) by done.
      unfold settle. cbn [VM._ip VM.set_ip].
      replace (base + 1 + 1) with (base + 2) by lia. done.
    - done.
    - cbn [VM.program VM._ip VM.set_ip]. rewrite Hprog.
      replace (p ++ [first; second] ++ post) with ((p ++ [first]) ++ second :: post)
        by (by rewrite <- app_assoc).
      apply getitem_middle. rewrite length_app. simpl. unfold base, Compiler.len. lia. }
  cbn [steps fst]. rewrite Hrun, Hstep1. cbn [fst VM.running VM.set_ip].
  rewrite Hrun, Hstep2. cbn [VM._ip VM.set_ip]. by rewrite Hip.
Qed.

End Dispatch.

Section Status.
Context {Client World : Type} `{!Provider Client World}.

Implicit Types (self : VM.t Client) (w : World).

(** A part of the machine that moving the pointer, pushing and popping
    leave alone, as the flags [running] and [killed] are, is not changed by
    any instruction but [kill]. *)
Lemma frames_execute_not_kill {X} (f : VM.t Client -> X) (fuel : nat) self
      (i : Instruction) :
  (forall (n : Z) self, f (VM.set_ip n self) = f self) ->
  (forall (cs : list Z) self, f (VM.set_callstack cs self) = f self) ->
  kind i <> InstructionKind.kill ->
  frames f (VM.execute fuel self i).
Proof.
  intros f_ip f_callstack Hkill. unfold VM.execute.
  destruct (kind i); try done;
    repeat first
      [ apply frames_bind; [|intros ?]
      | apply frames_ret | apply frames_raise | apply frames_lift
      | apply frames_lift_res | apply frames_or_raise | apply frames_assert
      | apply frames_item | apply frames_as_index | apply frames_as_selector
      | apply frames_get_self | apply frames_advance; assumption
      | apply frames_modify_self; intros; by rewrite ?f_ip, ?f_callstack
      | match goal with |- frames _ (match ?x with _ => _ end) => destruct x end
      | match goal with |- frames _ (if ?x then _ else _) => destruct x end ].
Qed.

Lemma step_flags_of (polls : nat) self w (i : Instruction)
        (r : Res unit) (s' : VM.t Client * World) :
  VM.running self = true ->
  getitem (VM.program self) (VM._ip self) = Some i ->
  VM.step polls (self, w) = (r, s') ->
  if decide (kind i = InstructionKind.kill) then
    VM.killed s'.1 = true /\ VM.running s'.1 = false /\ VM._ip s'.1 = VM._ip self
  else
    VM.killed s'.1 = VM.killed self
    /\ VM.running s'.1 =
         match r with
         | Ok _ => negb (Z.of_nat (length (VM.program self)) <=? VM._ip s'.1)
         | _ => true
         end.
Proof.
  intros Hrun Hget. rewrite (step_running _ _ _ i Hrun Hget).
  destruct (decide (kind i = InstructionKind.kill)) as [Hk|Hk].
  - unfold VM.execute. rewrite Hk. unfold Py.bind, VM.modify_self, VM.lift. cbn [fst snd].
    destruct (logger_debug (DStr "Bot Killed") w) as [[[]|e|] w'];
      intros [= <- <-]; cbn [fst]; unfold stop_at_end;
      try destruct (_ <=? _); done.
  - destruct (VM.execute polls self i (self, w)) as [r0 [self' w']] eqn:E.
    pose proof (frames_execute_not_kill VM.killed polls self i
                  ltac:(done) ltac:(done) Hk _ _ _ E) as Hkilled.
    pose proof (frames_execute_not_kill VM.running polls self i
                  ltac:(done) ltac:(done) Hk _ _ _ E) as Hrunning.
    pose proof (frames_execute_not_kill VM.program polls self i
                  ltac:(done) ltac:(done) Hk _ _ _ E) as Hprogram.
    cbn [fst] in *.
    destruct r0 as [[]|e|]; intros [= <- <-]; cbn [fst]; try (by rewrite Hkilled, Hrunning, Hrun).
    unfold stop_at_end. rewrite Hprogram.
    destruct (Z.of_nat (length (VM.program self)) <=? VM._ip self') eqn:El.
    + cbn. by rewrite El.
    + by rewrite El, Hkilled, Hrunning, Hrun.
Qed.


(** X9.  What a step does to the flags of a running machine.  A [kill]
    sets [killed] and clears [running] and leaves the pointer where it is.
    Any other instruction leaves [killed] as it was; when it fails the
    machine is still marked running, and when it succeeds the machine stops
    exactly if the pointer has reached the end of the program. *)
Theorem step_flags (polls : nat) self w (i : Instruction)
        (r : Res unit) (s' : VM.t Client * World) :
  VM.running self = true ->
  getitem (VM.program self) (VM._ip self) = Some i ->
  VM.step polls (self, w) = (r, s') ->
  if decide (kind i = InstructionKind.kill) then
    VM.killed s'.1 = true /\ VM.running s'.1 = false /\ VM._ip s'.1 = VM._ip self
  else
    VM.killed s'.1 = VM.killed self
    /\ VM.running s'.1 =
         match r with
         | Ok _ => negb (Z.of_nat (length (VM.program self)) <=? VM._ip s'.1)
         | _ => true
         end.
Proof.
  intros Hrun Hget. rewrite (step_running _ _ _ i Hrun Hget).
  destruct (decide (kind i = InstructionKind.kill)) as [Hk|Hk].
  - unfold VM.execute. rewrite Hk. unfold Py.bind, VM.modify_self, VM.lift. cbn [fst snd].
    destruct (logger_debug (DStr "Bot Killed") w) as [[[]|e|] w'];
      intros [= <- <-]; cbn [fst]; unfold stop_at_end;
      try destruct (_ <=? _); done.
  - destruct (VM.execute polls self i (self, w)) as [r0 [self' w']] eqn:E.
    pose proof (frames_execute_not_kill VM.killed polls self i
                  ltac:(done) ltac:(done) Hk _ _ _ E) as Hkilled.
    pose proof (frames_execute_not_kill VM.running polls self i
                  ltac:(done) ltac:(done) Hk _ _ _ E) as Hrunning.
    pose proof (frames_execute_not_kill VM.program polls self i
                  ltac:(done) ltac:(done) Hk _ _ _ E) as Hprogram.
    cbn [fst] in *.
    destruct r0 as [[]|e|]; intros [= <- <-]; cbn [fst]; try (by rewrite Hkilled, Hrunning, Hrun).
    unfold stop_at_end. rewrite Hprogram.
    destruct (Z.of_nat (length (VM.program self)) <=? VM._ip self') eqn:El.
    + cbn. by rewrite El.
    + by rewrite El, Hkilled, Hrunning, Hrun.
Qed.

End Status.

(** * Further properties of selector resolution and expressions *)

Section SelectionMore.
Context {Client World : Type} `{!Provider Client World}.

Implicit Types (self : VM.t Client) (w : World).

Lemma map_snd_imap (g : nat -> Z) (l : list Client) :
  map snd (imap (fun i a => (g i, a)) l) = l.
Proof.
  revert g. induction l as [|a l IH]; intros g; [done|].
  cbn. f_equal. apply (IH (g ∘ S)).
Qed.

Lemma map_snd_enumerate (l : list Client) : map snd (enumerate l) = l.
Proof. apply (map_snd_imap Z.of_nat). Qed.

Lemma filter_complement {A} (q : A -> bool) (l : list A) :
  List.filter q l ++ List.filter (fun a => negb (q a)) l ≡ₚ l.
Proof.
  induction l as [|a l IH]; [done|]. simpl. destruct (q a); simpl.
  - by rewrite IH.
  - rewrite <- Permutation_middle. by rewrite IH.
Qed.

Lemma filter_sublist {A} (q : A -> bool) (l : list A) : List.filter q l `sublist_of` l.
Proof.
  induction l as [|a l IH]; [done|]. simpl. destruct (q a).
  - by apply sublist_skip.
  - by apply sublist_cons.
Qed.

Lemma select_players_sublist (self : VM.t Client) (selector : PlayerSelector) :
  VM._select_players self selector `sublist_of` VM._clients self.
Proof.
  rewrite select_players_filter. destruct (mass selector); [done|].
  rewrite <- (map_snd_enumerate (VM._clients self)) at 2.
  apply (fmap_sublist snd), filter_sublist.
Qed.

(** X10.  A selector and its inversion share the clients between them.
    For every client list and every set of indices, the clients selected
    without inversion and those selected with it are each a sublist of the
    client list, in its order, and the first followed by the second is a
    rearrangement of the whole list: no client is lost and none is selected
    by both. *)
Theorem selection_and_inversion_partition (self : VM.t Client) (nums : gset Z) :
  let plain :=
    VM._select_players self {| mass := false; inverted := false; player_nums := nums |} in
  let others :=
    VM._select_players self {| mass := false; inverted := true; player_nums := nums |} in
  plain `sublist_of` VM._clients self
  /\ others `sublist_of` VM._clients self
  /\ plain ++ others ≡ₚ VM._clients self
  /\ (length plain + length others = length (VM._clients self))%nat.
Proof.
  intros plain others.
  assert (Hperm : plain ++ others ≡ₚ VM._clients self).
  { unfold plain, others. rewrite !select_players_filter. cbn [mass].
    rewrite <- (map_snd_enumerate (VM._clients self)) at 3.
    rewrite <- map_app. apply Permutation_map.
    rewrite <- (filter_complement
                  (keeps {| mass := false; inverted := false; player_nums := nums |})
                  (enumerate (VM._clients self))) at 3.
    done. }
  split; [apply select_players_sublist|]. split; [apply select_players_sublist|].
  split; [done|].
  by rewrite <- (Permutation_length Hperm), length_app.
Qed.

Lemma select_index (k : Z) (g : nat -> Z) (l : list Client) (j : nat) :
  (forall i, g i = k <-> i = j) ->
  map snd (List.filter (fun ic : Z * Client => bool_decide (ic.1 ∈ ({[k]} : gset Z)))
             (imap (fun i a => (g i, a)) l))
  = option_list (l !! j).
Proof.
  revert g j. induction l as [|a l IH]; intros g j Hg; [done|].
  cbn [imap List.filter fst].
  destruct j as [|j].
  - rewrite bool_decide_eq_true_2 by (apply elem_of_singleton; by apply Hg).
    cbn. f_equal.
    assert (Hnone : forall (h : nat -> Z) (m : list Client),
               (forall i, h i <> k) ->
               map snd (List.filter
                          (fun ic : Z * Client => bool_decide (ic.1 ∈ ({[k]} : gset Z)))
                          (imap (fun i a => (h i, a)) m)) = []).
    { intros h m. revert h. induction m as [|b m IHm]; intros h Hh; [done|].
      cbn [imap List.filter fst].
      rewrite bool_decide_eq_false_2 by (rewrite elem_of_singleton; apply Hh).
      apply (IHm (h ∘ S)). intros i. apply Hh. }
    apply (Hnone (g ∘ S)). intros i Hi. apply Hg in Hi. done.
  - rewrite bool_decide_eq_false_2
      by (rewrite elem_of_singleton; intros Hi; by apply Hg in Hi).
    apply (IH (g ∘ S) j). intros i. cbn. rewrite Hg. lia.
Qed.

(** X11.  The two ways of naming a player agree up to the base of the
    count: [player_by_num] counts from 1, selectors from 0.  For [num]
    between 1 and the number of clients, the selector of the single index
    [num - 1] selects exactly the client that [player_by_num num] returns. *)
Theorem player_by_num_is_selector_of_pred (self : VM.t Client) (num : Z) :
  1 <= num <= Z.of_nat (length (VM._clients self)) ->
  exists c,
    VM.player_by_num self num = Ok c
    /\ VM._select_players self
         {| mass := false; inverted := false; player_nums := {[num - 1]} |} = [c].
Proof.
  intros Hr. destruct (player_by_num_in_range self num Hr) as (c & Hc & Hp).
  exists c. split; [done|].
  rewrite select_players_filter. cbn [mass].
  transitivity (option_list (VM._clients self !! Z.to_nat (num - 1))); [|by rewrite Hc].
  apply (select_index (num - 1) Z.of_nat (VM._clients self) (Z.to_nat (num - 1))).
  intros i. lia.
Qed.

(** X12.  A condition over the clients of a selector holds when the
    selector selects nobody: [window_visible] and [in_zone] ask each
    selected client and answer true when none said no, so with an empty
    selection they evaluate to [True] without asking anyone. *)
Theorem condition_on_nobody_holds
    (self : VM.t Client) (k : ExprKind.t) (args : list Data) (sel : PlayerSelector) w :
  k = ExprKind.window_visible \/ k = ExprKind.in_zone ->
  VM._select_players self sel = [] ->
  VM.eval self
    (CommandExpression (mkCommand CommandKind.expr (DExprKind k :: args) (Some sel))) None w
  = (Ok (DBool true), w).
Proof.
  intros Hk Hsel. cbn [VM.eval]. unfold VM._eval_command_expression.
  cbn [Command.kind Command.data Command.player_selector].
  unfold Py.bind, Py.assert, Py.or_raise, Py.ret. cbn [getitem].
  replace (0 <=? 0) with true by done. cbn [Z.to_nat lookup list_lookup].
  rewrite Hsel. by destruct Hk as [-> | ->].
Qed.

End SelectionMore.

(** * Further properties of the task watcher *)

Section WatchingMore.
Import TaskWatcher.

Implicit Types (self : TaskWatcher.t) (loop : EventLoop) (task : Task).

Lemma remove_absent (task : Task) (tasks : list Task) :
  task ∉ tasks -> remove task tasks = None.
Proof.
  induction tasks as [|x tasks IH]; intros Hnot; [done|].
  apply not_elem_of_cons in Hnot as [Hne Hnot]. simpl.
  rewrite decide_False by done. by rewrite IH.
Qed.

Lemma remove_Some_perm (task : Task) (tasks rest : list Task) :
  remove task tasks = Some rest -> tasks ≡ₚ task :: rest.
Proof.
  revert rest. induction tasks as [|x tasks IH]; intros rest; [done|]. simpl.
  destruct (decide (x = task)) as [->|Hne].
  - by intros [= <-].
  - destruct (remove task tasks) as [r|]; [|done]. intros [= <-].
    rewrite (IH r eq_refl). apply perm_swap.
Qed.

Lemma set_tasks_same self : set_tasks (_tasks self) self = self.
Proof. by destruct self. Qed.

(** X13.  Starting a task through the watcher and unregistering it again
    leaves the watch list as it was and the task cancelled: [new_task]
    registers the new task of the event loop last, [unregister] requests its
    cancellation (it cannot be done yet) and removes it. *)
Theorem new_task_then_unregister self loop (coro : Coroutine) :
  Forall (fun task => (task < length loop)%nat) (_tasks self) ->
  (task <- TaskWatcher.new_task coro;; TaskWatcher.unregister task) (self, loop)
  = (Ok tt, (self, loop ++ [(coro, pending true)])).
Proof.
  intros Hold.
  assert (Hnot : length loop ∉ _tasks self).
  { intros Hin. rewrite list.Forall_forall in Hold. specialize (Hold _ Hin). lia. }
  unfold TaskWatcher.new_task, TaskWatcher.unregister, TaskWatcher.register,
    TaskWatcher.get_loop, TaskWatcher.get_self, TaskWatcher.modify_loop,
    TaskWatcher.modify_self, create_task, Py.bind, Py.ret, Py.or_raise.
  cbn [fst snd _tasks set_tasks].
  unfold done, state_of, cancel, EventLoop in *. rewrite list_lookup_middle by done.
  cbn [from_option snd negb fst].
  rewrite list_lookup_middle by done. cbn [fst snd _tasks set_tasks].
  rewrite (remove_middle (length loop) (_tasks self) []) by done.
  rewrite app_nil_r.
  replace (<[length loop:=(coro, pending true)]> (loop ++ [(coro, pending false)]))
    with (loop ++ [(coro, pending true)]).
  - by destruct self.
  - rewrite insert_app_r_alt by lia. by rewrite Nat.sub_diag.
Qed.

(** X14.  Unregistering a task that is not on the watch list fails with
    the [ValueError] of [list.remove] and leaves the list as it was; a task
    that was not done has had its cancellation requested all the same, since
    the cancellation comes first. *)
Theorem unregister_absent_cancels_first self loop task :
  task ∉ _tasks self ->
  TaskWatcher.unregister task (self, loop)
  = (Raise ValueError, (self, if done loop task then loop else cancel task loop)).
Proof.
  intros Hnot.
  unfold TaskWatcher.unregister, TaskWatcher.get_loop, TaskWatcher.get_self,
    TaskWatcher.modify_loop, Py.bind, Py.ret, Py.or_raise.
  cbn [fst snd]. destruct (done loop task); cbn [negb fst snd];
    by rewrite remove_absent.
Qed.

(** X15.  A successful [unregister] takes exactly one registration of the
    task off the watch list and keeps every other entry: the list before is
    a rearrangement of the task and the list after.  A task registered twice
    is still registered once. *)
Theorem unregister_removes_one self loop task (s' : TaskWatcher.t * EventLoop) :
  TaskWatcher.unregister task (self, loop) = (Ok tt, s') ->
  _tasks self ≡ₚ task :: _tasks s'.1
  /\ _running s'.1 = _running self
  /\ _selftask s'.1 = _selftask self.
Proof.
  unfold TaskWatcher.unregister, TaskWatcher.get_loop, TaskWatcher.get_self,
    TaskWatcher.modify_loop, TaskWatcher.modify_self, Py.bind, Py.ret, Py.or_raise.
  cbn [fst snd].
  destruct (done loop task); cbn [negb fst snd];
    destruct (remove task (_tasks self)) as [rest|] eqn:E; try done;
    intros [= <-]; cbn; by rewrite (remove_Some_perm _ _ _ E).
Qed.

(** X16.  A registered task that was cancelled, and before which no
    task of the list has failed or was cancelled, makes the tick raise
    [CancelledError]: asking a cancelled task for its exception raises, and
    the tick does not catch it. *)
Theorem tick_raises_cancelled self loop (before after : list Task) task :
  _tasks self = before ++ task :: after ->
  Forall (quiet loop) before ->
  state_of loop task = finished cancelled ->
  TaskWatcher._tick (self, loop) = (Raise CancelledError, (self, loop)).
Proof.
  intros Htasks Hquiet Hstate.
  unfold TaskWatcher._tick, TaskWatcher.get_self, Py.bind. cbn [fst snd].
  rewrite Htasks, _tick_loop_quiet by done.
  cbn [_tick_loop]. unfold Py.bind, TaskWatcher.get_loop, Py.lift_res. cbn [fst snd].
  unfold done, task_exception. by rewrite Hstate.
Qed.

End WatchingMore.

(** * The bot context (questing.py) *)

Module BotStepResult.
Inductive t : Type := step | loop.
End BotStepResult.

Module BotCtx.
Section Bot.
Context {Client World : Type} `{!Provider Client World}.

(** The fields of a [BotCtx] that [BotCtx.step] reads and writes.  The
    quester, whose teleport callback [parse_command] receives, acts on the
    world outside the context. *)
Record t : Type := mk {
  client : Client;
  line_idx : Z;
  code_lines : list string
}.

(** [BotCtx.__init__], given the stripped, non-blank lines of the bot's
    code. *)
Definition __init__ (client : Client) (code_lines : list string) : t :=
  {| client := client; line_idx := 0; code_lines := code_lines |}.

Definition set_line_idx (i : Z) (self : t) : t :=
  {| client := client self; line_idx := i; code_lines := code_lines self |}.

Definition get_self : M (t * World) t := fun s => (Ok s.1, s).
Definition modify_self (f : t -> t) : M (t * World) unit := fun s => (Ok tt, (f s.1, s.2)).
Definition lift {A} (m : M World A) : M (t * World) A :=
  fun s => let '(r, w) := m s.2 in (r, (s.1, w)).

(** [BotCtx.step]; [parse_command] is the command interpreter of
    [src.command_parser], an operation on the client. *)
Definition step : M (t * World) BotStepResult.t :=
  self <- get_self;;
  let result := BotStepResult.step in
  instruction_line <- or_raise IndexError (getitem (code_lines self) (line_idx self));;
  modify_self (fun self => set_line_idx (line_idx self + 1) self);;;
  self <- get_self;;
  result <- (if Z.of_nat (length (code_lines self)) <=? line_idx self then
               modify_self (set_line_idx 0);;; Py.ret BotStepResult.loop
             else Py.ret result);;
  lift (invoke (client self) "parse_command" [DStr instruction_line]);;;
  Py.ret result.

End Bot.
Arguments t : clear implicits.
End BotCtx.

Section BotLines.
Context {Client World : Type} `{!Provider Client World}.

Implicit Types (self : BotCtx.t Client) (w : World).

(** The line a step leaves the context on. *)
Definition next_line self : Z :=
  if Z.of_nat (length (BotCtx.code_lines self)) <=? BotCtx.line_idx self + 1 then 0
  else BotCtx.line_idx self + 1.

Lemma bot_step_eq self w (line : string) :
  getitem (BotCtx.code_lines self) (BotCtx.line_idx self) = Some line ->
  BotCtx.step (self, w) =
    let self' := BotCtx.set_line_idx (next_line self) self in
    let result := if Z.of_nat (length (BotCtx.code_lines self)) <=? BotCtx.line_idx self + 1
                  then BotStepResult.loop else BotStepResult.step in
    match invoke (BotCtx.client self) "parse_command" [DStr line] w with
    | (Ok _, w') => (Ok result, (self', w'))
    | (Raise e, w') => (Raise e, (self', w'))
    | (Timeout, w') => (Timeout, (self', w'))
    end.
Proof.
  intros Hline. unfold BotCtx.step, BotCtx.get_self, BotCtx.modify_self, BotCtx.lift,
    Py.bind, Py.or_raise, Py.ret, next_line.
  cbn [fst snd]. rewrite Hline.
  cbn [fst snd BotCtx.code_lines BotCtx.line_idx BotCtx.client BotCtx.set_line_idx].
  destruct (Z.of_nat (length (BotCtx.code_lines self)) <=? BotCtx.line_idx self + 1);
    cbn [fst snd BotCtx.client BotCtx.set_line_idx];
    by destruct (invoke (BotCtx.client self) "parse_command" [DStr line] w) as [[?|?|] ?].
Qed.

Lemma next_line_mod self :
  0 <= BotCtx.line_idx self < Z.of_nat (length (BotCtx.code_lines self)) ->
  next_line self = (BotCtx.line_idx self + 1) mod Z.of_nat (length (BotCtx.code_lines self)).
Proof.
  intros Hr. unfold next_line.
  destruct (Z.leb_spec (Z.of_nat (length (BotCtx.code_lines self))) (BotCtx.line_idx self + 1)).
  - replace (BotCtx.line_idx self + 1) with (Z.of_nat (length (BotCtx.code_lines self))) by lia.
    by rewrite Z_mod_same_full.
  - by rewrite Z.mod_small by lia.
Qed.

Lemma bot_step_state self w :
  0 <= BotCtx.line_idx self < Z.of_nat (length (BotCtx.code_lines self)) ->
  (BotCtx.step (self, w)).2.1 = BotCtx.set_line_idx (next_line self) self.
Proof.
  intros Hr.
  destruct (lookup_lt_is_Some_2 (BotCtx.code_lines self) (Z.to_nat (BotCtx.line_idx self)))
    as [line Hline]; [lia|].
  rewrite (bot_step_eq self w line).
  - cbv zeta.
    by destruct (invoke (BotCtx.client self) "parse_command" [DStr line] w) as [[?|?|] ?].
  - unfold getitem. replace (0 <=? BotCtx.line_idx self) with true; [done|].
    symmetry. apply Z.leb_le. lia.
Qed.

(** X17.  A bot context walks its code lines in a cycle.  With the line
    index inside the list, a step hands the current line to the command
    interpreter and moves the index to the next line, back to 0 after the
    last one, whether the command succeeds or fails; it returns [loop] exactly
    when it has wrapped.  After any number of steps the index is the start
    index plus that number, modulo the number of lines. *)
Theorem bot_lines_cycle self w :
  0 <= BotCtx.line_idx self < Z.of_nat (length (BotCtx.code_lines self)) ->
  let len := Z.of_nat (length (BotCtx.code_lines self)) in
  (forall (n : nat),
     let s := Nat.iter n (fun s => (BotCtx.step s).2) (self, w) in
     BotCtx.line_idx s.1 = (BotCtx.line_idx self + Z.of_nat n) mod len
     /\ BotCtx.code_lines s.1 = BotCtx.code_lines self
     /\ BotCtx.client s.1 = BotCtx.client self)
  /\ (forall result,
        (BotCtx.step (self, w)).1 = Ok result ->
        (result = BotStepResult.loop <-> BotCtx.line_idx self = len - 1))
  /\ (exists line,
        BotCtx.code_lines self !! Z.to_nat (BotCtx.line_idx self) = Some line
        /\ (BotCtx.step (self, w)).2.2
           = (invoke (BotCtx.client self) "parse_command" [DStr line] w).2).
Proof.
  intros Hr len. split; [|split].
  - intros n. induction n as [|n IH].
    + cbn. rewrite Z.add_0_r, Z.mod_small by done. done.
    + cbn zeta in *. destruct IH as (Hidx & Hlines & Hclient).
      rewrite Nat.iter_succ.
      destruct (Nat.iter n (fun s => (BotCtx.step s).2) (self, w)) as [self_n w_n].
      cbn [fst] in *.
      assert (Hrn : 0 <= BotCtx.line_idx self_n
                    < Z.of_nat (length (BotCtx.code_lines self_n))).
      { rewrite Hidx, Hlines. apply Z.mod_pos_bound. lia. }
      rewrite (bot_step_state self_n w_n Hrn).
      cbn [BotCtx.line_idx BotCtx.code_lines BotCtx.client BotCtx.set_line_idx].
      repeat split; try done.
      rewrite (next_line_mod self_n Hrn), Hidx, Hlines. fold len.
      rewrite Zplus_mod_idemp_l. f_equal. lia.
  - intros result.
    destruct (lookup_lt_is_Some_2 (BotCtx.code_lines self) (Z.to_nat (BotCtx.line_idx self)))
      as [line Hline]; [lia|].
    rewrite (bot_step_eq self w line).
    + cbv zeta.
      destruct (invoke (BotCtx.client self) "parse_command" [DStr line] w) as [[?|?|] ?];
        cbn [fst]; try done.
      destruct (Z.leb_spec (Z.of_nat (length (BotCtx.code_lines self)))
                           (BotCtx.line_idx self + 1));
        intros [= <-]; split; try done; unfold len; lia.
    + unfold getitem. replace (0 <=? BotCtx.line_idx self) with true; [done|].
      symmetry. apply Z.leb_le. lia.
  - destruct (lookup_lt_is_Some_2 (BotCtx.code_lines self) (Z.to_nat (BotCtx.line_idx self)))
      as [line Hline]; [lia|].
    exists line. split; [done|].
    rewrite (bot_step_eq self w line).
    + cbv zeta.
      by destruct (invoke (BotCtx.client self) "parse_command" [DStr line] w) as [[?|?|] ?].
    + unfold getitem. replace (0 <=? BotCtx.line_idx self) with true; [done|].
      symmetry. apply Z.leb_le. lia.
Qed.

(** X18.  A bot without code lines cannot step: whatever its line
    index, the step fails with the [IndexError] of reading the line, before
    the command interpreter is called, and changes nothing. *)
Theorem bot_without_lines_fails (client : Client) (idx : Z) w :
  let self := {| BotCtx.client := client; BotCtx.line_idx := idx; BotCtx.code_lines := [] |} in
  BotCtx.step (self, w) = (Raise IndexError, (self, w)).
Proof.
  intros self.
  assert (Hnone : getitem (BotCtx.code_lines self) (BotCtx.line_idx self) = None).
  { unfold getitem. cbn [self BotCtx.code_lines BotCtx.line_idx length].
    rewrite !lookup_nil. by repeat case_match. }
  unfold BotCtx.step, BotCtx.get_self, Py.bind, Py.or_raise.
  cbn [fst snd]. by rewrite Hnone.
Qed.

End BotLines.

(** * Whole runs of the machine *)

Section Runs.
Context {Client World : Type} `{!Provider Client World}.

Implicit Types (self : VM.t Client) (w : World).

(** A running machine whose pointer is no index of the program fails on
    reading the instruction. *)
Lemma step_out_of_range (polls : nat) self w :
  VM.running self = true ->
  getitem (VM.program self) (VM._ip self) = None ->
  VM.step polls (self, w) = (Raise IndexError, (self, w)).
Proof.
  intros Hrun Hget. unfold VM.step, VM.get_self, Py.bind, Py.or_raise. cbn [fst snd].
  by rewrite Hrun, Hget.
Qed.

(** X19.  A machine without a program cannot run: [VM.run] marks the
    machine running and the first step reads the instruction under the
    pointer before anything checks the pointer against the end of the
    program, so the run fails with [IndexError] and leaves the machine marked
    running. *)
Theorem run_empty_program_fails (polls fuel : nat) self w :
  VM.program self = [] ->
  VM.run polls (S fuel) (self, w) = (Raise IndexError, (VM.set_running true self, w)).
Proof.
  intros Hprog. unfold VM.run, VM.modify_self, Py.bind at 1. cbn [fst snd VM.run_loop].
  unfold Py.bind at 1, VM.get_self. cbn [fst snd VM.running VM.set_running].
  unfold Py.bind at 1.
  rewrite step_out_of_range; [done | done |].
  cbn [VM.program VM.set_running VM._ip]. rewrite Hprog.
  unfold getitem. cbn [length]. rewrite !lookup_nil. by repeat case_match.
Qed.

(** A machine that the steps have stopped was killed or has its pointer
    behind the program. *)
Lemma steps_stopped (polls n : nat) (s s' : VM.t Client * World) (ips : list Z) :
  steps polls n s = Some (s', ips) ->
  VM.running s.1 = true ->
  VM.running s'.1 = false ->
  VM.killed s'.1 = true \/ Z.of_nat (length (VM.program s.1)) <= VM._ip s'.1.
Proof.
  revert s ips. induction n as [|n IH]; intros [self w] ips; cbn [steps fst].
  - intros [= <- <-] Hrun Hstop. cbn [fst] in Hstop. congruence.
  - intros Hsteps Hrun Hstop. rewrite Hrun in Hsteps.
    destruct (VM.step polls (self, w)) as [[[]|e|] s1] eqn:Estep; try done.
    destruct (steps polls n s1) as [[s2 ips']|] eqn:Erest; try done.
    injection Hsteps as -> <-.
    pose proof (step_program _ _ _ _ Estep) as Hprog. cbn [fst] in Hprog.
    destruct (VM.running s1.1) eqn:Erun1.
    + rewrite <- Hprog. by apply (IH s1 ips').
    + assert (s' = s1) as ->.
      { destruct n; cbn [steps] in Erest; [congruence|]. by rewrite Erun1 in Erest. }
      destruct (getitem (VM.program self) (VM._ip self)) as [i|] eqn:Eget.
      * pose proof (step_flags_of polls self w i _ _ Hrun Eget Estep) as Hflags.
        destruct (decide (kind i = InstructionKind.kill)).
        -- left. apply Hflags.
        -- right. destruct Hflags as [_ Hflag]. rewrite Erun1 in Hflag.
           symmetry in Hflag. apply negb_false_iff, Z.leb_le in Hflag. done.
      * by rewrite step_out_of_range in Estep.
Qed.

(** X20.  [VM.run] is the iteration of [VM.step]: when the steps of the
    machine, marked running, stop it after [n] of them, the run returns with
    the state those steps have reached, for every bound on the steps above
    [n].  The program is the one the run started with, and the machine was
    killed or has its pointer behind the last instruction.  The run does not
    move the pointer to the start and does not clear [killed]: it continues
    from where the machine is. *)
Theorem run_returns_where_steps_stop
    (polls n k : nat) self w (s' : VM.t Client * World) (ips : list Z) :
  steps polls n (VM.set_running true self, w) = Some (s', ips) ->
  VM.running s'.1 = false ->
  VM.run polls (n + S k) (self, w) = (Ok tt, s')
  /\ VM.program s'.1 = VM.program self
  /\ head ips = Some (VM._ip self)
  /\ (VM.killed s'.1 = true \/ Z.of_nat (length (VM.program self)) <= VM._ip s'.1).
Proof.
  intros Hsteps Hstop. split; [|split; [|split]].
  - unfold VM.run, VM.modify_self, Py.bind at 1. cbn [fst snd].
    rewrite (steps_run_loop polls n (S k) _ _ _ Hsteps).
    cbn [VM.run_loop]. unfold Py.bind, VM.get_self. cbn [fst snd].
    destruct s' as [self' w']. cbn [fst] in *. by rewrite Hstop.
  - by rewrite (steps_program _ _ _ _ _ Hsteps).
  - destruct n; cbn [steps fst VM.running VM.set_running] in Hsteps.
    + injection Hsteps as <- <-. done.
    + destruct (VM.step polls _) as [[[]|e|] s1]; try done.
      destruct (steps polls n s1) as [[s2 ips']|]; try done.
      by injection Hsteps as <- <-.
  - by apply (steps_stopped polls n (VM.set_running true self, w) s' ips).
Qed.

(** X21.  The statements [$var = expr] and [$var--] and the command
    [load_playstyle] compile, each to one instruction, and the machine has no
    case for any of them: a program that starts with one fails at its first
    step with the machine's error, whatever follows. *)
Theorem variables_compile_but_do_not_run
    (polls fuel : nat) (stmt : Stmt) (rest : list Stmt) (prog : list Instruction)
    (clients : list Client) w :
  (exists id expr, stmt = SetVarStmt id expr)
  \/ (exists id, stmt = DecVarStmt id)
  \/ (exists d ds sel,
        stmt = CommandStmt (mkCommand CommandKind.load_playstyle (d :: ds) sel)) ->
  Compiler.compile (stmt :: rest) = Ok prog ->
  (exists i, Compiler.compile [stmt] = Ok [i])
  /\ VM.run polls (S fuel) (VM.set_program prog (VM.__init__ clients), w)
     = (Raise (VMError "Unimplemented instruction"),
        (VM.set_running true (VM.set_program prog (VM.__init__ clients)), w)).
Proof.
  intros Hstmt Hc.
  assert (Hone : exists i, Compiler.compile [stmt] = Ok [i]
                           /\ kind i ∈ [InstructionKind.enter_until;
                                        InstructionKind.load_playstyle;
                                        InstructionKind.set_var; InstructionKind.dec_var;
                                        InstructionKind.nop]).
  { destruct Hstmt as [(id & expr & ->) | [(id & ->) | (d & ds & sel & ->)]].
    - eexists. split; [reflexivity|]. cbn. set_solver.
    - eexists. split; [reflexivity|]. cbn. set_solver.
    - eexists. split; [reflexivity|]. cbn. set_solver. }
  destruct Hone as (i & Hi & Hkind). split; [by exists i|].
  change (stmt :: rest) with ([stmt] ++ rest) in Hc.
  rewrite compile_concat, Hi in Hc.
  destruct (Compiler.compile rest) as [pb|e|]; try done. injection Hc as <-.
  unfold VM.run, VM.modify_self, Py.bind at 1. cbn [fst snd VM.run_loop].
  unfold Py.bind at 1, VM.get_self. cbn [fst snd VM.running VM.set_running].
  unfold Py.bind at 1.
  by rewrite (step_unimplemented polls _ w i).
Qed.

End Runs.

(** * The clients a wait polls *)

Section LateBinding.
Context {Client World : Type} `{!Provider Client World}.

(** A loop over the clients whose body creates the same task every time
    gives that task once for every client and leaves the last client in the
    variable [client]. *)
Lemma for_client_in_const (task : VM.Task (VM.Locals Client * World))
      (clients : list Client) (locals : VM.Locals Client) (w : World) :
  VM.for_client_in clients (Py.ret task) (locals, w)
  = (Ok (replicate (length clients) task),
     (VM.mkLocals (match list.last clients with
                   | Some c => Some c
                   | None => VM.local_client locals
                   end)
                  (VM.local_starting_zone locals), w)).
Proof.
  revert locals. induction clients as [|c clients IH]; intros locals.
  - by destruct locals.
  - unfold VM.for_client_in in *. cbn [VM.for_clients].
    unfold Py.bind at 1 2, VM.store_client, Py.ret at 1. cbn [fst snd].
    unfold Py.bind at 1. rewrite IH.
    rewrite last_cons. cbn [length replicate VM.local_client VM.local_starting_zone].
    unfold Py.ret. by destruct (list.last clients).
Qed.

(** X22.  The waits for a dialog, a battle, a free client and a window
    poll one client only.  The task of each selected client calls a [proxy]
    that reads the variable [client] when it is called, and the tasks run
    when the loop over the clients has ended: such a wait depends on the
    selected clients through their number and the last of them only.
    Selecting [cs ++ [c]] waits as selecting [c] once for each of them does,
    and no client of [cs] is asked. *)
Theorem waitfor_polls_last_client
    (fuel : nat) (i : Instruction) (d0 d1 : Data) (k : WaitforKind.t) (rest : list Data)
    (cs ds : list Client) (c : Client) w :
  data i = DList [d0; d1; DList (DWaitforKind k :: rest)] ->
  k <> WaitforKind.zonechange ->
  (length cs = length ds ->
   list.last cs = list.last ds ->
   VM.exec_waitfor fuel i cs w = VM.exec_waitfor fuel i ds w)
  /\ VM.exec_waitfor fuel i (cs ++ [c]) w
     = VM.exec_waitfor fuel i (replicate (S (length cs)) c) w.
Proof.
  intros Hdata Hk.
  assert (Hsame : forall xs ys : list Client,
             length xs = length ys -> list.last xs = list.last ys ->
             VM.exec_waitfor fuel i xs w = VM.exec_waitfor fuel i ys w).
  { intros xs ys Hlen Hlast.
    unfold VM.exec_waitfor, VM.exec_waitfor_locals. rewrite Hdata.
    unfold Py.bind.
    change (VM.item (DList [d0; d1; DList (DWaitforKind k :: rest)]) 2
              (VM.mkLocals None None, w))
      with (Ok (DList (DWaitforKind k :: rest)), (VM.mkLocals (Client:=Client) None None, w)).
    cbn iota.
    destruct (VM.item _ (-1) _) as [[completion|e|] s2]; try done.
    destruct (Py.assert _ s2) as [[[]|e|] s3]; try done.
    change (VM.item (DList (DWaitforKind k :: rest)) 0 s3) with (Ok (DWaitforKind k), s3).
    cbn iota. destruct s3 as [locals w3].
    destruct k; try done; cbn [VM.method_map]; unfold VM.task_group, Py.bind;
      try (by rewrite !for_client_in_const, Hlen, Hlast).
    destruct (VM.item _ 1 _) as [[window_path|e|] [locals4 w4]]; try done.
    by rewrite !for_client_in_const, Hlen, Hlast. }
  split; [apply Hsame|].
  apply Hsame.
  - rewrite length_app, length_replicate. simpl. lia.
  - rewrite last_snoc. clear. induction (length cs) as [|n IH]; [done|].
    rewrite (replicate_S (S n)), last_cons. by rewrite <- IH.
Qed.

End LateBinding.

(** * The further properties on the scripted world *)

(** ** Compiled blocks *)

Definition while_stmt : Stmt := WhileStmt window_visible [sleep_stmt 1].

Definition while_program : list Instruction :=
  [mkInstruction InstructionKind.jump_ifn (DList [DExpr window_visible; DInt 3]);
   mkInstruction InstructionKind.sleep (DExpr (NumberExpression 1));
   mkInstruction InstructionKind.jump_if (DList [DExpr window_visible; DInt (-1)]);
   mkInstruction InstructionKind.nop DNone].

Definition loop_stmt : Stmt := LoopStmt [sleep_stmt 1].

Definition loop_program : list Instruction :=
  [mkInstruction InstructionKind.sleep (DExpr (NumberExpression 1));
   mkInstruction InstructionKind.jump (DInt (-1))].

Definition def_stmt : Stmt := BlockDefStmt "a" [sleep_stmt 1].

Definition def_program : list Instruction :=
  [mkInstruction InstructionKind.jump (DInt 4);
   mkInstruction InstructionKind.label (DStr "a");
   mkInstruction InstructionKind.sleep (DExpr (NumberExpression 1));
   mkInstruction InstructionKind.ret DNone;
   mkInstruction InstructionKind.nop DNone].

(** The back jump of the [while] inside [while_stmt; loop_stmt] stays in
    the program. *)
Lemma compiled_jumps_in_range_witness :
  Compiler.compile [while_stmt; loop_stmt] = Ok (while_program ++ loop_program)
  /\ 0 <= Z.of_nat 2 + -1 <= Z.of_nat (length (while_program ++ loop_program))
  /\ 0 <= Z.of_nat 5 + -1 <= Z.of_nat (length (while_program ++ loop_program)).
Proof.
  split; [reflexivity|]. split.
  - exact (compiled_jumps_in_range [while_stmt; loop_stmt] (while_program ++ loop_program)
             eq_refl 2%nat _ (-1) eq_refl eq_refl).
  - exact (compiled_jumps_in_range [while_stmt; loop_stmt] (while_program ++ loop_program)
             eq_refl 5%nat _ (-1) eq_refl eq_refl).
Defined.

Lemma while_tests_before_each_round_witness :
  Compiler.compile_stmt while_stmt [] = (Ok tt, while_program)
  /\ VM.step 0 (started [0%nat] while_program, script [DBool true])
     = (Ok tt, (VM.set_ip 1 (started [0%nat] while_program), asked))
  /\ VM.step 0 (VM.set_ip 2 (started [0%nat] while_program), script [DBool false])
     = (Ok tt, (VM.set_ip 3 (started [0%nat] while_program), asked)).
Proof.
  split; [|split].
  - exact (proj1 (while_tests_before_each_round 0 window_visible [sleep_stmt 1]
                    [mkInstruction InstructionKind.sleep (DExpr (NumberExpression 1))]
                    [] [] (started [0%nat] while_program) (script [DBool true])
                    (DBool true) asked eq_refl eq_refl eq_refl (or_introl eq_refl) eq_refl)).
  - exact (proj2 (proj2 (while_tests_before_each_round 0 window_visible [sleep_stmt 1]
                    [mkInstruction InstructionKind.sleep (DExpr (NumberExpression 1))]
                    [] [] (started [0%nat] while_program) (script [DBool true])
                    (DBool true) asked eq_refl eq_refl eq_refl (or_introl eq_refl) eq_refl))).
  - exact (proj2 (proj2 (while_tests_before_each_round 0 window_visible [sleep_stmt 1]
                    [mkInstruction InstructionKind.sleep (DExpr (NumberExpression 1))]
                    [] [] (VM.set_ip 2 (started [0%nat] while_program)) (script [DBool false])
                    (DBool false) asked eq_refl eq_refl eq_refl (or_intror eq_refl) eq_refl))).
Defined.

(** The world after [n] sleeps of one second and no client operation. *)
Definition napped (n : nat) : Scripted :=
  {| answers := []; calls := []; sleeps := replicate n 1%float; lines := [] |}.

Lemma loop_returns_to_start_witness :
  Compiler.compile_stmt loop_stmt [] = (Ok tt, loop_program)
  /\ steps 0 1 (started [0%nat] loop_program, script [])
     = Some ((VM.set_ip 1 (started [0%nat] loop_program), napped 1), [0])
  /\ steps 0 2 (started [0%nat] loop_program, script [])
     = Some ((started [0%nat] loop_program, napped 1), [0; 1]).
Proof.
  split; [|split].
  - reflexivity.
  - reflexivity.
  - exact (proj2 (loop_returns_to_start 0 [sleep_stmt 1]
                    [mkInstruction InstructionKind.sleep (DExpr (NumberExpression 1))]
                    [] [] (started [0%nat] loop_program) (script []) 1%nat
                    (VM.set_ip 1 (started [0%nat] loop_program), napped 1) [0]
                    eq_refl eq_refl eq_refl eq_refl eq_refl eq_refl)).
Defined.

Lemma block_definition_ends_the_run_witness :
  Compiler.compile_stmt def_stmt [] = (Ok tt, def_program)
  /\ VM.step 0 (started [0%nat] def_program, script [])
     = (Ok tt, (VM.set_ip 4 (started [0%nat] def_program), script []))
  /\ VM.step 0 (VM.set_ip 4 (started [0%nat] def_program), script [])
     = (Raise (VMError "Unimplemented instruction"),
        (VM.set_ip 4 (started [0%nat] def_program), script [])).
Proof.
  exact (block_definition_ends_the_run 0 "a" [sleep_stmt 1]
           [mkInstruction InstructionKind.sleep (DExpr (NumberExpression 1))]
           [] [] (started [0%nat] def_program) (script [])
           eq_refl eq_refl eq_refl eq_refl).
Defined.

(** ** Calls of client actions *)

Definition sendkey_x : Command :=
  mkCommand CommandKind.sendkey [DStr "X"; DFloat 0.5] (Some everyone).

Lemma compiled_action_without_dispatch_witness :
  Compiler.compile [CommandStmt sendkey_x] = Ok [deimos_call_of sendkey_x]
  /\ VM.step 0 (started [0%nat] [deimos_call_of sendkey_x], script [])
     = (Raise (VMError "Unimplemented deimos call"),
        (started [0%nat] [deimos_call_of sendkey_x], script [])).
Proof.
  split; [reflexivity|].
  refine (proj2 (compiled_action_without_dispatch 0 sendkey_x everyone
                   (started [0%nat] [deimos_call_of sendkey_x]) (script [])
                   _ eq_refl eq_refl eq_refl)).
  apply list_elem_of_here.
Defined.

(** A dialog that closes between the two instructions of the compiled
    wait and opens again. *)
Definition reopening_script : Scripted :=
  script [DBool false; DBool true; DBool false; DBool true; DBool false].

Lemma compiled_waitfor_polls_true_twice_witness :
  Compiler.compile_command (waitfor_dialog true) []
  = (Ok tt, [deimos_call_of (waitfor_dialog false); deimos_call_of (waitfor_dialog true)])
  /\ steps 3 2
       (started [0%nat]
          [deimos_call_of (waitfor_dialog false); deimos_call_of (waitfor_dialog true)],
        reopening_script)
     = Some ((VM.set_running false
                (VM.set_ip 2
                   (started [0%nat]
                      [deimos_call_of (waitfor_dialog false);
                       deimos_call_of (waitfor_dialog true)])),
              polled [] 5 2),
             [0; 1]).
Proof.
  assert (H1 : polls_until in_dialog VM.interval_default true 2 reopening_script
                 (polled [DBool false; DBool true; DBool false] 2 1)).
  { eapply polls_miss; [reflexivity | reflexivity |]. eapply polls_hit. reflexivity. }
  assert (H2 : polls_until in_dialog VM.interval_default true 2
                 (polled [DBool false; DBool true; DBool false] 2 1)
                 (polled [DBool false] 4 2)).
  { eapply polls_miss; [reflexivity | reflexivity |]. eapply polls_hit. reflexivity. }
  assert (H3 : polls_until in_dialog VM.interval_default false 1
                 (polled [DBool false] 4 2) (polled [] 5 2)).
  { eapply polls_hit. reflexivity. }
  exact (compiled_waitfor_polls_true_twice 3 WaitforKind.dialog "is_in_dialog" everyone
           0%nat [] []
           (started [0%nat]
              [deimos_call_of (waitfor_dialog false); deimos_call_of (waitfor_dialog true)])
           reopening_script 2 2 1 _ _ _
           eq_refl eq_refl eq_refl eq_refl eq_refl H1 H2 H3
           (le_S 2 2 (le_n 2)) (le_S 2 2 (le_n 2)) (le_S 1 2 (le_S 1 1 (le_n 1)))).
Defined.

(** ** The flags of the machine *)

Definition kill_program : list Instruction :=
  [mkInstruction InstructionKind.kill DNone;
   mkInstruction InstructionKind.sleep (DExpr (NumberExpression 1))].

Lemma step_flags_witness :
  (VM.killed (VM.step 0 (started [0%nat] kill_program, script [])).2.1 = true
   /\ VM.running (VM.step 0 (started [0%nat] kill_program, script [])).2.1 = false
   /\ VM._ip (VM.step 0 (started [0%nat] kill_program, script [])).2.1 = 0)
  /\ (VM.killed (VM.step 0 (VM.set_ip 1 (started [0%nat] kill_program), script [])).2.1
      = false
      /\ VM.running (VM.step 0 (VM.set_ip 1 (started [0%nat] kill_program), script [])).2.1
         = false).
Proof.
  split.
  - exact (step_flags 0 (started [0%nat] kill_program) (script [])
             (mkInstruction InstructionKind.kill DNone) _ _ eq_refl eq_refl eq_refl).
  - exact (step_flags 0 (VM.set_ip 1 (started [0%nat] kill_program)) (script [])
             (mkInstruction InstructionKind.sleep (DExpr (NumberExpression 1))) _ _
             eq_refl eq_refl eq_refl).
Defined.

(** ** Selection *)

Lemma player_by_num_is_selector_of_pred_witness :
  exists c,
    VM.player_by_num (VM.__init__ [7; 8; 9]%nat) 2 = Ok c
    /\ VM._select_players (VM.__init__ [7; 8; 9]%nat)
         {| mass := false; inverted := false; player_nums := {[2 - 1]} |} = [c].
Proof.
  apply (player_by_num_is_selector_of_pred (VM.__init__ [7; 8; 9]%nat) 2).
  simpl. lia.
Defined.

Definition window_visible_for (sel : PlayerSelector) : Expression :=
  CommandExpression
    (mkCommand CommandKind.expr
       [DExprKind ExprKind.window_visible; DList [DStr "WorldView"; DStr "NPCDialog"]]
       (Some sel)).

Lemma condition_on_nobody_holds_witness :
  VM.eval (started [0%nat] [])
    (window_visible_for {| mass := false; inverted := false; player_nums := {[5]} |})
    None (script [DBool false])
  = (Ok (DBool true), script [DBool false]).
Proof.
  apply (condition_on_nobody_holds (started [0%nat] []) ExprKind.window_visible
           [DList [DStr "WorldView"; DStr "NPCDialog"]]
           {| mass := false; inverted := false; player_nums := {[5]} |}
           (script [DBool false])).
  - by left.
  - vm_compute. reflexivity.
Defined.

(** ** The task watcher *)

Lemma new_task_then_unregister_witness :
  (task <- TaskWatcher.new_task (TaskWatcher.coroutine "teleport");;
   TaskWatcher.unregister task) (three_watcher, three_loop)
  = (Ok tt, (three_watcher,
             three_loop ++ [(TaskWatcher.coroutine "teleport", TaskWatcher.pending true)])).
Proof.
  apply (new_task_then_unregister three_watcher three_loop (TaskWatcher.coroutine "teleport")).
  repeat constructor.
Defined.

Lemma unregister_absent_cancels_first_witness :
  TaskWatcher.unregister 0%nat (TaskWatcher.set_tasks [1; 2]%nat three_watcher, three_loop)
  = (Raise ValueError,
     (TaskWatcher.set_tasks [1; 2]%nat three_watcher,
      [(TaskWatcher.coroutine "walk", TaskWatcher.pending true);
       (TaskWatcher.coroutine "teleport",
        TaskWatcher.finished
          (TaskWatcher.failed (TaskWatcher.exception (ProviderError "MemoryReadError"))));
       (TaskWatcher.coroutine "heal", TaskWatcher.finished TaskWatcher.returned)])).
Proof.
  apply (unregister_absent_cancels_first
           (TaskWatcher.set_tasks [1; 2]%nat three_watcher) three_loop 0%nat).
  intros Hin. apply elem_of_cons in Hin as [Hin|Hin]; [discriminate|].
  apply elem_of_cons in Hin as [Hin|Hin]; [discriminate|].
  by apply elem_of_nil in Hin.
Defined.

Lemma unregister_removes_one_witness :
  TaskWatcher.unregister 1%nat (TaskWatcher.set_tasks [0; 1; 2; 1]%nat three_watcher, three_loop)
  = (Ok tt, (TaskWatcher.set_tasks [0; 2; 1]%nat three_watcher, three_loop))
  /\ [0; 1; 2; 1]%nat ≡ₚ 1%nat :: [0; 2; 1]%nat.
Proof.
  split; [reflexivity|].
  exact (proj1 (unregister_removes_one
                  (TaskWatcher.set_tasks [0; 1; 2; 1]%nat three_watcher) three_loop 1%nat
                  (TaskWatcher.set_tasks [0; 2; 1]%nat three_watcher, three_loop) eq_refl)).
Defined.

(** The three tasks with the second cancelled. *)
Definition cancelled_loop : TaskWatcher.EventLoop :=
  [(TaskWatcher.coroutine "walk", TaskWatcher.pending false);
   (TaskWatcher.coroutine "teleport", TaskWatcher.finished TaskWatcher.cancelled);
   (TaskWatcher.coroutine "heal", TaskWatcher.finished TaskWatcher.returned)].

Lemma tick_raises_cancelled_witness :
  TaskWatcher._tick (three_watcher, cancelled_loop)
  = (Raise CancelledError, (three_watcher, cancelled_loop)).
Proof.
  apply (tick_raises_cancelled three_watcher cancelled_loop [0%nat] [2%nat] 1%nat).
  - reflexivity.
  - repeat constructor.
  - reflexivity.
Defined.

(** ** The bot context *)

Definition two_line_bot : BotCtx.t nat :=
  {| BotCtx.client := 0%nat; BotCtx.line_idx := 1;
     BotCtx.code_lines := ["tp quest"; "waitfor dialog"] |}.

Lemma bot_lines_cycle_witness :
  BotCtx.line_idx
    (Nat.iter 3 (fun s => (BotCtx.step s).2) (two_line_bot, script [])).1
  = (1 + Z.of_nat 3) mod Z.of_nat (length (BotCtx.code_lines two_line_bot))
  /\ BotCtx.step (two_line_bot, script [])
     = (Ok BotStepResult.loop,
        (BotCtx.set_line_idx 0 two_line_bot,
         {| answers := []; calls := [(0%nat, "parse_command")]; sleeps := []; lines := [] |})).
Proof.
  split; [|reflexivity].
  refine (proj1 (proj1 (bot_lines_cycle two_line_bot (script []) _) 3%nat)).
  simpl. lia.
Defined.

(** ** Whole runs *)

Lemma run_empty_program_fails_witness :
  VM.run 0 1 (VM.reset (started [0%nat] kill_program), script [])
  = (Raise IndexError,
     (VM.set_running true (VM.reset (started [0%nat] kill_program)), script [])).
Proof.
  apply (run_empty_program_fails 0 0 (VM.reset (started [0%nat] kill_program)) (script [])).
  reflexivity.
Defined.

Definition nap_program : list Instruction :=
  [mkInstruction InstructionKind.sleep (DExpr (NumberExpression 1));
   mkInstruction InstructionKind.sleep (DExpr (NumberExpression 1))].

Lemma run_returns_where_steps_stop_witness :
  steps 0 2 (started [0%nat] nap_program, script [])
  = Some ((VM.set_running false (VM.set_ip 2 (started [0%nat] nap_program)), napped 2),
          [0; 1])
  /\ VM.run 0 5 (VM.set_program nap_program (VM.__init__ [0%nat]), script [])
     = (Ok tt, (VM.set_running false (VM.set_ip 2 (started [0%nat] nap_program)), napped 2)).
Proof.
  split; [reflexivity|].
  exact (proj1 (run_returns_where_steps_stop 0 2 2
                  (VM.set_program nap_program (VM.__init__ [0%nat])) (script [])
                  (VM.set_running false (VM.set_ip 2 (started [0%nat] nap_program)), napped 2)
                  [0; 1] eq_refl eq_refl)).
Defined.

Definition countdown_program : list Instruction :=
  [mkInstruction InstructionKind.dec_var (DStr "i");
   mkInstruction InstructionKind.sleep (DExpr (NumberExpression 1))].

Lemma variables_compile_but_do_not_run_witness :
  Compiler.compile [DecVarStmt "i"; sleep_stmt 1] = Ok countdown_program
  /\ VM.run 0 1 (VM.set_program countdown_program (VM.__init__ [0%nat]), script [])
     = (Raise (VMError "Unimplemented instruction"),
        (started [0%nat] countdown_program, script [])).
Proof.
  split; [reflexivity|].
  refine (proj2 (variables_compile_but_do_not_run 0 0 (DecVarStmt "i") [sleep_stmt 1]
                   countdown_program [0%nat] (script []) _ eq_refl)).
  right. left. by exists "i".
Defined.

(** ** The clients a wait polls *)

Lemma waitfor_polls_last_client_witness :
  VM.exec_waitfor 3 (deimos_call_of (waitfor_dialog false)) [0; 1]%nat
                  (script [DBool false; DBool false; DBool true; DBool true])
  = VM.exec_waitfor 3 (deimos_call_of (waitfor_dialog false)) [1; 1]%nat
                    (script [DBool false; DBool false; DBool true; DBool true])
  /\ VM.exec_waitfor 3 (deimos_call_of (waitfor_dialog false)) [0; 1]%nat
                     (script [DBool false; DBool false; DBool true; DBool true])
     = (Ok tt, {| answers := [];
                  calls := replicate 4 (1%nat, "is_in_dialog");
                  sleeps := replicate 2 VM.interval_default; lines := [] |}).
Proof.
  split; [|reflexivity].
  apply (waitfor_polls_last_client 3 (deimos_call_of (waitfor_dialog false))
           (DSelector everyone) (DStr "waitfor") WaitforKind.dialog [DBool false]
           [0%nat] [1%nat] 1%nat
           (script [DBool false; DBool false; DBool true; DBool true])).
  - reflexivity.
  - discriminate.
Defined.
